(** * Surface Serial Hub: request transmission layer (RTL)

    A shallow embedding of [drivers/misc/surface_sam/ssh_request_layer.c]
    and of the parts of [ssh_request_layer.h] it relies on.

    - Machine words ([unsigned long] state words, [ktime_t], [atomic_t]) are
      integers of [Z]; state bits are read and written with [Z.testbit],
      [Z.setbit] and [Z.clearbit], the signed 64-bit wrap-around of [ktime_t]
      arithmetic is written out in [wrap64].
    - A [struct ssh_request *] is a [rqst_id]; the requests live in a store
      [mem], the one [struct ssh_rtl] of the driver in [rtl].
    - Every C function is a computation [M A] over the whole system state
      that either returns a value and the next state or does not return
      ([None]: dereference of a NULL layer pointer, or a loop that keeps
      spinning).
    - Calls into client code ([ops->complete], [ops->release]) are recorded,
      in order, in [calls].
    - What the packet layer, the clock and the other threads do is an argument
      of the function that observes it. *)

From Stdlib Require Import ZArith List Bool Lia.
Import ListNotations.
Local Open Scope Z_scope.

(** ** Kernel constants *)

(** [include/uapi/asm-generic/errno*.h] *)
Definition ENOENT : Z := 2.
Definition EINTR : Z := 4.
Definition EAGAIN : Z := 11.
Definition EBUSY : Z := 16.
Definition EINVAL : Z := 22.
Definition ESHUTDOWN : Z := 108.
Definition ETIMEDOUT : Z := 110.
Definition EALREADY : Z := 114.
Definition EREMOTEIO : Z := 121.
Definition ECANCELED : Z := 125.

(** [include/linux/ktime.h]: [ktime_t] is a signed 64-bit count of
    nanoseconds. *)
Definition KTIME_MAX : Z := 2 ^ 63 - 1.
Definition NSEC_PER_MSEC : Z := 1000000.

Definition wrap64 (x : Z) : Z := (x + 2 ^ 63) mod 2 ^ 64 - 2 ^ 63.

Definition ktime_add (lhs rhs : Z) : Z := wrap64 (lhs + rhs).
Definition ktime_sub (lhs rhs : Z) : Z := wrap64 (lhs - rhs).
Definition ktime_before (cmp1 cmp2 : Z) : bool := cmp1 <? cmp2.
Definition ktime_after (cmp1 cmp2 : Z) : bool := cmp1 >? cmp2.
Definition ms_to_ktime (ms : Z) : Z := wrap64 (ms * NSEC_PER_MSEC).
Definition ktime_ms_delta (later earlier : Z) : Z :=
  Z.quot (ktime_sub later earlier) NSEC_PER_MSEC.

(** ** Declarations that are not part of the sources at hand

    [enum ssh_request_flags], the packet type bits, the request-init flags
    and the tick rate are declared in headers that are not under the source
    tree modelled here ([ssh_packet_layer.h],
    [linux/surface_aggregator_module.h], the kernel configuration).  The
    development is parametric in them. *)
Class ssh_decls := {
  SSH_REQUEST_SF_LOCKED_BIT : Z;
  SSH_REQUEST_SF_QUEUED_BIT : Z;
  SSH_REQUEST_SF_PENDING_BIT : Z;
  SSH_REQUEST_SF_TRANSMITTING_BIT : Z;
  SSH_REQUEST_SF_TRANSMITTED_BIT : Z;
  SSH_REQUEST_SF_RSPRCVD_BIT : Z;
  SSH_REQUEST_SF_CANCELED_BIT : Z;
  SSH_REQUEST_SF_COMPLETED_BIT : Z;
  SSH_REQUEST_TY_FLUSH_BIT : Z;
  SSH_REQUEST_TY_HAS_RESPONSE_BIT : Z;
  SSH_REQUEST_FLAGS_TY_MASK : Z;
  SSH_PACKET_TY_FLUSH_BIT : Z;
  SSH_PACKET_TY_SEQUENCED_BIT : Z;
  SSH_PACKET_TY_BLOCKING_BIT : Z;
  SSAM_REQUEST_HAS_RESPONSE : Z;
  SSAM_REQUEST_UNSEQUENCED : Z;
  HZ : Z;
  msecs_to_jiffies : Z -> Z
}.

(** [ssh_request_layer.h]: [enum ssh_rtl_state_flags]. *)
Definition SSH_RTL_SF_SHUTDOWN_BIT : Z := 0.

(** [ssh_request_layer.c], lines 20-23. *)
Definition SSH_RTL_REQUEST_TIMEOUT : Z := ms_to_ktime 3000.
Definition SSH_RTL_REQUEST_TIMEOUT_RESOLUTION `{ssh_decls} : Z :=
  ms_to_ktime (Z.max (Z.quot 2000 HZ) 50).
Definition SSH_RTL_MAX_PENDING : Z := 3.

Definition BIT (nr : Z) : Z := Z.shiftl 1 nr.

(** ** Data *)

Definition rqst_id := nat.

(** [struct ssh_command]: only the request id is looked at by the RTL. *)
Record ssh_command := { rqid : Z }.

(** [struct ssam_span]: the bytes of a payload. *)
Definition ssam_span := list Z.

(** [struct ssh_request] with the fields of its embedded [struct ssh_packet]
    that the request layer reads or writes. *)
Record ssh_request := {
  packet_ptl : bool;      (* packet.ptl: bound to the layer, or NULL *)
  packet_state : Z;       (* packet.state *)
  packet_refcnt : Z;      (* packet.refcnt *)
  packet_data : option Z;  (* packet.data.ptr: NULL, or a message whose
                              command header carries this request id *)
  state : Z;
  timestamp : Z
}.

(** [struct ssh_rtl]. *)
Record ssh_rtl := {
  rtl_state : Z;
  queue_head : list rqst_id;
  pending_head : list rqst_id;
  pending_count : Z;
  tx_work : bool;                  (* tx.work is queued on the workqueue *)
  rtx_timeout_timeout : Z;
  rtx_timeout_expires : Z;
  rtx_timeout_reaper : option Z    (* delay the reaper was last armed with *)
}.

(** Calls into client code. *)
Inductive call :=
| Complete (r : rqst_id) (rsp : option (ssh_command * ssam_span)) (status : Z)
| Release (r : rqst_id).

Record sys := {
  rtl : ssh_rtl;
  mem : rqst_id -> ssh_request;
  calls : list call;               (* oldest first *)
  tx_rqst : option rqst_id         (* the transmitter's [rqst] while it is
                                      inside ssh_ptl_submit *)
}.

(** *** Field updates *)

Definition with_packet_ptl (v : bool) (q : ssh_request) : ssh_request :=
  {| packet_ptl := v; packet_state := packet_state q;
     packet_refcnt := packet_refcnt q; packet_data := packet_data q;
     state := state q; timestamp := timestamp q |}.

Definition with_packet_state (v : Z) (q : ssh_request) : ssh_request :=
  {| packet_ptl := packet_ptl q; packet_state := v;
     packet_refcnt := packet_refcnt q; packet_data := packet_data q;
     state := state q; timestamp := timestamp q |}.

Definition with_packet_data (v : option Z) (q : ssh_request) : ssh_request :=
  {| packet_ptl := packet_ptl q; packet_state := packet_state q;
     packet_refcnt := packet_refcnt q; packet_data := v;
     state := state q; timestamp := timestamp q |}.

Definition with_packet_refcnt (v : Z) (q : ssh_request) : ssh_request :=
  {| packet_ptl := packet_ptl q; packet_state := packet_state q;
     packet_refcnt := v; packet_data := packet_data q;
     state := state q; timestamp := timestamp q |}.

Definition with_state (v : Z) (q : ssh_request) : ssh_request :=
  {| packet_ptl := packet_ptl q; packet_state := packet_state q;
     packet_refcnt := packet_refcnt q; packet_data := packet_data q;
     state := v; timestamp := timestamp q |}.

Definition with_timestamp (v : Z) (q : ssh_request) : ssh_request :=
  {| packet_ptl := packet_ptl q; packet_state := packet_state q;
     packet_refcnt := packet_refcnt q; packet_data := packet_data q;
     state := state q; timestamp := v |}.

Definition with_rtl_state (v : Z) (l : ssh_rtl) : ssh_rtl :=
  {| rtl_state := v; queue_head := queue_head l;
     pending_head := pending_head l; pending_count := pending_count l;
     tx_work := tx_work l; rtx_timeout_timeout := rtx_timeout_timeout l;
     rtx_timeout_expires := rtx_timeout_expires l;
     rtx_timeout_reaper := rtx_timeout_reaper l |}.

Definition with_queue_head (v : list rqst_id) (l : ssh_rtl) : ssh_rtl :=
  {| rtl_state := rtl_state l; queue_head := v;
     pending_head := pending_head l; pending_count := pending_count l;
     tx_work := tx_work l; rtx_timeout_timeout := rtx_timeout_timeout l;
     rtx_timeout_expires := rtx_timeout_expires l;
     rtx_timeout_reaper := rtx_timeout_reaper l |}.

Definition with_pending (v : list rqst_id) (c : Z) (l : ssh_rtl) : ssh_rtl :=
  {| rtl_state := rtl_state l; queue_head := queue_head l;
     pending_head := v; pending_count := c;
     tx_work := tx_work l; rtx_timeout_timeout := rtx_timeout_timeout l;
     rtx_timeout_expires := rtx_timeout_expires l;
     rtx_timeout_reaper := rtx_timeout_reaper l |}.

Definition with_tx_work (v : bool) (l : ssh_rtl) : ssh_rtl :=
  {| rtl_state := rtl_state l; queue_head := queue_head l;
     pending_head := pending_head l; pending_count := pending_count l;
     tx_work := v; rtx_timeout_timeout := rtx_timeout_timeout l;
     rtx_timeout_expires := rtx_timeout_expires l;
     rtx_timeout_reaper := rtx_timeout_reaper l |}.

Definition with_expires (v : Z) (l : ssh_rtl) : ssh_rtl :=
  {| rtl_state := rtl_state l; queue_head := queue_head l;
     pending_head := pending_head l; pending_count := pending_count l;
     tx_work := tx_work l; rtx_timeout_timeout := rtx_timeout_timeout l;
     rtx_timeout_expires := v;
     rtx_timeout_reaper := rtx_timeout_reaper l |}.

Definition with_reaper (v : option Z) (l : ssh_rtl) : ssh_rtl :=
  {| rtl_state := rtl_state l; queue_head := queue_head l;
     pending_head := pending_head l; pending_count := pending_count l;
     tx_work := tx_work l; rtx_timeout_timeout := rtx_timeout_timeout l;
     rtx_timeout_expires := rtx_timeout_expires l;
     rtx_timeout_reaper := v |}.

Definition on_rtl (f : ssh_rtl -> ssh_rtl) (s : sys) : sys :=
  {| rtl := f (rtl s); mem := mem s; calls := calls s; tx_rqst := tx_rqst s |}.

Definition on_rqst (r : rqst_id) (f : ssh_request -> ssh_request) (s : sys)
  : sys :=
  {| rtl := rtl s;
     mem := fun r' => if Nat.eqb r' r then f (mem s r') else mem s r';
     calls := calls s; tx_rqst := tx_rqst s |}.

Definition record_call (c : call) (s : sys) : sys :=
  {| rtl := rtl s; mem := mem s; calls := calls s ++ [c];
     tx_rqst := tx_rqst s |}.

Definition with_tx_rqst (v : option rqst_id) (s : sys) : sys :=
  {| rtl := rtl s; mem := mem s; calls := calls s; tx_rqst := v |}.

(** ** Computations *)

Definition M (A : Type) : Type := sys -> option (A * sys).

Definition ret {A} (a : A) : M A := fun s => Some (a, s).

Definition bind {A B} (m : M A) (f : A -> M B) : M B :=
  fun s => match m s with
           | Some (a, s') => f a s'
           | None => None
           end.

(** The call does not return. *)
Definition oops {A} : M A := fun _ => None.

Definition gets {A} (f : sys -> A) : M A := fun s => Some (f s, s).
Definition modify (f : sys -> sys) : M unit := fun s => Some (tt, f s).

Declare Scope rtl_scope.
Delimit Scope rtl_scope with rtl.
Notation "x <- c1 ;; c2" := (bind c1 (fun x => c2))
  (at level 61, c1 at next level, right associativity) : rtl_scope.
Notation "c1 ;; c2" := (bind c1 (fun _ => c2))
  (at level 61, right associativity) : rtl_scope.
Local Open Scope rtl_scope.

(** [list_del(&r->node)] on the list the node is linked in. *)
Fixpoint list_del (r : rqst_id) (l : list rqst_id) : list rqst_id :=
  match l with
  | [] => []
  | x :: t => if Nat.eqb x r then t else x :: list_del r t
  end.

(** *** Atomic bit operations on [rqst->state] *)

Definition test_bit (nr : Z) (r : rqst_id) : M bool :=
  gets (fun s => Z.testbit (state (mem s r)) nr).

Definition set_bit (nr : Z) (r : rqst_id) : M unit :=
  modify (on_rqst r (fun q => with_state (Z.setbit (state q) nr) q)).

Definition clear_bit (nr : Z) (r : rqst_id) : M unit :=
  modify (on_rqst r (fun q => with_state (Z.clearbit (state q) nr) q)).

Definition test_and_set_bit (nr : Z) (r : rqst_id) : M bool :=
  old <- test_bit nr r ;; set_bit nr r ;; ret old.

Definition test_and_clear_bit (nr : Z) (r : rqst_id) : M bool :=
  old <- test_bit nr r ;; clear_bit nr r ;; ret old.

(** [cmpxchg(&r->state, old, new)]: returns the value found. *)
Definition cmpxchg_state (r : rqst_id) (old new : Z) : M Z :=
  cur <- gets (fun s => state (mem s r)) ;;
  (if cur =? old
   then modify (on_rqst r (with_state new))
   else ret tt) ;;
  ret cur.

(** ** The request layer *)

Section RequestLayer.

Context {K : ssh_decls}.

(** *** Accessors *)

Definition rqst_state (r : rqst_id) : M Z := gets (fun s => state (mem s r)).

Definition pending_count_read : M Z := gets (fun s => pending_count (rtl s)).

(** [ssh_request_rtl]: the layer of a request, or NULL ([false]). *)
Definition ssh_request_rtl (rqst : rqst_id) : M bool :=
  gets (fun s => packet_ptl (mem s rqst)).

(** First access through the pointer returned by [ssh_request_rtl]. *)
Definition deref_rtl (rqst : rqst_id) : M unit :=
  rtl <- ssh_request_rtl rqst ;;
  if rtl then ret tt else oops.

(** [ssh_request_get] / [ssh_request_put]: the reference count of the packet;
    the last put calls [ssh_rtl_packet_release], that is [ops->release]. *)
Definition ssh_request_get (rqst : rqst_id) : M unit :=
  modify (on_rqst rqst
            (fun q => with_packet_refcnt (packet_refcnt q + 1) q)).

Definition ssh_request_put (rqst : rqst_id) : M unit :=
  modify (on_rqst rqst
            (fun q => with_packet_refcnt (packet_refcnt q - 1) q)) ;;
  c <- gets (fun s => packet_refcnt (mem s rqst)) ;;
  if c =? 0 then modify (record_call (Release rqst)) else ret tt.

(** [ssh_request_get_rqid]: reads through [packet.data.ptr]. *)
Definition ssh_request_get_rqid (rqst : rqst_id) : M Z :=
  data <- gets (fun s => packet_data (mem s rqst)) ;;
  match data with
  | Some id => ret id
  | None => oops
  end.

(** *** Queue and pending set *)

Definition ssh_rtl_queue_remove (rqst : rqst_id) : M unit :=
  deref_rtl rqst ;;
  remove <- test_and_clear_bit SSH_REQUEST_SF_QUEUED_BIT rqst ;;
  (if remove
   then modify (on_rtl (fun l =>
                  with_queue_head (list_del rqst (queue_head l)) l))
   else ret tt) ;;
  if remove then ssh_request_put rqst else ret tt.

Definition ssh_rtl_queue_empty : M bool :=
  gets (fun s => match queue_head (rtl s) with [] => true | _ => false end).

Definition ssh_rtl_pending_remove (rqst : rqst_id) : M unit :=
  deref_rtl rqst ;;
  remove <- test_and_clear_bit SSH_REQUEST_SF_PENDING_BIT rqst ;;
  (if remove
   then modify (on_rtl (fun l =>
                  with_pending (list_del rqst (pending_head l))
                               (pending_count l - 1) l))
   else ret tt) ;;
  if remove then ssh_request_put rqst else ret tt.

Definition ssh_rtl_tx_pending_push (rqst : rqst_id) : M Z :=
  deref_rtl rqst ;;
  locked <- test_bit SSH_REQUEST_SF_LOCKED_BIT rqst ;;
  if locked then ret (- EINVAL) else
  was <- test_and_set_bit SSH_REQUEST_SF_PENDING_BIT rqst ;;
  if was then ret (- EALREADY) else
  ssh_request_get rqst ;;
  modify (on_rtl (fun l =>
            with_pending (pending_head l ++ [rqst]) (pending_count l + 1) l)) ;;
  ret 0.

(** *** Completion *)

Definition ssh_rtl_complete_with_status (rqst : rqst_id) (status : Z)
  : M unit :=
  modify (record_call (Complete rqst None status)).

Definition ssh_rtl_complete_with_rsp (rqst : rqst_id) (cmd : ssh_command)
  (data : ssam_span) : M unit :=
  modify (record_call (Complete rqst (Some (cmd, data)) 0)).

(** *** Transmitter *)

Definition ssh_rtl_tx_can_process (rqst : rqst_id) : M bool :=
  deref_rtl rqst ;;
  flush <- test_bit SSH_REQUEST_TY_FLUSH_BIT rqst ;;
  count <- pending_count_read ;;
  if flush then ret (count =? 0)
  else ret (count <? SSH_RTL_MAX_PENDING).

(** The body of [list_for_each_entry_safe] in [ssh_rtl_tx_next]; the result
    is [inl e] for [ERR_PTR(e)]. *)
Fixpoint tx_next_scan (l : list rqst_id) : M (Z + rqst_id) :=
  match l with
  | [] => ret (inl (- ENOENT))
  | p :: n =>
      locked <- test_bit SSH_REQUEST_SF_LOCKED_BIT p ;;
      if locked then tx_next_scan n else
      ok <- ssh_rtl_tx_can_process p ;;
      if negb ok then ret (inl (- EBUSY)) else
      set_bit SSH_REQUEST_SF_TRANSMITTING_BIT p ;;
      clear_bit SSH_REQUEST_SF_QUEUED_BIT p ;;
      modify (on_rtl (fun l => with_queue_head (list_del p (queue_head l)) l)) ;;
      ret (inr p)
  end.

Definition ssh_rtl_tx_next : M (Z + rqst_id) :=
  q <- gets (fun s => queue_head (rtl s)) ;;
  tx_next_scan q.

(** [ssh_rtl_tx_try_process_one] up to the call of [ssh_ptl_submit] ... *)
Definition tx_try_process_one_begin : M (Z + rqst_id) :=
  rqst <- ssh_rtl_tx_next ;;
  match rqst with
  | inl e => ret (inl e)
  | inr rqst =>
      status <- ssh_rtl_tx_pending_push rqst ;;
      if negb (status =? 0)
      then ssh_request_put rqst ;; ret (inl (- EAGAIN))
      else ret (inr rqst)
  end.

(** ... and from the return of [ssh_ptl_submit] with [status] on. *)
Definition tx_try_process_one_end (rqst : rqst_id) (status : Z) : M Z :=
  if status =? - ESHUTDOWN then
    set_bit SSH_REQUEST_SF_LOCKED_BIT rqst ;;
    ssh_rtl_pending_remove rqst ;;
    ssh_rtl_complete_with_status rqst (- ESHUTDOWN) ;;
    ssh_request_put rqst ;;
    ret (- ESHUTDOWN)
  else if negb (status =? 0) then
    ssh_request_put rqst ;;
    ret (- EAGAIN)
  else
    ssh_request_put rqst ;;
    ret 0.

Definition ssh_rtl_tx_try_process_one (ptl_submit : Z) : M Z :=
  rqst <- tx_try_process_one_begin ;;
  match rqst with
  | inl e => ret e
  | inr rqst => tx_try_process_one_end rqst ptl_submit
  end.

Definition ssh_rtl_tx_schedule : M bool :=
  count <- pending_count_read ;;
  if count >=? SSH_RTL_MAX_PENDING then ret false else
  empty <- ssh_rtl_queue_empty ;;
  if empty then ret false else
  queued <- gets (fun s => tx_work (rtl s)) ;;
  modify (on_rtl (with_tx_work true)) ;;
  ret (negb queued).

(** The [for] loop of [ssh_rtl_tx_work_fn]; [ptl_submit i] is what
    [ssh_ptl_submit] answers in iteration [i]. *)
Fixpoint tx_work_loop (tries : nat) (i : nat) (ptl_submit : nat -> Z)
  : M unit :=
  match tries with
  | O => ssh_rtl_tx_schedule ;; ret tt
  | S tries' =>
      status <- ssh_rtl_tx_try_process_one (ptl_submit i) ;;
      if (status =? - ENOENT) || (status =? - EBUSY) then ret tt else
      if status =? - ESHUTDOWN then ret tt else
      tx_work_loop tries' (S i) ptl_submit
  end.

Definition ssh_rtl_tx_work_fn (ptl_submit : nat -> Z) : M unit :=
  modify (on_rtl (with_tx_work false)) ;;
  tx_work_loop 10 0 ptl_submit.

(** *** Submission *)

Definition ssh_rtl_submit (rqst : rqst_id) : M Z :=
  has_rsp <- test_bit SSH_REQUEST_TY_HAS_RESPONSE_BIT rqst ;;
  seq <- gets (fun s => Z.testbit (packet_state (mem s rqst))
                          SSH_PACKET_TY_SEQUENCED_BIT) ;;
  if has_rsp && negb seq then ret (- EINVAL) else
  bound <- gets (fun s => packet_ptl (mem s rqst)) ;;
  if bound then ret (- EALREADY) else
  modify (on_rqst rqst (with_packet_ptl true)) ;;
  shutdown <- gets (fun s => Z.testbit (rtl_state (rtl s))
                               SSH_RTL_SF_SHUTDOWN_BIT) ;;
  if shutdown then ret (- ESHUTDOWN) else
  locked <- test_bit SSH_REQUEST_SF_LOCKED_BIT rqst ;;
  if locked then ret (- EINVAL) else
  set_bit SSH_REQUEST_SF_QUEUED_BIT rqst ;;
  ssh_request_get rqst ;;
  modify (on_rtl (fun l => with_queue_head (queue_head l ++ [rqst]) l)) ;;
  ssh_rtl_tx_schedule ;;
  ret 0.

(** *** Timeout reaper *)

Definition cmpxchg64_expires (old new : Z) : M Z :=
  cur <- gets (fun s => rtx_timeout_expires (rtl s)) ;;
  (if cur =? old then modify (on_rtl (with_expires new)) else ret tt) ;;
  ret cur.

(** The [while] loop of [ssh_rtl_timeout_reaper_mod], unrolled at most
    [fuel] times; it does not return when the fuel runs out. *)
Fixpoint reaper_mod_loop (fuel : nat) (aexp expires old : Z) : M Z :=
  if ktime_before aexp old then
    match fuel with
    | O => oops
    | S fuel' =>
        old' <- cmpxchg64_expires old expires ;;
        reaper_mod_loop fuel' aexp expires old'
    end
  else ret old.

(** Run on its own, the loop exchanges at most twice or spins for ever
    (see [reaper_mod_loop_fuel]). *)
Definition reaper_mod_fuel : nat := 2.

Definition ssh_rtl_timeout_reaper_mod (now expires : Z) : M unit :=
  let delta := msecs_to_jiffies (ktime_ms_delta expires now) in
  let aexp := ktime_add expires SSH_RTL_REQUEST_TIMEOUT_RESOLUTION in
  old <- gets (fun s => rtx_timeout_expires (rtl s)) ;;
  old <- reaper_mod_loop reaper_mod_fuel aexp expires old ;;
  if old =? expires
  then modify (on_rtl (with_reaper (Some delta)))
  else ret tt.

(** [now] is the value of [ktime_get_coarse_boottime()]. *)
Definition ssh_rtl_timeout_start (rqst : rqst_id) (now : Z) : M unit :=
  deref_rtl rqst ;;
  timeout <- gets (fun s => rtx_timeout_timeout (rtl s)) ;;
  locked <- test_bit SSH_REQUEST_SF_LOCKED_BIT rqst ;;
  if locked then ret tt else
  modify (on_rqst rqst (with_timestamp now)) ;;
  ssh_rtl_timeout_reaper_mod now (wrap64 (now + timeout)).

(** *** Completion dispatcher *)

Definition ssh_rtl_should_drop_response : bool := false.

Inductive scan_result :=
| Dropped
| NoMatch
| Match (r : rqst_id).

(** The scan of the pending list in [ssh_rtl_complete]. *)
Fixpoint complete_scan (rqid : Z) (l : list rqst_id) : M scan_result :=
  match l with
  | [] => ret NoMatch
  | p :: n =>
      id <- ssh_request_get_rqid p ;;
      if negb (id =? rqid) then complete_scan rqid n else
      if ssh_rtl_should_drop_response then ret Dropped else
      set_bit SSH_REQUEST_SF_LOCKED_BIT p ;;
      set_bit SSH_REQUEST_SF_RSPRCVD_BIT p ;;
      clear_bit SSH_REQUEST_SF_PENDING_BIT p ;;
      modify (on_rtl (fun l =>
                with_pending (list_del p (pending_head l))
                             (pending_count l - 1) l)) ;;
      ret (Match p)
  end.

Definition ssh_rtl_complete (command : ssh_command) (command_data : ssam_span)
  : M unit :=
  l <- gets (fun s => pending_head (rtl s)) ;;
  r <- complete_scan (rqid command) l ;;
  match r with
  | Dropped => ret tt
  | NoMatch => ret tt
  | Match r =>
      completed <- test_and_set_bit SSH_REQUEST_SF_COMPLETED_BIT r ;;
      if completed then
        ssh_request_put r ;;
        ssh_rtl_tx_schedule ;;
        ret tt
      else
      transmitted <- test_bit SSH_REQUEST_SF_TRANSMITTED_BIT r ;;
      if negb transmitted then
        ssh_rtl_queue_remove r ;;
        ssh_rtl_complete_with_status r (- EREMOTEIO) ;;
        ssh_request_put r ;;
        ssh_rtl_tx_schedule ;;
        ret tt
      else
        ssh_rtl_complete_with_rsp r command command_data ;;
        ssh_request_put r ;;
        ssh_rtl_tx_schedule ;;
        ret tt
  end.

(** *** Packet callback *)

Definition ssh_rtl_packet_callback (r : rqst_id) (status now : Z) : M unit :=
  if negb (status =? 0) then
    set_bit SSH_REQUEST_SF_LOCKED_BIT r ;;
    completed <- test_and_set_bit SSH_REQUEST_SF_COMPLETED_BIT r ;;
    if completed then ret tt else
    ssh_rtl_queue_remove r ;;
    ssh_rtl_pending_remove r ;;
    ssh_rtl_complete_with_status r status ;;
    deref_rtl r ;;
    ssh_rtl_tx_schedule ;;
    ret tt
  else
    set_bit SSH_REQUEST_SF_TRANSMITTED_BIT r ;;
    clear_bit SSH_REQUEST_SF_TRANSMITTING_BIT r ;;
    has_rsp <- test_bit SSH_REQUEST_TY_HAS_RESPONSE_BIT r ;;
    if has_rsp then ssh_rtl_timeout_start r now else
    set_bit SSH_REQUEST_SF_LOCKED_BIT r ;;
    completed <- test_and_set_bit SSH_REQUEST_SF_COMPLETED_BIT r ;;
    if completed then ret tt else
    ssh_rtl_pending_remove r ;;
    ssh_rtl_complete_with_status r 0 ;;
    deref_rtl r ;;
    ssh_rtl_tx_schedule ;;
    ret tt.

(** *** Cancellation *)

Definition ssh_rtl_cancel_nonpending (r : rqst_id) : M bool :=
  cur <- rqst_state r ;;
  let fixed := Z.land cur SSH_REQUEST_FLAGS_TY_MASK in
  st <- cmpxchg_state r fixed SSH_REQUEST_SF_LOCKED_BIT ;;
  ptl <- gets (fun s => packet_ptl (mem s r)) ;;
  if (st =? 0) && negb ptl then
    completed <- test_and_set_bit SSH_REQUEST_SF_COMPLETED_BIT r ;;
    if completed then ret true else
    ssh_rtl_complete_with_status r (- ECANCELED) ;;
    ret true
  else
    deref_rtl r ;;
    remove <- test_and_clear_bit SSH_REQUEST_SF_QUEUED_BIT r ;;
    if negb remove then ret false else
    set_bit SSH_REQUEST_SF_LOCKED_BIT r ;;
    modify (on_rtl (fun l => with_queue_head (list_del r (queue_head l)) l)) ;;
    ssh_request_put r ;;
    completed <- test_and_set_bit SSH_REQUEST_SF_COMPLETED_BIT r ;;
    if completed then ret true else
    ssh_rtl_complete_with_status r (- ECANCELED) ;;
    ret true.

(** [ssh_ptl_cancel]: the packet layer may complete the packet on the spot,
    which runs [ssh_rtl_packet_callback] with -ECANCELED before the call
    returns; [ptl_completes] tells whether it does. *)
Definition ssh_ptl_cancel (r : rqst_id) (ptl_completes : bool) : M unit :=
  if ptl_completes
  then ssh_rtl_packet_callback r (- ECANCELED) 0
  else ret tt.

Definition ssh_rtl_cancel_pending (r : rqst_id) (ptl_completes : bool)
  : M bool :=
  locked <- test_and_set_bit SSH_REQUEST_SF_LOCKED_BIT r ;;
  if locked then ret true else
  rtl <- ssh_request_rtl r ;;
  if negb rtl then
    completed <- test_and_set_bit SSH_REQUEST_SF_COMPLETED_BIT r ;;
    if completed then ret true else
    ssh_rtl_complete_with_status r (- ECANCELED) ;;
    ret true
  else
    ssh_ptl_cancel r ptl_completes ;;
    completed <- test_and_set_bit SSH_REQUEST_SF_COMPLETED_BIT r ;;
    if completed then ret true else
    ssh_rtl_queue_remove r ;;
    ssh_rtl_pending_remove r ;;
    ssh_rtl_complete_with_status r (- ECANCELED) ;;
    ret true.

Definition ssh_rtl_cancel (rqst : rqst_id) (pending : bool)
  (ptl_completes : bool) : M bool :=
  was <- test_and_set_bit SSH_REQUEST_SF_CANCELED_BIT rqst ;;
  if was then ret true else
  canceled <- (if pending
               then ssh_rtl_cancel_pending rqst ptl_completes
               else ssh_rtl_cancel_nonpending rqst) ;;
  rtl <- ssh_request_rtl rqst ;;
  (if canceled && rtl then ssh_rtl_tx_schedule ;; ret tt else ret tt) ;;
  ret canceled.

(** *** Timeout reaper, continued *)

Definition ssh_request_get_expiration (q : ssh_request) (timeo : Z) : Z :=
  if negb (timestamp q =? KTIME_MAX)
  then ktime_add (timestamp q) timeo
  else KTIME_MAX.

(** First loop of [ssh_rtl_timeout_reap], under the pending lock: returns
    the next expiration and the claimed requests. *)
Fixpoint reap_scan (now timeout : Z) (l : list rqst_id) (next : Z)
  : M (Z * list rqst_id) :=
  match l with
  | [] => ret (next, [])
  | r :: n =>
      expires <- gets (fun s => ssh_request_get_expiration (mem s r) timeout) ;;
      if ktime_after expires now then
        reap_scan now timeout n
                  (if ktime_before expires next then expires else next)
      else
      locked <- test_and_set_bit SSH_REQUEST_SF_LOCKED_BIT r ;;
      if locked then reap_scan now timeout n next else
      clear_bit SSH_REQUEST_SF_PENDING_BIT r ;;
      modify (on_rtl (fun l =>
                with_pending (list_del r (pending_head l))
                             (pending_count l - 1) l)) ;;
      res <- reap_scan now timeout n next ;;
      ret (fst res, r :: snd res)
  end.

(** Second loop: complete what has been claimed. *)
Fixpoint reap_claimed (claimed : list rqst_id) : M unit :=
  match claimed with
  | [] => ret tt
  | r :: n =>
      completed <- test_and_set_bit SSH_REQUEST_SF_COMPLETED_BIT r ;;
      (if negb completed
       then ssh_rtl_complete_with_status r (- ETIMEDOUT)
       else ret tt) ;;
      ssh_request_put r ;;
      reap_claimed n
  end.

Definition ssh_rtl_timeout_reap (now : Z) : M unit :=
  timeout <- gets (fun s => rtx_timeout_timeout (rtl s)) ;;
  modify (on_rtl (with_reaper None)) ;;
  modify (on_rtl (with_expires KTIME_MAX)) ;;
  l <- gets (fun s => pending_head (rtl s)) ;;
  res <- reap_scan now timeout l KTIME_MAX ;;
  reap_claimed (snd res) ;;
  let next :=
    Z.max (fst res) (ktime_add now SSH_RTL_REQUEST_TIMEOUT_RESOLUTION) in
  (if negb (next =? KTIME_MAX)
   then ssh_rtl_timeout_reaper_mod now next
   else ret tt) ;;
  ssh_rtl_tx_schedule ;;
  ret tt.

(** *** Initialisation *)

(** [ssh_rtl_init], the part that sets up [struct ssh_rtl]. *)
Definition ssh_rtl_init : ssh_rtl :=
  {| rtl_state := 0; queue_head := []; pending_head := [];
     pending_count := 0; tx_work := false;
     rtx_timeout_timeout := SSH_RTL_REQUEST_TIMEOUT;
     rtx_timeout_expires := KTIME_MAX;
     rtx_timeout_reaper := None |}.

(** [ssh_request_init]; [ssh_packet_init] leaves the packet unbound, without
    data and with one reference. *)
Definition ssh_request_init (flags : Z) : ssh_request :=
  {| packet_ptl := false;
     packet_state :=
       Z.lor (BIT SSH_PACKET_TY_BLOCKING_BIT)
             (if Z.land flags SSAM_REQUEST_UNSEQUENCED =? 0
              then BIT SSH_PACKET_TY_SEQUENCED_BIT else 0);
     packet_refcnt := 1;
     packet_data := None;
     state :=
       Z.lor 0 (if negb (Z.land flags SSAM_REQUEST_HAS_RESPONSE =? 0)
                then BIT SSH_REQUEST_TY_HAS_RESPONSE_BIT else 0);
     timestamp := KTIME_MAX |}.

(** *** Shutdown *)

(** Claim loop over the queue: lock, unmark, move to [claimed]. *)
Fixpoint shutdown_claim_queue (l : list rqst_id) : M unit :=
  match l with
  | [] => ret tt
  | r :: n =>
      set_bit SSH_REQUEST_SF_LOCKED_BIT r ;;
      clear_bit SSH_REQUEST_SF_QUEUED_BIT r ;;
      modify (on_rtl (fun l => with_queue_head (list_del r (queue_head l)) l)) ;;
      shutdown_claim_queue n
  end.

(** Claim loop over the pending set; the counter is left alone. *)
Fixpoint shutdown_claim_pending (l : list rqst_id) : M unit :=
  match l with
  | [] => ret tt
  | r :: n =>
      set_bit SSH_REQUEST_SF_LOCKED_BIT r ;;
      clear_bit SSH_REQUEST_SF_PENDING_BIT r ;;
      modify (on_rtl (fun l =>
                with_pending (list_del r (pending_head l))
                             (pending_count l) l)) ;;
      shutdown_claim_pending n
  end.

Fixpoint shutdown_complete (claimed : list rqst_id) : M unit :=
  match claimed with
  | [] => ret tt
  | r :: n =>
      completed <- test_and_set_bit SSH_REQUEST_SF_COMPLETED_BIT r ;;
      (if negb completed
       then ssh_rtl_complete_with_status r (- ESHUTDOWN)
       else ret tt) ;;
      ssh_request_put r ;;
      shutdown_complete n
  end.

(** [cancel_work_sync(&rtl->tx.work)]: the work is taken off the workqueue;
    a transmitter inside [ssh_ptl_submit] is waited for, and [tx_status] is
    what that call returns. *)
Definition cancel_tx_work_sync (tx_status : Z) : M unit :=
  modify (on_rtl (with_tx_work false)) ;;
  cur <- gets tx_rqst ;;
  match cur with
  | Some r =>
      modify (with_tx_rqst None) ;;
      tx_try_process_one_end r tx_status ;;
      ret tt
  | None => ret tt
  end.

(** [ssh_ptl_shutdown]: the packet layer fails the packets [ptl_failed] it
    still holds, each through [ssh_rtl_packet_callback]. *)
Fixpoint ssh_ptl_shutdown (ptl_failed : list rqst_id) : M unit :=
  match ptl_failed with
  | [] => ret tt
  | r :: n =>
      ssh_rtl_packet_callback r (- ESHUTDOWN) 0 ;;
      ssh_ptl_shutdown n
  end.

Definition ssh_rtl_shutdown (tx_status : Z) (ptl_failed : list rqst_id)
  : M unit :=
  modify (on_rtl (fun l =>
            with_rtl_state (Z.setbit (rtl_state l) SSH_RTL_SF_SHUTDOWN_BIT) l)) ;;
  queued <- gets (fun s => queue_head (rtl s)) ;;
  shutdown_claim_queue queued ;;
  cancel_tx_work_sync tx_status ;;
  ssh_ptl_shutdown ptl_failed ;;
  modify (on_rtl (with_reaper None)) ;;
  pending <- pending_count_read ;;
  stragglers <- (if negb (pending =? 0)
                 then l <- gets (fun s => pending_head (rtl s)) ;;
                      shutdown_claim_pending l ;;
                      ret l
                 else ret []) ;;
  shutdown_complete (queued ++ stragglers).

(** *** Flush *)

(** [wait_for_completion*] on the completion of the flush request:
    [ssh_rtl_flush_request_release] has run since [since] calls. *)
Definition flush_released (rqst : rqst_id) (since : nat) : M bool :=
  gets (fun s =>
    existsb (fun c => match c with
                      | Release r => Nat.eqb r rqst
                      | Complete _ _ _ => false
                      end)
            (skipn since (calls s))).

(** [rqst.status]: what [ssh_rtl_flush_request_complete] stored last, or
    whatever the stack held. *)
Definition flush_request_status (rqst : rqst_id) (since : nat) (stack : Z)
  : M Z :=
  gets (fun s =>
    fold_left (fun acc c => match c with
                            | Complete r _ status =>
                                if Nat.eqb r rqst then status else acc
                            | Release _ => acc
                            end)
              (skipn since (calls s)) stack).

(** The request [ssh_rtl_flush] prepares on its stack: initialised as an
    unsequenced request, then marked as a flush in the packet and in the
    request state. *)
Definition flush_request_init : ssh_request :=
  let q := ssh_request_init SSAM_REQUEST_UNSEQUENCED in
  let q := with_packet_state
             (Z.lor (packet_state q) (BIT SSH_PACKET_TY_FLUSH_BIT)) q in
  with_state (Z.lor (state q) (BIT SSH_REQUEST_TY_FLUSH_BIT)) q.

(** [ssh_rtl_flush].  [rqst] is the request on the caller's stack and
    [stack] the initial content of its [status] field; [others1] is what the
    other threads do until the first wait ends (by completion or by the
    timeout), [others2] until the second one ends; [ptl_completes] as in
    [ssh_ptl_cancel]. *)
Definition ssh_rtl_flush (rqst : rqst_id) (stack : Z)
  (others1 : M unit) (ptl_completes : bool) (others2 : M unit) : M Z :=
  modify (on_rqst rqst (fun _ => flush_request_init)) ;;
  since <- gets (fun s => length (calls s)) ;;
  status <- ssh_rtl_submit rqst ;;
  if negb (status =? 0) then ret status else
  ssh_request_put rqst ;;
  others1 ;;
  done <- flush_released rqst since ;;
  if done then ret 0 else
  ssh_rtl_cancel rqst true ptl_completes ;;
  others2 ;;
  done <- flush_released rqst since ;;
  if negb done then oops else
  rqst_status <- flush_request_status rqst since stack ;;
  ret (if rqst_status =? - ECANCELED then - ETIMEDOUT else status).

(** ** The layer among its threads

    One step is one call of a function of the layer by a client, a worker or
    the receiver thread.  The transmitter steps twice per request, before
    and after [ssh_ptl_submit]: other threads run while it is inside the
    packet layer. *)
Inductive op :=
| OpSubmit (r : rqst_id)
| OpPut (r : rqst_id)
| OpCancel (r : rqst_id) (pending : bool) (ptl_completes : bool)
| OpTxBegin
| OpTxEnd (ptl_submit : Z)
| OpPacketCallback (r : rqst_id) (status now : Z)
| OpResponse (command : ssh_command) (command_data : ssam_span)
| OpTimeoutReap (now : Z)
| OpShutdown (tx_status : Z) (ptl_failed : list rqst_id).

Definition step (o : op) : M unit :=
  match o with
  | OpSubmit r => ssh_rtl_submit r ;; ret tt
  | OpPut r => ssh_request_put r
  | OpCancel r pending ptl_completes =>
      ssh_rtl_cancel r pending ptl_completes ;; ret tt
  | OpTxBegin =>
      cur <- gets tx_rqst ;;
      match cur with
      | Some _ => ret tt
      | None =>
          res <- tx_try_process_one_begin ;;
          match res with
          | inl _ => ret tt
          | inr r => modify (with_tx_rqst (Some r))
          end
      end
  | OpTxEnd ptl_submit =>
      cur <- gets tx_rqst ;;
      match cur with
      | Some r =>
          modify (with_tx_rqst None) ;;
          tx_try_process_one_end r ptl_submit ;;
          ret tt
      | None => ret tt
      end
  | OpPacketCallback r status now => ssh_rtl_packet_callback r status now
  | OpResponse command command_data => ssh_rtl_complete command command_data
  | OpTimeoutReap now => ssh_rtl_timeout_reap now
  | OpShutdown tx_status ptl_failed => ssh_rtl_shutdown tx_status ptl_failed
  end.

Fixpoint run (ops : list op) : M unit :=
  match ops with
  | [] => ret tt
  | o :: ops' => step o ;; run ops'
  end.

End RequestLayer.

(** ** Well-formed declarations

    The flag bits are bit numbers of one word and differ pairwise, the type
    mask covers no state flag, and the two request-init flags are different
    bits. *)

Fixpoint distinct_from (x : Z) (l : list Z) : bool :=
  match l with
  | [] => true
  | y :: t => negb (x =? y) && distinct_from x t
  end.

Fixpoint pairwise_distinct (l : list Z) : bool :=
  match l with
  | [] => true
  | x :: t => distinct_from x t && pairwise_distinct t
  end.

Definition state_flag_bits `{ssh_decls} : list Z :=
  [ SSH_REQUEST_SF_LOCKED_BIT; SSH_REQUEST_SF_QUEUED_BIT;
    SSH_REQUEST_SF_PENDING_BIT; SSH_REQUEST_SF_TRANSMITTING_BIT;
    SSH_REQUEST_SF_TRANSMITTED_BIT; SSH_REQUEST_SF_RSPRCVD_BIT;
    SSH_REQUEST_SF_CANCELED_BIT; SSH_REQUEST_SF_COMPLETED_BIT ].

Definition type_flag_bits `{ssh_decls} : list Z :=
  [ SSH_REQUEST_TY_FLUSH_BIT; SSH_REQUEST_TY_HAS_RESPONSE_BIT ].

Definition decls_ok `{ssh_decls} : bool :=
  forallb (fun b => 0 <=? b) (state_flag_bits ++ type_flag_bits)
  && pairwise_distinct (state_flag_bits ++ type_flag_bits)
  && forallb (fun b => negb (Z.testbit SSH_REQUEST_FLAGS_TY_MASK b))
             state_flag_bits
  && (Z.land SSAM_REQUEST_UNSEQUENCED SSAM_REQUEST_HAS_RESPONSE =? 0).

(** The numbering used for the concrete runs below: state flags from bit 0
    in the order of [state_flag_bits], then the two type flags; a tick rate
    of 1000, for which a jiffy is a millisecond. *)
Definition sample_decls : ssh_decls :=
  {| SSH_REQUEST_SF_LOCKED_BIT := 0;
     SSH_REQUEST_SF_QUEUED_BIT := 1;
     SSH_REQUEST_SF_PENDING_BIT := 2;
     SSH_REQUEST_SF_TRANSMITTING_BIT := 3;
     SSH_REQUEST_SF_TRANSMITTED_BIT := 4;
     SSH_REQUEST_SF_RSPRCVD_BIT := 5;
     SSH_REQUEST_SF_CANCELED_BIT := 6;
     SSH_REQUEST_SF_COMPLETED_BIT := 7;
     SSH_REQUEST_TY_FLUSH_BIT := 8;
     SSH_REQUEST_TY_HAS_RESPONSE_BIT := 9;
     SSH_REQUEST_FLAGS_TY_MASK := 768;
     SSH_PACKET_TY_FLUSH_BIT := 8;
     SSH_PACKET_TY_SEQUENCED_BIT := 9;
     SSH_PACKET_TY_BLOCKING_BIT := 10;
     SSAM_REQUEST_HAS_RESPONSE := 1;
     SSAM_REQUEST_UNSEQUENCED := 2;
     HZ := 1000;
     msecs_to_jiffies := fun m => m |}.

(** How a client has prepared a request before it hands it to the layer:
    [ssh_request_init] with some flags and a message, or the flush request
    of [ssh_rtl_flush]. *)
Inductive setup :=
| Plain (flags : Z) (data : option Z)
| Flush.

Definition setup_request `{ssh_decls} (u : setup) : ssh_request :=
  match u with
  | Plain flags data => with_packet_data data (ssh_request_init flags)
  | Flush => flush_request_init
  end.

(** A system right after [ssh_rtl_init], with every request prepared. *)
Definition boot `{ssh_decls} (u : rqst_id -> setup) : sys :=
  {| rtl := ssh_rtl_init;
     mem := fun r => setup_request (u r);
     calls := [];
     tx_rqst := None |}.

(** The completions of request [r] among the calls made so far. *)
Definition completions (r : rqst_id) (cs : list call) : list call :=
  filter (fun c => match c with
                   | Complete r' _ _ => Nat.eqb r' r
                   | Release _ => false
                   end) cs.

(** Propositional reading of [decls_ok]. *)
Fixpoint all_nonneg (l : list Z) : Prop :=
  match l with
  | [] => True
  | x :: t => 0 <= x /\ all_nonneg t
  end.

Fixpoint all_differ_from (x : Z) (l : list Z) : Prop :=
  match l with
  | [] => True
  | y :: t => x <> y /\ all_differ_from x t
  end.

Fixpoint all_differ (l : list Z) : Prop :=
  match l with
  | [] => True
  | x :: t => all_differ_from x t /\ all_differ t
  end.

Fixpoint none_in_mask (m : Z) (l : list Z) : Prop :=
  match l with
  | [] => True
  | x :: t => Z.testbit m x = false /\ none_in_mask m t
  end.

(** Two systems with the same content. *)
Definition same_sys (s s' : sys) : Prop :=
  rtl s = rtl s' /\ (forall r, mem s r = mem s' r)
  /\ calls s = calls s' /\ tx_rqst s = tx_rqst s'.

(** The reading of C7 by which a flush request that is in the pending set
    keeps every later request in the queue. *)
Definition pending_flush_blocks_dequeues `{ssh_decls} : Prop :=
  forall u ops s f,
    run ops (boot u) = Some (tt, s) ->
    In f (pending_head (rtl s)) ->
    Z.testbit (state (mem s f)) SSH_REQUEST_TY_FLUSH_BIT = true ->
    forall v s', ssh_rtl_tx_next s = Some (v, s') -> exists e, v = inl e.

(** The floor in milliseconds, [max(2000 / HZ, 50)]. *)
Definition resolution_ms `{ssh_decls} : Z := Z.max (Z.quot 2000 HZ) 50.

(** C8 as the specification words it, in two parts: the stored expiration is
    lowered to the new one whenever the new one is earlier ... *)
Definition reaper_mod_lowers_when_earlier `{ssh_decls} : Prop :=
  forall now expires s s',
    0 <= now <= expires ->
    expires + SSH_RTL_REQUEST_TIMEOUT_RESOLUTION <= KTIME_MAX ->
    expires < rtx_timeout_expires (rtl s) ->
    ssh_rtl_timeout_reaper_mod now expires s = Some (tt, s') ->
    rtx_timeout_expires (rtl s') = expires.

(** ... and when it has been lowered the work is rescheduled for the delta
    with the floor added to it. *)
Definition reaper_mod_adds_floor_to_delta `{ssh_decls} : Prop :=
  forall now expires s s',
    0 <= now <= expires ->
    expires + SSH_RTL_REQUEST_TIMEOUT_RESOLUTION <= KTIME_MAX ->
    ssh_rtl_timeout_reaper_mod now expires s = Some (tt, s') ->
    rtx_timeout_expires (rtl s') = expires ->
    rtx_timeout_expires (rtl s) <> expires ->
    rtx_timeout_reaper (rtl s') =
      Some (msecs_to_jiffies (ktime_ms_delta expires now + resolution_ms)).

(** Membership test on request lists. *)
Definition inb (r : rqst_id) (l : list rqst_id) : bool := existsb (Nat.eqb r) l.

(** The test the reaper applies to a pending request: its expiration is not
    after [now], and LOCKED is still clear. *)
Definition reap_claims `{ssh_decls} (now timeout : Z) (s : sys) (r : rqst_id)
  : bool :=
  negb (ktime_after (ssh_request_get_expiration (mem s r) timeout) now)
  && negb (Z.testbit (state (mem s r)) SSH_REQUEST_SF_LOCKED_BIT).

(** ** Specifications of computations

    [wp m Q s]: if [m] returns from [s], the result and the state it leaves
    satisfy [Q]; [wpt m Q s]: [m] returns from [s], and they do. *)
Definition wp {A} (m : M A) (Q : A -> sys -> Prop) (s : sys) : Prop :=
  match m s with
  | Some (a, s') => Q a s'
  | None => True
  end.

Definition wpt {A} (m : M A) (Q : A -> sys -> Prop) (s : sys) : Prop :=
  match m s with
  | Some (a, s') => Q a s'
  | None => False
  end.

(** The pending window: a request marked PENDING is linked in the pending
    list, the list is no longer than the counter says, and the counter does
    not exceed SSH_RTL_MAX_PENDING. *)
Definition pending_window `{ssh_decls} (s : sys) : Prop :=
  (forall r, Z.testbit (state (mem s r)) SSH_REQUEST_SF_PENDING_BIT = true ->
             In r (pending_head (rtl s)))
  /\ Z.of_nat (length (pending_head (rtl s))) <= pending_count (rtl s)
  /\ pending_count (rtl s) <= SSH_RTL_MAX_PENDING.

(** The state a computation leaves, and whether it returns. *)
Definition after {A} (m : M A) (s : sys) : sys :=
  match m s with
  | Some (_, s') => s'
  | None => s
  end.

Definition returns {A} (m : M A) (s : sys) : Prop :=
  exists a s', m s = Some (a, s').

(** The result of a computation, without the state it leaves. *)
Definition result {A} (m : M A) (s : sys) : option A :=
  match m s with
  | Some (a, _) => Some a
  | None => None
  end.

(** The packet of request [r] is bound to the layer, or is not. *)
Definition ptl_is (r : rqst_id) (b : bool) (s : sys) : Prop :=
  packet_ptl (mem s r) = b.

(** Flag [nr] of request [r] is set. *)
Definition flag_set (r : rqst_id) (nr : Z) (s : sys) : Prop :=
  Z.testbit (state (mem s r)) nr = true.

(** The flags no function of the layer clears: the bits of the state word
    other than QUEUED, PENDING and TRANSMITTING that are no type flags. *)
Definition sticky_flag `{ssh_decls} (nr : Z) : Prop :=
  0 <= nr
  /\ nr <> SSH_REQUEST_SF_QUEUED_BIT
  /\ nr <> SSH_REQUEST_SF_PENDING_BIT
  /\ nr <> SSH_REQUEST_SF_TRANSMITTING_BIT
  /\ Z.testbit SSH_REQUEST_FLAGS_TY_MASK nr = false.

(** A flush that reports the shutdown: when the flush request has been
    completed with -ESHUTDOWN, that is, the layer has been shut down before
    the flush completed, [ssh_rtl_flush] returns -ESHUTDOWN. *)
Definition flush_reports_shutdown `{ssh_decls} : Prop :=
  forall rqst stack others1 ptl_completes others2 s v s',
    ssh_rtl_flush rqst stack others1 ptl_completes others2 s = Some (v, s') ->
    Z.testbit (rtl_state (rtl s')) SSH_RTL_SF_SHUTDOWN_BIT = true ->
    In (Complete rqst None (- ESHUTDOWN)) (calls s') ->
    v = - ESHUTDOWN.

(** ** Sample systems

    Concrete systems over [sample_decls] for the runs at the end: request 1
    is a flush request, every other request [r] expects a response and
    carries the request id [r]. *)
Definition sample_setup (r : rqst_id) : setup :=
  match r with
  | 1%nat => Flush
  | _ => Plain (@SSAM_REQUEST_HAS_RESPONSE sample_decls) (Some (Z.of_nat r))
  end.

Definition sample_boot : sys := @boot sample_decls sample_setup.

Definition sample_run (ops : list op) (s : sys) : sys :=
  after (@run sample_decls ops) s.

(** Request 0 has been submitted. *)
Definition sample_queued : sys := sample_run [OpSubmit 0%nat] sample_boot.

(** Request 0 has been handed to the packet layer and is pending. *)
Definition sample_pending : sys :=
  sample_run [OpTxBegin; OpTxEnd 0] sample_queued.

(** The packet of request 0 has been acknowledged at time 1000: the request
    waits for its response. *)
Definition sample_waiting : sys :=
  sample_run [OpPacketCallback 0%nat 0 1000] sample_pending.

(** Request 0 is pending; the flush request 1 and then request 2 wait in the
    queue. *)
Definition sample_flush_queued : sys :=
  sample_run [OpSubmit 1%nat; OpSubmit 2%nat] sample_pending.

(** The flush request 1 is pending and request 0 waits in the queue. *)
Definition sample_flush_pending_ops : list op :=
  [OpSubmit 1%nat; OpTxBegin; OpTxEnd 0; OpSubmit 0%nat].

(** Four requests are submitted and the transmitter is run four times. *)
Definition sample_busy_ops : list op :=
  [OpSubmit 0%nat; OpSubmit 2%nat; OpSubmit 3%nat; OpSubmit 4%nat;
   OpTxBegin; OpTxEnd 0; OpTxBegin; OpTxEnd 0;
   OpTxBegin; OpTxEnd 0; OpTxBegin; OpTxEnd 0].

(** Request 0 is cancelled while the transmitter is inside the packet
    layer, which then refuses the packet because it has been shut down. *)
Definition sample_twice_ops : list op :=
  [OpSubmit 0%nat; OpTxBegin; OpCancel 0%nat true false;
   OpTxEnd (- ESHUTDOWN)].

(** The stored expiration is 100 ms. *)
Definition sample_armed : sys :=
  on_rtl (with_expires 100000000) sample_boot.

(** A flush on the sample layer while nothing else happens, and one during
    which the layer is shut down. *)
Notation sample_flush :=
  (@ssh_rtl_flush sample_decls 5%nat 0 (ret tt) false (ret tt)).

Notation sample_flush_shutdown :=
  (@ssh_rtl_flush sample_decls 5%nat 0 (@ssh_rtl_shutdown sample_decls 0 [])
     false (ret tt)).

(** A flush whose packet the packet layer fails, with -ESHUTDOWN or with
    -EINTR, while the transmitter is still inside [ssh_ptl_submit]: the
    request is completed at once and released only after the timeout, when
    the layer is shut down or when the transmitter returns. *)
Notation sample_flush_late_shutdown :=
  (@ssh_rtl_flush sample_decls 5%nat 0
     (@run sample_decls [OpTxBegin; OpPacketCallback 5%nat (- ESHUTDOWN) 0])
     false (@ssh_rtl_shutdown sample_decls 0 [])).

Notation sample_flush_interrupted :=
  (@ssh_rtl_flush sample_decls 5%nat 0
     (@run sample_decls [OpTxBegin; OpPacketCallback 5%nat (- EINTR) 0])
     false (@run sample_decls [OpTxEnd 0])).

(** Request 0 is cancelled while pending; later the reaper runs. *)
Definition sample_cancelled : sys :=
  after (@ssh_rtl_cancel sample_decls 0%nat true false) sample_pending.

Definition sample_reaped : sys :=
  sample_run [OpTimeoutReap 5] sample_cancelled.

(** Request [r] has been completed at most once, and not at all unless its
    COMPLETED flag is set. *)
Definition completed_once `{ssh_decls} (r : rqst_id) (s : sys) : Prop :=
  (Z.testbit (state (mem s r)) SSH_REQUEST_SF_COMPLETED_BIT = false ->
   completions r (calls s) = [])
  /\ (length (completions r (calls s)) <= 1)%nat.

(** From [s] to [s'] no request has been completed and no COMPLETED flag
    has changed. *)
Definition same_completion `{ssh_decls} (s s' : sys) : Prop :=
  (forall r, completions r (calls s') = completions r (calls s))
  /\ (forall r, Z.testbit (state (mem s' r)) SSH_REQUEST_SF_COMPLETED_BIT
                = Z.testbit (state (mem s r)) SSH_REQUEST_SF_COMPLETED_BIT).

(** In this step the packet layer does not refuse a packet with
    -ESHUTDOWN. *)
Definition op_no_ptl_shutdown (o : op) : bool :=
  match o with
  | OpTxEnd ptl_submit => negb (ptl_submit =? - ESHUTDOWN)
  | OpShutdown tx_status _ => negb (tx_status =? - ESHUTDOWN)
  | _ => true
  end.

Definition no_ptl_shutdown (ops : list op) : bool :=
  forallb op_no_ptl_shutdown ops.

(** The layer has been shut down and its queue is empty. *)
Definition shut_down `{ssh_decls} (s : sys) : Prop :=
  Z.testbit (rtl_state (rtl s)) SSH_RTL_SF_SHUTDOWN_BIT = true
  /\ queue_head (rtl s) = [].

(** The layer has been shut down, and its queue and its pending set are
    empty. *)
Definition drained `{ssh_decls} (s : sys) : Prop :=
  shut_down s /\ pending_head (rtl s) = [].

(** The four requests of [sample_busy_ops] have gone through the
    transmitter; then the layer is shut down and the packet layer fails the
    packets it holds. *)
Definition sample_busy : sys := sample_run sample_busy_ops sample_boot.

Definition sample_shut : sys :=
  after (@ssh_rtl_shutdown sample_decls 0 [0%nat; 2%nat; 3%nat]) sample_busy.

(** The flush request 1 is pending. *)
Definition sample_flush_pending : sys :=
  sample_run sample_flush_pending_ops sample_boot.

(** A cancellation of the pending request 0 has set COMPLETED and has not
    yet unlinked the request. *)
Definition sample_completing : sys :=
  on_rqst 0%nat
    (fun q => with_state
                (Z.setbit (state q) (@SSH_REQUEST_SF_COMPLETED_BIT sample_decls))
                q)
    sample_pending.

(** Request 0 is cancelled inside the transmitter, which then succeeds. *)
Definition sample_once_ops : list op :=
  [OpSubmit 0%nat; OpTxBegin; OpCancel 0%nat true false; OpTxEnd 0;
   OpResponse {| rqid := 0 |} []; OpTimeoutReap 5].

(** Whether the request carries a message: its [packet.data.ptr] is not
    NULL. *)
Definition has_message (q : ssh_request) : bool :=
  match packet_data q with
  | Some _ => true
  | None => false
  end.

(** Requests 0 and 2 are pending and wait for their responses: the packet of
    request 0 has been acknowledged at time 1000, the one of request 2 two
    seconds later. *)
Definition sample_waiting_two : sys :=
  sample_run [OpSubmit 0%nat; OpSubmit 2%nat; OpTxBegin; OpTxEnd 0;
              OpTxBegin; OpTxEnd 0; OpPacketCallback 0%nat 0 1000;
              OpPacketCallback 2%nat 0 2000000000]
    sample_boot.

(** * Properties *)

Section Properties.

Context {K : ssh_decls}.
Hypothesis Hdecls : decls_ok = true.

Lemma all_nonneg_sound l :
  forallb (fun b => 0 <=? b) l = true -> all_nonneg l.
Proof.
  induction l as [|x t IH]; simpl; [easy|].
  rewrite andb_true_iff, Z.leb_le. intros [? ?]. auto.
Qed.

Lemma all_differ_from_sound x l :
  distinct_from x l = true -> all_differ_from x l.
Proof.
  induction l as [|y t IH]; simpl; [easy|].
  rewrite andb_true_iff, negb_true_iff, Z.eqb_neq. intros [? ?]. auto.
Qed.

Lemma all_differ_sound l : pairwise_distinct l = true -> all_differ l.
Proof.
  induction l as [|x t IH]; simpl; [easy|].
  rewrite andb_true_iff. intros [? ?]. auto using all_differ_from_sound.
Qed.

Lemma none_in_mask_sound m l :
  forallb (fun b => negb (Z.testbit m b)) l = true -> none_in_mask m l.
Proof.
  induction l as [|x t IH]; simpl; [easy|].
  rewrite andb_true_iff, negb_true_iff. intros [? ?]. auto.
Qed.

Lemma decls_props :
  all_nonneg (state_flag_bits ++ type_flag_bits)
  /\ all_differ (state_flag_bits ++ type_flag_bits)
  /\ none_in_mask SSH_REQUEST_FLAGS_TY_MASK state_flag_bits
  /\ Z.land SSAM_REQUEST_UNSEQUENCED SSAM_REQUEST_HAS_RESPONSE = 0.
Proof.
  pose proof Hdecls as H. unfold decls_ok in H.
  rewrite !andb_true_iff, Z.eqb_eq in H.
  destruct H as [[[H1 H2] H3] H4].
  auto using all_nonneg_sound, all_differ_sound, none_in_mask_sound.
Qed.

Ltac split_hyp H :=
  lazymatch type of H with
  | _ /\ _ =>
      let H1 := fresh "Hd" in
      let H2 := fresh "Hd" in
      destruct H as [H1 H2]; split_hyp H1; split_hyp H2
  | True => clear H
  | _ => idtac
  end.

Ltac decls :=
  let H := fresh "Hd" in
  pose proof decls_props as H; cbn in H; split_hyp H.

(** *** Bits of a state word *)

Lemma testbit_setbit_same w nr : 0 <= nr -> Z.testbit (Z.setbit w nr) nr = true.
Proof. intros. now apply Z.setbit_eq. Qed.

Lemma testbit_setbit_other w nr nr' :
  0 <= nr -> nr <> nr' -> Z.testbit (Z.setbit w nr) nr' = Z.testbit w nr'.
Proof. intros. now apply Z.setbit_neq. Qed.

Lemma testbit_clearbit_same w nr : Z.testbit (Z.clearbit w nr) nr = false.
Proof. apply Z.clearbit_eq. Qed.

Lemma testbit_clearbit_other w nr nr' :
  nr <> nr' -> Z.testbit (Z.clearbit w nr) nr' = Z.testbit w nr'.
Proof. intros. now apply Z.clearbit_neq. Qed.

(** [lia] without the pairwise distinctness of the flag bits in sight. *)
Ltac zlia :=
  repeat match goal with
         | H : _ <> _ |- _ => clear H
         end;
  lia.

Ltac bit_side := solve [assumption | apply not_eq_sym; assumption].

Ltac bits :=
  repeat first
    [ rewrite testbit_setbit_same by bit_side
    | rewrite testbit_clearbit_same
    | rewrite testbit_setbit_other by bit_side
    | rewrite testbit_clearbit_other by bit_side ].

Lemma mem_on_rqst_same r f s : mem (on_rqst r f s) r = f (mem s r).
Proof. cbn. now rewrite Nat.eqb_refl. Qed.

Ltac ssimp :=
  repeat first
    [ progress cbn [rtl mem calls tx_rqst on_rtl record_call
                    with_tx_rqst packet_ptl packet_state packet_refcnt
                    packet_data state timestamp with_packet_ptl
                    with_packet_data
                    with_packet_state with_packet_refcnt with_state
                    with_timestamp rtl_state queue_head pending_head
                    pending_count tx_work rtx_timeout_timeout
                    rtx_timeout_expires rtx_timeout_reaper with_rtl_state
                    with_queue_head with_pending with_tx_work with_expires
                    with_reaper fst snd negb andb orb]
    | progress cbn [rtl calls tx_rqst on_rqst]
    | rewrite mem_on_rqst_same
    | progress cbn [mem on_rqst]
    | rewrite Nat.eqb_refl ].

Ltac mcase :=
  match goal with
  | |- context [if ?b then _ else _] =>
      lazymatch b with
      | context [if _ then _ else _] => fail
      | context [match _ with _ => _ end] => fail
      | _ => destruct b eqn:?
      end
  end; try discriminate; cbv beta iota; ssimp.

Ltac mred :=
  cbv beta iota delta
    [bind ret gets modify oops test_bit set_bit clear_bit test_and_set_bit
     test_and_clear_bit cmpxchg_state rqst_state pending_count_read
     ssh_request_rtl deref_rtl ssh_request_get ssh_request_put
     ssh_request_get_rqid ssh_rtl_complete_with_status
     ssh_rtl_complete_with_rsp ssh_rtl_queue_empty].

(** *** Submission *)

(** C3.  [ssh_rtl_submit] always returns, and its result is decided by the
    first test that applies, in this order: a response is expected but the
    packet is not sequenced (-EINVAL, nothing changed), the packet is already
    bound to a layer (-EALREADY, nothing changed), the layer is shut down
    (-ESHUTDOWN), the request is locked (-EINVAL); otherwise 0, with QUEUED
    set and the request appended to the queue. *)
Theorem ssh_rtl_submit_result (rqst : rqst_id) (s : sys) :
  exists v s',
    ssh_rtl_submit rqst s = Some (v, s') /\
    let q := mem s rqst in
    if Z.testbit (state q) SSH_REQUEST_TY_HAS_RESPONSE_BIT
       && negb (Z.testbit (packet_state q) SSH_PACKET_TY_SEQUENCED_BIT)
    then v = - EINVAL /\ s' = s
    else if packet_ptl q
    then v = - EALREADY /\ s' = s
    else if Z.testbit (rtl_state (rtl s)) SSH_RTL_SF_SHUTDOWN_BIT
    then v = - ESHUTDOWN
         /\ queue_head (rtl s') = queue_head (rtl s)
         /\ state (mem s' rqst) = state q
    else if Z.testbit (state q) SSH_REQUEST_SF_LOCKED_BIT
    then v = - EINVAL
         /\ queue_head (rtl s') = queue_head (rtl s)
         /\ state (mem s' rqst) = state q
    else v = 0
         /\ state (mem s' rqst) = Z.setbit (state q) SSH_REQUEST_SF_QUEUED_BIT
         /\ Z.testbit (state (mem s' rqst)) SSH_REQUEST_SF_QUEUED_BIT = true
         /\ queue_head (rtl s') = queue_head (rtl s) ++ [rqst].
Proof.
  decls. unfold ssh_rtl_submit, ssh_rtl_tx_schedule. mred. ssimp.
  repeat mcase;
    try (do 2 eexists; split; [reflexivity|]; ssimp; bits; auto).
Qed.


Lemma setbit_already w nr : 0 <= nr -> Z.testbit w nr = true -> Z.setbit w nr = w.
Proof.
  intros Hnr Hw. apply Z.bits_inj'. intros n Hn.
  destruct (Z.eq_dec nr n) as [->|Hne].
  - now rewrite Z.setbit_eq.
  - now rewrite Z.setbit_neq.
Qed.

Lemma with_state_same q : with_state (state q) q = q.
Proof. now destruct q. Qed.

Lemma canceled_not_fixed w :
  Z.testbit w SSH_REQUEST_SF_CANCELED_BIT = true ->
  (w =? Z.land w SSH_REQUEST_FLAGS_TY_MASK) = false.
Proof.
  intros Hw. decls. apply Z.eqb_neq. intros E.
  assert (Hb : Z.testbit (Z.land w SSH_REQUEST_FLAGS_TY_MASK)
                 SSH_REQUEST_SF_CANCELED_BIT = true) by now rewrite <- E.
  rewrite Z.land_spec in Hb. apply andb_true_iff in Hb. destruct Hb. congruence.
Qed.

Lemma testbit_nonzero w nr : Z.testbit w nr = true -> (w =? 0) = false.
Proof.
  intros Hw. apply Z.eqb_neq. intros ->. now rewrite Z.bits_0 in Hw.
Qed.

Lemma mem_on_rqst_other r r' f s : r' <> r -> mem (on_rqst r f s) r' = mem s r'.
Proof. intros H. cbn. apply Nat.eqb_neq in H. now rewrite H. Qed.

(** *** Reasoning about computations *)

Lemma wpt_wp {A} (m : M A) Q s : wpt m Q s -> wp m Q s.
Proof. unfold wpt, wp. destruct (m s) as [[a s']|]; tauto. Qed.

Lemma wp_mono {A} (m : M A) (Q Q' : A -> sys -> Prop) s :
  (forall a s', Q a s' -> Q' a s') -> wp m Q s -> wp m Q' s.
Proof. unfold wp. destruct (m s) as [[a s']|]; auto. Qed.

Lemma wpt_mono {A} (m : M A) (Q Q' : A -> sys -> Prop) s :
  (forall a s', Q a s' -> Q' a s') -> wpt m Q s -> wpt m Q' s.
Proof. unfold wpt. destruct (m s) as [[a s']|]; auto. Qed.

Lemma wp_bind {A B} (m : M A) (f : A -> M B) Q s :
  wp m (fun a s' => wp (f a) Q s') s -> wp (bind m f) Q s.
Proof. unfold wp, bind. destruct (m s) as [[a s']|]; auto. Qed.

Lemma wpt_bind {A B} (m : M A) (f : A -> M B) Q s :
  wpt m (fun a s' => wpt (f a) Q s') s -> wpt (bind m f) Q s.
Proof. unfold wpt, bind. destruct (m s) as [[a s']|]; auto. Qed.

Lemma wp_ret {A} (a : A) (Q : A -> sys -> Prop) s : Q a s -> wp (ret a) Q s.
Proof. auto. Qed.

Lemma wp_gets {A} (f : sys -> A) (Q : A -> sys -> Prop) s :
  Q (f s) s -> wp (gets f) Q s.
Proof. auto. Qed.

Lemma wp_modify (f : sys -> sys) (Q : unit -> sys -> Prop) s :
  Q tt (f s) -> wp (modify f) Q s.
Proof. auto. Qed.

Lemma wp_returned {A} (m : M A) Q s a s' :
  wp m Q s -> m s = Some (a, s') -> Q a s'.
Proof. unfold wp. intros H E. now rewrite E in H. Qed.

Lemma wpt_returns {A} (m : M A) Q s :
  wpt m Q s -> exists a s', m s = Some (a, s') /\ Q a s'.
Proof. unfold wpt. destruct (m s) as [[a s']|]; [eauto|tauto]. Qed.

(** Use the specification [H] of the call at the head of the goal. *)
Ltac wp_call H :=
  let H' := fresh "Hcall" in
  pose proof H as H'; unfold wp, wpt in H';
  match type of H' with
  | match ?c with _ => _ end =>
      let a := fresh "a" in
      let s := fresh "s" in
      destruct c as [[a s]|]; [|try exact I; try contradiction]
  end; cbv beta iota; ssimp.

(** *** The pending window is kept *)

(** The window only depends on the pending list, the counter and the
    PENDING bits. *)
Lemma pending_window_ext s s' :
  pending_head (rtl s') = pending_head (rtl s) ->
  pending_count (rtl s') = pending_count (rtl s) ->
  (forall r, Z.testbit (state (mem s' r)) SSH_REQUEST_SF_PENDING_BIT = true ->
             Z.testbit (state (mem s r)) SSH_REQUEST_SF_PENDING_BIT = true) ->
  pending_window s -> pending_window s'.
Proof.
  intros Hh Hc Hb (H1 & H2 & H3). unfold pending_window.
  rewrite Hh, Hc. auto.
Qed.

(** Discharge a frame condition on the bits of every request. *)
Ltac frame_bits :=
  let r := fresh "r" in
  intros r; ssimp;
  repeat match goal with
         | |- context [Nat.eqb r ?x] => destruct (Nat.eqb r x) eqn:?
         end;
  ssimp; bits; auto; try (intros; discriminate).

Ltac window :=
  solve
    [ assumption
    | match goal with
      | H : pending_window ?s0 |- pending_window ?s1 =>
          apply (pending_window_ext s0 s1);
          [ssimp; reflexivity | ssimp; reflexivity | frame_bits | exact H]
      end ].

Lemma list_del_length r l :
  In r l -> Z.of_nat (length (list_del r l)) = Z.of_nat (length l) - 1.
Proof.
  induction l as [|x l IH]; cbn [list_del length In]; [tauto|].
  intros Hin. destruct (Nat.eqb x r) eqn:E.
  - lia.
  - apply Nat.eqb_neq in E. destruct Hin as [->|Hin]; [congruence|].
    cbn [length]. rewrite !Nat2Z.inj_succ in *. rewrite IH by assumption. lia.
Qed.

Lemma list_del_length_le r l :
  Z.of_nat (length (list_del r l)) <= Z.of_nat (length l).
Proof.
  induction l as [|x l IH]; cbn [list_del length]; [lia|].
  destruct (Nat.eqb x r); cbn [length]; lia.
Qed.

Lemma list_del_In_other r x l : x <> r -> In x l -> In x (list_del r l).
Proof.
  intros Hne. induction l as [|y l IH]; cbn [list_del In]; [tauto|].
  intros [->|Hin].
  - apply Nat.eqb_neq in Hne. rewrite Hne. now left.
  - destruct (Nat.eqb y r); [assumption|]. right. auto.
Qed.

Lemma list_del_In r x l : In x (list_del r l) -> In x l.
Proof.
  induction l as [|y l IH]; cbn [list_del In]; [tauto|].
  destruct (Nat.eqb y r); cbn [In]; tauto.
Qed.

(** A suffix of the list stays one when an element before it is unlinked. *)
Lemma list_del_suffix r pre tl :
  exists pre', list_del r (pre ++ r :: tl) = pre' ++ tl.
Proof.
  induction pre as [|x pre IH]; cbn [app list_del].
  - rewrite Nat.eqb_refl. now exists [].
  - destruct (Nat.eqb x r).
    + exists (pre ++ [r]). now rewrite <- app_assoc.
    + destruct IH as (pre' & ->). now exists (x :: pre').
Qed.

(** Unlinking a request of the pending list, with the counter decremented
    or left alone, keeps the window as long as PENDING is clear for it
    afterwards. *)
Lemma pending_window_unlink s s' r :
  pending_window s ->
  In r (pending_head (rtl s)) ->
  pending_head (rtl s') = list_del r (pending_head (rtl s)) ->
  pending_count (rtl s') = pending_count (rtl s) - 1
  \/ pending_count (rtl s') = pending_count (rtl s) ->
  (forall r', Z.testbit (state (mem s' r')) SSH_REQUEST_SF_PENDING_BIT = true ->
     Z.testbit (state (mem s r')) SSH_REQUEST_SF_PENDING_BIT = true
     /\ r' <> r) ->
  pending_window s'.
Proof.
  intros (H1 & H2 & H3) Hin Hh Hc Hb. unfold pending_window.
  rewrite Hh. pose proof (list_del_length r _ Hin) as Hl.
  repeat split.
  - intros r' Hr'. destruct (Hb r' Hr') as [Hp Hne].
    apply list_del_In_other; auto.
  - destruct Hc as [-> | ->]; lia.
  - destruct Hc as [-> | ->]; lia.
Qed.

(** Frame condition in which the bit has been cleared for [r]. *)
Ltac frame_bits_cleared :=
  let r := fresh "r" in
  let E := fresh "E" in
  intros r; ssimp;
  repeat match goal with
         | |- context [Nat.eqb r ?x] => destruct (Nat.eqb r x) eqn:E;
             [apply Nat.eqb_eq in E; try subst r
             |apply Nat.eqb_neq in E]
         end;
  ssimp; bits; try discriminate; auto.

(** Symbolic execution of a computation under [wp]: primitive steps are
    computed, branches are split, and a call is replaced by what the hint
    database [rtl_spec] knows about it. *)
Create HintDb rtl_spec.

Ltac wp_unfold_prim :=
  unfold test_and_set_bit, test_and_clear_bit, test_bit, set_bit, clear_bit,
    rqst_state, pending_count_read, ssh_request_rtl, deref_rtl,
    ssh_request_get, ssh_rtl_complete_with_status, ssh_rtl_complete_with_rsp,
    ssh_rtl_queue_empty, cmpxchg_state, cmpxchg64_expires,
    ssh_request_get_rqid.

Ltac wp_step_with solver :=
  lazymatch goal with
  | |- wp (bind _ _) _ _ => apply wp_bind
  | |- wp (ret _) _ _ => apply wp_ret
  | |- wp (gets _) _ _ => apply wp_gets
  | |- wp (modify _) _ _ => apply wp_modify
  | |- wp oops _ _ => exact I
  | |- wp (if ?b then _ else _) _ _ => destruct b eqn:?
  | |- wp (match ?x with _ => _ end) _ _ => destruct x eqn:?
  | |- wp (test_and_set_bit _ _) _ _ => unfold test_and_set_bit
  | |- wp (test_and_clear_bit _ _) _ _ => unfold test_and_clear_bit
  | |- wp (test_bit _ _) _ _ => unfold test_bit
  | |- wp (set_bit _ _) _ _ => unfold set_bit
  | |- wp (clear_bit _ _) _ _ => unfold clear_bit
  | |- wp (rqst_state _) _ _ => unfold rqst_state
  | |- wp pending_count_read _ _ => unfold pending_count_read
  | |- wp (ssh_request_rtl _) _ _ => unfold ssh_request_rtl
  | |- wp (deref_rtl _) _ _ => unfold deref_rtl
  | |- wp (ssh_request_get _) _ _ => unfold ssh_request_get
  | |- wp (ssh_rtl_complete_with_status _ _) _ _ =>
      unfold ssh_rtl_complete_with_status
  | |- wp (ssh_rtl_complete_with_rsp _ _ _) _ _ =>
      unfold ssh_rtl_complete_with_rsp
  | |- wp ssh_rtl_queue_empty _ _ => unfold ssh_rtl_queue_empty
  | |- wp (cmpxchg_state _ _ _) _ _ => unfold cmpxchg_state
  | |- wp (cmpxchg64_expires _ _) _ _ => unfold cmpxchg64_expires
  | |- wp (ssh_request_get_rqid _) _ _ => unfold ssh_request_get_rqid
  | |- wp _ _ _ =>
      eapply wp_mono; [intros ? ? ? | solve [solver]]
  end; cbv beta iota; cbv beta in *; ssimp;
  repeat match goal with
         | H : _ /\ _ |- _ => destruct H
         end;
  subst.

Ltac wp_step := wp_step_with ltac:(eauto with rtl_spec).

Ltac wp_run := repeat wp_step.

#[local] Hint Extern 1 (pending_window _) => window : rtl_spec.

Lemma window_put r s :
  pending_window s -> wp (ssh_request_put r) (fun _ => pending_window) s.
Proof.
  intros Hw. decls. unfold ssh_request_put. wp_run; window.
Qed.
#[local] Hint Resolve window_put : rtl_spec.

Lemma window_tx_schedule s :
  pending_window s -> wp ssh_rtl_tx_schedule (fun _ => pending_window) s.
Proof.
  intros Hw. decls. unfold ssh_rtl_tx_schedule. wp_run; window.
Qed.
#[local] Hint Resolve window_tx_schedule : rtl_spec.

Lemma window_queue_remove r s :
  pending_window s -> wp (ssh_rtl_queue_remove r) (fun _ => pending_window) s.
Proof.
  intros Hw. decls. unfold ssh_rtl_queue_remove. wp_run; window.
Qed.
#[local] Hint Resolve window_queue_remove : rtl_spec.

Lemma window_pending_remove r s :
  pending_window s ->
  wp (ssh_rtl_pending_remove r) (fun _ => pending_window) s.
Proof.
  intros Hw. decls. unfold ssh_rtl_pending_remove.
  wp_run; try window.
  assert (Hin : In r (pending_head (rtl s))) by now apply Hw.
  match goal with
  | |- wp _ _ ?S => assert (pending_window S)
  end.
  { apply (pending_window_unlink s _ r Hw Hin);
      [ssimp; reflexivity | left; ssimp; reflexivity | frame_bits_cleared]. }
  wp_run; window.
Qed.
#[local] Hint Resolve window_pending_remove : rtl_spec.

Lemma window_tx_pending_push r s :
  pending_window s ->
  pending_count (rtl s) < SSH_RTL_MAX_PENDING ->
  wp (ssh_rtl_tx_pending_push r) (fun _ => pending_window) s.
Proof.
  intros Hw Hlt. unfold ssh_rtl_tx_pending_push. wp_run; try assumption.
  - apply (pending_window_ext s _); try reflexivity; try assumption.
    intros r'. cbn [mem on_rqst].
    destruct (Nat.eqb r' r) eqn:E; [|auto].
    apply Nat.eqb_eq in E. now subst.
  - destruct Hw as (Hw1 & Hw2 & Hw3). unfold pending_window. ssimp.
    rewrite length_app. cbn [length]. repeat split; try lia.
    intros r'. cbn [mem on_rqst]. rewrite in_app_iff.
    destruct (Nat.eqb r' r) eqn:E; ssimp.
    + apply Nat.eqb_eq in E. subst. intros _. right. now left.
    + intros Hr'. left. auto.
Qed.

Lemma tx_can_process_spec p s :
  wp (ssh_rtl_tx_can_process p)
     (fun ok s' => s' = s
                   /\ (ok = true -> pending_count (rtl s) < SSH_RTL_MAX_PENDING))
     s.
Proof.
  unfold ssh_rtl_tx_can_process. wp_run; (split; [reflexivity|]).
  - intros E. apply Z.eqb_eq in E. rewrite E. reflexivity.
  - intros E. now apply Z.ltb_lt in E.
Qed.
#[local] Hint Resolve tx_can_process_spec : rtl_spec.

Lemma window_tx_next_scan l : forall s,
  pending_window s ->
  wp (tx_next_scan l)
     (fun res s' =>
        pending_window s'
        /\ match res with
           | inr _ => pending_count (rtl s') < SSH_RTL_MAX_PENDING
           | inl _ => True
           end) s.
Proof.
  induction l as [|p n IH]; intros s Hw; decls; cbn [tx_next_scan].
  - wp_run. auto.
  - wp_run; try (split; [window|]); auto.
    destruct a; [auto|discriminate].
Qed.

Lemma window_tx_next s :
  pending_window s ->
  wp ssh_rtl_tx_next
     (fun res s' =>
        pending_window s'
        /\ match res with
           | inr _ => pending_count (rtl s') < SSH_RTL_MAX_PENDING
           | inl _ => True
           end) s.
Proof.
  intros Hw. unfold ssh_rtl_tx_next. wp_step. wp_step.
  now apply window_tx_next_scan.
Qed.

#[local] Hint Resolve window_tx_next : rtl_spec.

Lemma window_tx_begin s :
  pending_window s ->
  wp tx_try_process_one_begin (fun _ => pending_window) s.
Proof.
  intros Hw. decls. unfold tx_try_process_one_begin.
  wp_step. wp_step. wp_step; [wp_run; window|].
  wp_step.
  eapply wp_mono; [|now apply window_tx_pending_push].
  cbv beta. intros st s1 Hw1. wp_run; window.
Qed.
#[local] Hint Resolve window_tx_begin : rtl_spec.

Lemma window_tx_end r status s :
  pending_window s ->
  wp (tx_try_process_one_end r status) (fun _ => pending_window) s.
Proof.
  intros Hw. decls. unfold tx_try_process_one_end. wp_run; window.
Qed.
#[local] Hint Resolve window_tx_end : rtl_spec.

Lemma window_submit r s :
  pending_window s -> wp (ssh_rtl_submit r) (fun _ => pending_window) s.
Proof.
  intros Hw. decls. unfold ssh_rtl_submit. wp_run; window.
Qed.
#[local] Hint Resolve window_submit : rtl_spec.

Lemma window_reaper_mod_loop fuel aexp expires : forall old s,
  pending_window s ->
  wp (reaper_mod_loop fuel aexp expires old) (fun _ => pending_window) s.
Proof.
  induction fuel as [|fuel IH]; intros old s Hw; decls;
    cbn [reaper_mod_loop]; wp_run; window.
Qed.
#[local] Hint Resolve window_reaper_mod_loop : rtl_spec.

Lemma window_reaper_mod now expires s :
  pending_window s ->
  wp (ssh_rtl_timeout_reaper_mod now expires) (fun _ => pending_window) s.
Proof.
  intros Hw. decls. unfold ssh_rtl_timeout_reaper_mod. wp_run; window.
Qed.
#[local] Hint Resolve window_reaper_mod : rtl_spec.

Lemma window_timeout_start r now s :
  pending_window s ->
  wp (ssh_rtl_timeout_start r now) (fun _ => pending_window) s.
Proof.
  intros Hw. decls. unfold ssh_rtl_timeout_start. wp_run; window.
Qed.
#[local] Hint Resolve window_timeout_start : rtl_spec.

Lemma window_complete_scan id l : forall pre s,
  pending_head (rtl s) = pre ++ l ->
  pending_window s ->
  wp (complete_scan id l) (fun _ => pending_window) s.
Proof.
  induction l as [|p n IH]; intros pre s Hp Hw; decls; cbn [complete_scan].
  - wp_run. assumption.
  - assert (Hp' : pending_head (rtl s) = (pre ++ [p]) ++ n)
      by now rewrite <- app_assoc.
    wp_run; try window.
    apply (pending_window_unlink s _ p Hw);
      [rewrite Hp; apply in_or_app; right; now left
      |ssimp; reflexivity | left; ssimp; reflexivity
      |frame_bits_cleared].
Qed.

#[local] Hint Resolve window_complete_scan : rtl_spec.

Lemma window_complete command command_data s :
  pending_window s ->
  wp (ssh_rtl_complete command command_data) (fun _ => pending_window) s.
Proof.
  intros Hw. decls. unfold ssh_rtl_complete.
  assert (Hp0 : pending_head (rtl s) = [] ++ pending_head (rtl s))
    by reflexivity.
  wp_run; window.
Qed.
#[local] Hint Resolve window_complete : rtl_spec.

Lemma window_packet_callback r status now s :
  pending_window s ->
  wp (ssh_rtl_packet_callback r status now) (fun _ => pending_window) s.
Proof.
  intros Hw. decls. unfold ssh_rtl_packet_callback. wp_run; window.
Qed.
#[local] Hint Resolve window_packet_callback : rtl_spec.

Lemma window_ptl_cancel r ptl_completes s :
  pending_window s ->
  wp (ssh_ptl_cancel r ptl_completes) (fun _ => pending_window) s.
Proof.
  intros Hw. unfold ssh_ptl_cancel. wp_run; window.
Qed.
#[local] Hint Resolve window_ptl_cancel : rtl_spec.

Lemma window_cancel_pending r ptl_completes s :
  pending_window s ->
  wp (ssh_rtl_cancel_pending r ptl_completes) (fun _ => pending_window) s.
Proof.
  intros Hw. decls. unfold ssh_rtl_cancel_pending. wp_run; window.
Qed.
#[local] Hint Resolve window_cancel_pending : rtl_spec.

(** Inside [ssh_rtl_cancel] the exchange of [ssh_rtl_cancel_nonpending]
    never takes place: CANCELED is set, and it is no type flag. *)
Lemma window_cancel_nonpending r s :
  pending_window s ->
  Z.testbit (state (mem s r)) SSH_REQUEST_SF_CANCELED_BIT = true ->
  wp (ssh_rtl_cancel_nonpending r) (fun _ => pending_window) s.
Proof.
  intros Hw Hc. pose proof (canceled_not_fixed _ Hc) as Hne. decls.
  unfold ssh_rtl_cancel_nonpending.
  wp_run; try window; congruence.
Qed.
#[local] Hint Resolve window_cancel_nonpending : rtl_spec.

#[local] Hint Extern 1 (Z.testbit _ _ = true) =>
  solve [ssimp; bits; reflexivity] : rtl_spec.

Lemma window_cancel r pending ptl_completes s :
  pending_window s ->
  wp (ssh_rtl_cancel r pending ptl_completes) (fun _ => pending_window) s.
Proof.
  intros Hw. decls. unfold ssh_rtl_cancel. wp_run; window.
Qed.
#[local] Hint Resolve window_cancel : rtl_spec.

Lemma window_reap_scan now timeout l : forall pre next s,
  pending_head (rtl s) = pre ++ l ->
  pending_window s ->
  wp (reap_scan now timeout l next) (fun _ => pending_window) s.
Proof.
  induction l as [|r n IH]; intros pre next s Hp Hw; decls; cbn [reap_scan].
  - wp_run. assumption.
  - assert (Hp' : pending_head (rtl s) = (pre ++ [r]) ++ n)
      by now rewrite <- app_assoc.
    wp_run; try window.
    destruct (list_del_suffix r pre n) as [pre' Hs].
    match goal with
    | |- wp _ _ ?S =>
        assert (Hp2 : pending_head (rtl S) = pre' ++ n)
          by (ssimp; now rewrite Hp);
        assert (Hw2 : pending_window S)
    end.
    { apply (pending_window_unlink s _ r Hw);
        [rewrite Hp; apply in_or_app; right; now left
        |ssimp; reflexivity | left; ssimp; reflexivity
        |frame_bits_cleared]. }
    wp_run; window.
Qed.

Lemma window_reap_scan_all now timeout next s :
  pending_window s ->
  wp (reap_scan now timeout (pending_head (rtl s)) next)
     (fun _ => pending_window) s.
Proof. intros Hw. now apply (window_reap_scan now timeout _ []). Qed.
#[local] Hint Resolve window_reap_scan_all : rtl_spec.

Lemma window_reap_claimed cl : forall s,
  pending_window s -> wp (reap_claimed cl) (fun _ => pending_window) s.
Proof.
  induction cl as [|r n IH]; intros s Hw; decls; cbn [reap_claimed];
    wp_run; window.
Qed.
#[local] Hint Resolve window_reap_claimed : rtl_spec.

Lemma window_reap now s :
  pending_window s -> wp (ssh_rtl_timeout_reap now) (fun _ => pending_window) s.
Proof.
  intros Hw. decls. unfold ssh_rtl_timeout_reap.
  wp_run.
  eapply wp_mono;
    [|apply (window_reap_scan now _ _ []); [reflexivity|window]].
  cbv beta. intros res s1 Hw1. wp_run; window.
Qed.
#[local] Hint Resolve window_reap : rtl_spec.

Lemma window_shutdown_claim_queue l : forall s,
  pending_window s -> wp (shutdown_claim_queue l) (fun _ => pending_window) s.
Proof.
  induction l as [|r n IH]; intros s Hw; decls; cbn [shutdown_claim_queue];
    wp_run; window.
Qed.
#[local] Hint Resolve window_shutdown_claim_queue : rtl_spec.

Lemma window_shutdown_claim_pending l : forall pre s,
  pending_head (rtl s) = pre ++ l ->
  pending_window s ->
  wp (shutdown_claim_pending l) (fun _ => pending_window) s.
Proof.
  induction l as [|r n IH]; intros pre s Hp Hw; decls;
    cbn [shutdown_claim_pending].
  - wp_run. assumption.
  - wp_run.
    destruct (list_del_suffix r pre n) as [pre' Hs].
    match goal with
    | |- wp _ _ ?S =>
        assert (Hp2 : pending_head (rtl S) = pre' ++ n)
          by (ssimp; now rewrite Hp);
        assert (Hw2 : pending_window S)
    end.
    { apply (pending_window_unlink s _ r Hw);
        [rewrite Hp; apply in_or_app; right; now left
        |ssimp; reflexivity | right; ssimp; reflexivity
        |frame_bits_cleared]. }
    wp_run; window.
Qed.

Lemma window_shutdown_claim_pending_all s :
  pending_window s ->
  wp (shutdown_claim_pending (pending_head (rtl s)))
     (fun _ => pending_window) s.
Proof. intros Hw. now apply (window_shutdown_claim_pending _ []). Qed.
#[local] Hint Resolve window_shutdown_claim_pending_all : rtl_spec.

Lemma window_shutdown_complete cl : forall s,
  pending_window s -> wp (shutdown_complete cl) (fun _ => pending_window) s.
Proof.
  induction cl as [|r n IH]; intros s Hw; decls; cbn [shutdown_complete];
    wp_run; window.
Qed.
#[local] Hint Resolve window_shutdown_complete : rtl_spec.

Lemma window_cancel_tx_work_sync tx_status s :
  pending_window s ->
  wp (cancel_tx_work_sync tx_status) (fun _ => pending_window) s.
Proof.
  intros Hw. decls. unfold cancel_tx_work_sync. wp_run; window.
Qed.
#[local] Hint Resolve window_cancel_tx_work_sync : rtl_spec.

Lemma window_ptl_shutdown l : forall s,
  pending_window s -> wp (ssh_ptl_shutdown l) (fun _ => pending_window) s.
Proof.
  induction l as [|r n IH]; intros s Hw; cbn [ssh_ptl_shutdown];
    wp_run; window.
Qed.
#[local] Hint Resolve window_ptl_shutdown : rtl_spec.

Lemma window_shutdown tx_status ptl_failed s :
  pending_window s ->
  wp (ssh_rtl_shutdown tx_status ptl_failed) (fun _ => pending_window) s.
Proof.
  intros Hw. decls. unfold ssh_rtl_shutdown. wp_run; try window.
  eapply wp_mono;
    [|apply (window_shutdown_claim_pending _ []); [reflexivity|window]].
  cbv beta. intros res s1 Hw1. wp_run; window.
Qed.
#[local] Hint Resolve window_shutdown : rtl_spec.

Lemma window_step o s :
  pending_window s -> wp (step o) (fun _ => pending_window) s.
Proof.
  intros Hw. decls. destruct o; cbn [step]; wp_run; window.
Qed.
#[local] Hint Resolve window_step : rtl_spec.

Lemma window_run ops : forall s,
  pending_window s -> wp (run ops) (fun _ => pending_window) s.
Proof.
  induction ops as [|o ops IH]; intros s Hw; cbn [run]; wp_run; window.
Qed.

Lemma testbit_BIT_other nr nr' :
  0 <= nr -> nr <> nr' -> Z.testbit (BIT nr) nr' = false.
Proof.
  intros H0 Hne. unfold BIT. rewrite Z.shiftl_1_l.
  apply Z.pow2_bits_false. congruence.
Qed.

Lemma testbit_lor_BIT_other w nr nr' :
  0 <= nr -> nr <> nr' ->
  Z.testbit (Z.lor w (BIT nr)) nr' = Z.testbit w nr'.
Proof.
  intros H0 Hne. rewrite Z.lor_spec, testbit_BIT_other by assumption.
  apply orb_false_r.
Qed.

(** No state flag is set in a request that a client has just prepared. *)
Lemma setup_request_state u nr :
  nr <> SSH_REQUEST_TY_FLUSH_BIT -> nr <> SSH_REQUEST_TY_HAS_RESPONSE_BIT ->
  Z.testbit (state (setup_request u)) nr = false.
Proof.
  intros Hf Hr. decls.
  destruct u as [flags data|]; cbn [setup_request flush_request_init
    ssh_request_init state with_state with_packet_state with_packet_data].
  - destruct (negb _).
    + rewrite Z.lor_0_l. apply testbit_BIT_other; auto.
    + apply Z.bits_0.
  - rewrite testbit_lor_BIT_other by auto.
    destruct (negb _).
    + rewrite Z.lor_0_l. apply testbit_BIT_other; auto.
    + apply Z.bits_0.
Qed.

Lemma pending_window_boot u : pending_window (boot u).
Proof.
  decls. unfold pending_window, boot. cbn [rtl mem pending_head pending_count
    ssh_rtl_init length]. repeat split.
  - intros r Hr. rewrite setup_request_state in Hr by bit_side. discriminate.
  - reflexivity.
  - unfold SSH_RTL_MAX_PENDING. zlia.
Qed.

(** C2.  In every state the layer reaches from its initial state, by any
    sequence of calls of its functions by clients, workers and the packet
    layer, the pending counter and the length of the pending list are at
    most SSH_RTL_MAX_PENDING = 3. *)
Theorem pending_never_exceeds_max u ops s :
  run ops (boot u) = Some (tt, s) ->
  pending_count (rtl s) <= 3
  /\ (length (pending_head (rtl s)) <= 3)%nat.
Proof.
  intros Hrun.
  pose proof (window_run ops (boot u) (pending_window_boot u)) as H.
  apply (wp_returned _ _ _ _ _ H) in Hrun.
  destruct Hrun as (_ & Hlen & Hmax). unfold SSH_RTL_MAX_PENDING in Hmax.
  split; [assumption|]. zlia.
Qed.

(** *** Computations that return *)

Lemma wpt_ret {A} (a : A) (Q : A -> sys -> Prop) s : Q a s -> wpt (ret a) Q s.
Proof. auto. Qed.

Lemma wpt_gets {A} (f : sys -> A) (Q : A -> sys -> Prop) s :
  Q (f s) s -> wpt (gets f) Q s.
Proof. auto. Qed.

Lemma wpt_modify (f : sys -> sys) (Q : unit -> sys -> Prop) s :
  Q tt (f s) -> wpt (modify f) Q s.
Proof. auto. Qed.

Lemma wpt_call {A} (m : M A) (Q : A -> sys -> Prop) s :
  returns m s ->
  (forall a, m s = Some (a, after m s) -> Q a (after m s)) ->
  wpt m Q s.
Proof.
  intros (a & s' & E) H. unfold wpt. specialize (H a). unfold after in H.
  rewrite E in *. auto.
Qed.

Lemma wpt_returns_intro {A} (m : M A) Q s : wpt m Q s -> returns m s.
Proof.
  unfold wpt, returns. destruct (m s) as [[a s']|]; [eauto|tauto].
Qed.

Lemma returns_after {A} (m : M A) s :
  returns m s -> exists a, m s = Some (a, after m s).
Proof. intros (a & s' & E). exists a. unfold after. now rewrite E. Qed.

(** What a computation keeps when it returns, it keeps in [after]. *)
Lemma after_keeps {A} (m : M A) (I : sys -> Prop) s :
  wp m (fun _ => I) s -> I s -> I (after m s).
Proof. unfold wp, after. destruct (m s) as [[a s']|]; auto. Qed.

Create HintDb rtl_total.

Ltac wpt_step :=
  lazymatch goal with
  | |- wpt (bind _ _) _ _ => apply wpt_bind
  | |- wpt (ret _) _ _ => apply wpt_ret
  | |- wpt (gets _) _ _ => apply wpt_gets
  | |- wpt (modify _) _ _ => apply wpt_modify
  | |- wpt (if ?b then _ else _) _ _ => destruct b eqn:?
  | |- wpt (match ?x with _ => _ end) _ _ => destruct x eqn:?
  | |- wpt (test_and_set_bit _ _) _ _ => unfold test_and_set_bit
  | |- wpt (test_and_clear_bit _ _) _ _ => unfold test_and_clear_bit
  | |- wpt (test_bit _ _) _ _ => unfold test_bit
  | |- wpt (set_bit _ _) _ _ => unfold set_bit
  | |- wpt (clear_bit _ _) _ _ => unfold clear_bit
  | |- wpt (rqst_state _) _ _ => unfold rqst_state
  | |- wpt pending_count_read _ _ => unfold pending_count_read
  | |- wpt (ssh_request_rtl _) _ _ => unfold ssh_request_rtl
  | |- wpt (deref_rtl _) _ _ => unfold deref_rtl
  | |- wpt (ssh_request_get _) _ _ => unfold ssh_request_get
  | |- wpt (ssh_rtl_complete_with_status _ _) _ _ =>
      unfold ssh_rtl_complete_with_status
  | |- wpt (ssh_rtl_complete_with_rsp _ _ _) _ _ =>
      unfold ssh_rtl_complete_with_rsp
  | |- wpt ssh_rtl_queue_empty _ _ => unfold ssh_rtl_queue_empty
  | |- wpt (cmpxchg_state _ _ _) _ _ => unfold cmpxchg_state
  | |- wpt (cmpxchg64_expires _ _) _ _ => unfold cmpxchg64_expires
  | |- wpt oops _ _ => fail
  | |- wpt _ _ _ =>
      apply wpt_call; [solve [eauto with rtl_total] | intros ? ?]
  end; cbv beta iota; ssimp.

Ltac wpt_run := repeat wpt_step.

(** [ssh_request_put] *)

Lemma put_returns r s : returns (ssh_request_put r) s.
Proof.
  apply (wpt_returns_intro _ (fun _ _ => True)).
  unfold ssh_request_put. wpt_run; exact I.
Qed.
#[local] Hint Resolve put_returns : rtl_total.

Lemma rtl_after_put r s : rtl (after (ssh_request_put r) s) = rtl s.
Proof.
  unfold after, ssh_request_put. mred. now destruct (_ =? 0).
Qed.

Lemma tx_rqst_after_put r s :
  tx_rqst (after (ssh_request_put r) s) = tx_rqst s.
Proof.
  unfold after, ssh_request_put. mred. now destruct (_ =? 0).
Qed.

Lemma mem_after_put r s r0 :
  mem (after (ssh_request_put r) s) r0
  = mem (on_rqst r (fun q => with_packet_refcnt (packet_refcnt q - 1) q) s) r0.
Proof.
  unfold after, ssh_request_put. mred. now destruct (_ =? 0).
Qed.

Lemma state_after_put r s r0 :
  state (mem (after (ssh_request_put r) s) r0) = state (mem s r0).
Proof.
  rewrite mem_after_put. cbn [mem on_rqst]. now destruct (Nat.eqb r0 r).
Qed.

Lemma ptl_after_put r s r0 :
  packet_ptl (mem (after (ssh_request_put r) s) r0) = packet_ptl (mem s r0).
Proof.
  rewrite mem_after_put. cbn [mem on_rqst]. now destruct (Nat.eqb r0 r).
Qed.

Lemma completions_after_put r s r0 :
  completions r0 (calls (after (ssh_request_put r) s))
  = completions r0 (calls s).
Proof.
  unfold after, ssh_request_put. mred. destruct (_ =? 0); ssimp;
    [|reflexivity].
  unfold completions. rewrite filter_app. cbn. apply app_nil_r.
Qed.

(** [ssh_rtl_tx_schedule] *)

Lemma tx_schedule_returns s : returns ssh_rtl_tx_schedule s.
Proof.
  apply (wpt_returns_intro _ (fun _ _ => True)).
  unfold ssh_rtl_tx_schedule. wpt_run; exact I.
Qed.
#[local] Hint Resolve tx_schedule_returns : rtl_total.

Lemma after_tx_schedule s :
  after ssh_rtl_tx_schedule s = s
  \/ after ssh_rtl_tx_schedule s = on_rtl (with_tx_work true) s.
Proof.
  unfold after, ssh_rtl_tx_schedule. mred.
  destruct (_ >=? _); [now left|]. ssimp.
  destruct (queue_head (rtl s)); [now left|now right].
Qed.

Lemma mem_after_tx_schedule s : mem (after ssh_rtl_tx_schedule s) = mem s.
Proof. now destruct (after_tx_schedule s) as [-> | ->]. Qed.

Lemma calls_after_tx_schedule s :
  calls (after ssh_rtl_tx_schedule s) = calls s.
Proof. now destruct (after_tx_schedule s) as [-> | ->]. Qed.

Lemma tx_rqst_after_tx_schedule s :
  tx_rqst (after ssh_rtl_tx_schedule s) = tx_rqst s.
Proof. now destruct (after_tx_schedule s) as [-> | ->]. Qed.

Lemma queue_after_tx_schedule s :
  queue_head (rtl (after ssh_rtl_tx_schedule s)) = queue_head (rtl s).
Proof. now destruct (after_tx_schedule s) as [-> | ->]. Qed.

Lemma pending_after_tx_schedule s :
  pending_head (rtl (after ssh_rtl_tx_schedule s)) = pending_head (rtl s)
  /\ pending_count (rtl (after ssh_rtl_tx_schedule s)) = pending_count (rtl s).
Proof. now destruct (after_tx_schedule s) as [-> | ->]. Qed.

(** Straight-line part of [wpt_run]: stops in front of a branch. *)
Ltac wpt_lin :=
  repeat lazymatch goal with
         | |- wpt (if _ then _ else _) _ _ => fail
         | |- wpt (match _ with _ => _ end) _ _ => fail
         | |- _ => wpt_step
         end.

Ltac wp_lin :=
  repeat lazymatch goal with
         | |- wp (if _ then _ else _) _ _ => fail
         | |- wp (match _ with _ => _ end) _ _ => fail
         | |- _ => wp_step
         end.

(** [ssh_rtl_queue_remove] and [ssh_rtl_pending_remove] *)

Lemma queue_remove_returns r s :
  packet_ptl (mem s r) = true -> returns (ssh_rtl_queue_remove r) s.
Proof.
  intros Hb. apply (wpt_returns_intro _ (fun _ _ => True)).
  unfold ssh_rtl_queue_remove. wpt_lin. rewrite Hb. wpt_run; exact I.
Qed.
#[local] Hint Resolve queue_remove_returns : rtl_total.

Lemma after_queue_remove r s :
  packet_ptl (mem s r) = true ->
  after (ssh_rtl_queue_remove r) s =
    if Z.testbit (state (mem s r)) SSH_REQUEST_SF_QUEUED_BIT
    then after (ssh_request_put r)
           (on_rtl (fun l => with_queue_head (list_del r (queue_head l)) l)
              (on_rqst r (fun q => with_state
                   (Z.clearbit (state q) SSH_REQUEST_SF_QUEUED_BIT) q) s))
    else on_rqst r (fun q => with_state
                      (Z.clearbit (state q) SSH_REQUEST_SF_QUEUED_BIT) q) s.
Proof.
  intros Hb. unfold after at 1, ssh_rtl_queue_remove.
  unfold deref_rtl, ssh_request_rtl, test_and_clear_bit, test_bit, clear_bit.
  cbv beta iota delta [bind ret gets modify oops]. rewrite Hb. ssimp.
  destruct (Z.testbit (state (mem s r)) SSH_REQUEST_SF_QUEUED_BIT);
    [|reflexivity].
  match goal with
  | |- context [ssh_request_put r ?S] =>
      destruct (put_returns r S) as (a & s' & E)
  end.
  unfold after. now rewrite E.
Qed.

Lemma pending_remove_returns r s :
  packet_ptl (mem s r) = true -> returns (ssh_rtl_pending_remove r) s.
Proof.
  intros Hb. apply (wpt_returns_intro _ (fun _ _ => True)).
  unfold ssh_rtl_pending_remove. wpt_lin. rewrite Hb. wpt_run; exact I.
Qed.
#[local] Hint Resolve pending_remove_returns : rtl_total.

Lemma after_pending_remove r s :
  packet_ptl (mem s r) = true ->
  after (ssh_rtl_pending_remove r) s =
    if Z.testbit (state (mem s r)) SSH_REQUEST_SF_PENDING_BIT
    then after (ssh_request_put r)
           (on_rtl (fun l => with_pending (list_del r (pending_head l))
                                          (pending_count l - 1) l)
              (on_rqst r (fun q => with_state
                   (Z.clearbit (state q) SSH_REQUEST_SF_PENDING_BIT) q) s))
    else on_rqst r (fun q => with_state
                      (Z.clearbit (state q) SSH_REQUEST_SF_PENDING_BIT) q) s.
Proof.
  intros Hb. unfold after at 1, ssh_rtl_pending_remove.
  unfold deref_rtl, ssh_request_rtl, test_and_clear_bit, test_bit, clear_bit.
  cbv beta iota delta [bind ret gets modify oops]. rewrite Hb. ssimp.
  destruct (Z.testbit (state (mem s r)) SSH_REQUEST_SF_PENDING_BIT);
    [|reflexivity].
  match goal with
  | |- context [ssh_request_put r ?S] =>
      destruct (put_returns r S) as (a & s' & E)
  end.
  unfold after. now rewrite E.
Qed.

Lemma pending_head_after_tx_schedule s :
  pending_head (rtl (after ssh_rtl_tx_schedule s)) = pending_head (rtl s).
Proof. apply pending_after_tx_schedule. Qed.

Lemma pending_count_after_tx_schedule s :
  pending_count (rtl (after ssh_rtl_tx_schedule s)) = pending_count (rtl s).
Proof. apply pending_after_tx_schedule. Qed.

Lemma completions_app r l l' :
  completions r (l ++ l') = completions r l ++ completions r l'.
Proof. apply filter_app. Qed.

Lemma rtl_state_after_tx_schedule s :
  rtl_state (rtl (after ssh_rtl_tx_schedule s)) = rtl_state (rtl s).
Proof. now destruct (after_tx_schedule s) as [-> | ->]. Qed.

Ltac afters :=
  repeat first
    [ rewrite pending_head_after_tx_schedule
    | rewrite rtl_state_after_tx_schedule
    | rewrite pending_count_after_tx_schedule
    | rewrite queue_after_tx_schedule
    | rewrite mem_after_tx_schedule
    | rewrite calls_after_tx_schedule
    | rewrite tx_rqst_after_tx_schedule
    | rewrite rtl_after_put
    | rewrite tx_rqst_after_put
    | rewrite state_after_put
    | rewrite ptl_after_put
    | rewrite completions_after_put
    | rewrite completions_app
    | progress ssimp ].

#[local] Hint Extern 1 (packet_ptl _ = true) =>
  solve [afters; assumption] : rtl_total.

Lemma completions_other r r' c st :
  r' <> r -> completions r' [Complete r c st] = [].
Proof.
  intros H. cbn. apply Nat.eqb_neq in H. now rewrite Nat.eqb_sym, H.
Qed.

Lemma completions_same r c st :
  completions r [Complete r c st] = [Complete r c st].
Proof. cbn. now rewrite Nat.eqb_refl. Qed.

(** *** Completion dispatcher *)

Lemma list_del_app_first r pre post :
  ~ In r pre -> list_del r (pre ++ r :: post) = pre ++ post.
Proof.
  induction pre as [|x pre IH]; cbn; intros Hn.
  - now rewrite Nat.eqb_refl.
  - destruct (Nat.eqb x r) eqn:E.
    + apply Nat.eqb_eq in E. tauto.
    + f_equal. apply IH. tauto.
Qed.

(** The scan passes over requests with another request id and claims the
    first one that matches. *)
Lemma complete_scan_first_match id r pre post s :
  (forall p, In p pre ->
     exists id', packet_data (mem s p) = Some id' /\ id' <> id) ->
  packet_data (mem s r) = Some id ->
  complete_scan id (pre ++ r :: post) s =
    Some (Match r,
          on_rtl (fun l => with_pending (list_del r (pending_head l))
                                        (pending_count l - 1) l)
            (on_rqst r (fun q => with_state
                          (Z.clearbit (state q) SSH_REQUEST_SF_PENDING_BIT) q)
               (on_rqst r (fun q => with_state
                             (Z.setbit (state q) SSH_REQUEST_SF_RSPRCVD_BIT) q)
                  (on_rqst r (fun q => with_state
                                (Z.setbit (state q) SSH_REQUEST_SF_LOCKED_BIT) q)
                     s)))).
Proof.
  intros Hpre Hr. induction pre as [|p pre IH]; cbn [app complete_scan].
  - mred. rewrite Hr. rewrite Z.eqb_refl. reflexivity.
  - destruct (Hpre p (or_introl eq_refl)) as (id' & Hp & Hne).
    mred. rewrite Hp. apply Z.eqb_neq in Hne. rewrite Hne. cbn [negb].
    apply IH. intros p' Hin. apply Hpre. now right.
Qed.

(** C5.  A response whose request id names the pending request [r] (the
    first one in the pending list with that id) and that finds COMPLETED
    clear completes [r], and nothing else, exactly once: with -EREMOTEIO and
    without payload if TRANSMITTED is not set, in which case [r] also leaves
    the queue if it was still queued; with the command, its payload and
    status 0 otherwise.  In both cases [r] has left the pending set. *)
Theorem ssh_rtl_complete_matched command command_data r pre post s :
  pending_head (rtl s) = pre ++ r :: post ->
  (forall p, In p pre ->
     exists id', packet_data (mem s p) = Some id' /\ id' <> rqid command) ->
  packet_data (mem s r) = Some (rqid command) ->
  packet_ptl (mem s r) = true ->
  Z.testbit (state (mem s r)) SSH_REQUEST_SF_COMPLETED_BIT = false ->
  exists s',
    ssh_rtl_complete command command_data s = Some (tt, s')
    /\ pending_head (rtl s') = pre ++ post
    /\ pending_count (rtl s') = pending_count (rtl s) - 1
    /\ Z.testbit (state (mem s' r)) SSH_REQUEST_SF_PENDING_BIT = false
    /\ Z.testbit (state (mem s' r)) SSH_REQUEST_SF_COMPLETED_BIT = true
    /\ (forall r', r' <> r ->
          completions r' (calls s') = completions r' (calls s))
    /\ if Z.testbit (state (mem s r)) SSH_REQUEST_SF_TRANSMITTED_BIT
       then completions r (calls s') =
              completions r (calls s)
              ++ [Complete r (Some (command, command_data)) 0]
            /\ queue_head (rtl s') = queue_head (rtl s)
       else completions r (calls s') =
              completions r (calls s) ++ [Complete r None (- EREMOTEIO)]
            /\ Z.testbit (state (mem s' r)) SSH_REQUEST_SF_QUEUED_BIT = false
            /\ queue_head (rtl s') =
                 if Z.testbit (state (mem s r)) SSH_REQUEST_SF_QUEUED_BIT
                 then list_del r (queue_head (rtl s))
                 else queue_head (rtl s).
Proof.
  intros Hpend Hpre Hr Hptl Hcompl.
  assert (Hnin : ~ In r pre).
  { intros Hin. destruct (Hpre r Hin) as (id' & E & Hne). congruence. }
  decls.
  match goal with
  | |- exists s', _ = Some (tt, s') /\ @?Q s' =>
      cut (wpt (ssh_rtl_complete command command_data) (fun _ => Q) s)
  end.
  { intros H. apply wpt_returns in H. destruct H as ([] & s' & E & H).
    exists s'. auto. }
  unfold ssh_rtl_complete. wpt_step. wpt_step. apply wpt_bind.
  unfold wpt at 1. rewrite Hpend.
  rewrite (complete_scan_first_match _ _ _ _ _ Hpre Hr). cbv beta iota.
  wpt_lin. bits. rewrite Hcompl. cbv iota. wpt_lin. bits.
  destruct (Z.testbit (state (mem s r)) SSH_REQUEST_SF_TRANSMITTED_BIT);
    cbn [negb]; cbv iota; wpt_lin; afters.
  - rewrite Hpend, (list_del_app_first _ _ _ Hnin).
    rewrite completions_same. bits.
    repeat split; auto.
    intros r' Hne. afters. rewrite completions_other by auto.
    apply app_nil_r.
  - rewrite after_queue_remove by (ssimp; assumption). ssimp. bits.
    destruct (Z.testbit (state (mem s r)) SSH_REQUEST_SF_QUEUED_BIT); afters;
      rewrite ?Hpend, ?(list_del_app_first _ _ _ Hnin);
      rewrite ?completions_same; bits;
      (repeat split; auto);
      intros r' Hne; afters; rewrite ?completions_other by auto;
      now rewrite ?app_nil_r.
Qed.

(** *** The binding of a packet to the layer is only changed by submit *)

Create HintDb ptl_spec.

Ltac ptl_call :=
  match goal with
  | H : ptl_is ?r ?b _ |- wp _ ?Q _ =>
      match type of Q with
      | ?A -> _ => unify Q (fun _ : A => ptl_is r b)
      end;
      solve [eauto with ptl_spec]
  end.

Ltac wp_run_ptl := repeat wp_step_with ltac:(idtac; ptl_call).

Ltac ptl_same :=
  solve
    [ match goal with
      | H : ptl_is ?r ?b _ |- ptl_is ?r' ?b' _ =>
          unify r r'; unify b b';
          unfold ptl_is in *; ssimp;
          repeat match goal with
                 | |- context [Nat.eqb ?x ?y] => destruct (Nat.eqb x y) eqn:?
                 end;
          ssimp; exact H
      end ].

#[local] Hint Extern 1 (ptl_is _ _ _) => ptl_same : ptl_spec.

Lemma ptl_kept_put r r0 b s :
  ptl_is r0 b s -> wp (ssh_request_put r) (fun _ => ptl_is r0 b) s.
Proof. intros Hb. unfold ssh_request_put. wp_run_ptl; ptl_same. Qed.
#[local] Hint Resolve ptl_kept_put : ptl_spec.

Lemma ptl_kept_tx_schedule r0 b s :
  ptl_is r0 b s -> wp ssh_rtl_tx_schedule (fun _ => ptl_is r0 b) s.
Proof. intros Hb. unfold ssh_rtl_tx_schedule. wp_run_ptl; ptl_same. Qed.
#[local] Hint Resolve ptl_kept_tx_schedule : ptl_spec.

Lemma ptl_kept_queue_remove r r0 b s :
  ptl_is r0 b s -> wp (ssh_rtl_queue_remove r) (fun _ => ptl_is r0 b) s.
Proof. intros Hb. unfold ssh_rtl_queue_remove. wp_run_ptl; ptl_same. Qed.
#[local] Hint Resolve ptl_kept_queue_remove : ptl_spec.

Lemma ptl_kept_pending_remove r r0 b s :
  ptl_is r0 b s -> wp (ssh_rtl_pending_remove r) (fun _ => ptl_is r0 b) s.
Proof. intros Hb. unfold ssh_rtl_pending_remove. wp_run_ptl; ptl_same. Qed.
#[local] Hint Resolve ptl_kept_pending_remove : ptl_spec.

Lemma ptl_kept_reaper_mod_loop fuel aexp expires r0 b : forall old s,
  ptl_is r0 b s ->
  wp (reaper_mod_loop fuel aexp expires old) (fun _ => ptl_is r0 b) s.
Proof.
  induction fuel as [|fuel IH]; intros old s Hb; cbn [reaper_mod_loop];
    wp_run_ptl; ptl_same.
Qed.
#[local] Hint Resolve ptl_kept_reaper_mod_loop : ptl_spec.

Lemma ptl_kept_reaper_mod now expires r0 b s :
  ptl_is r0 b s ->
  wp (ssh_rtl_timeout_reaper_mod now expires) (fun _ => ptl_is r0 b) s.
Proof.
  intros Hb. unfold ssh_rtl_timeout_reaper_mod. wp_run_ptl; ptl_same.
Qed.
#[local] Hint Resolve ptl_kept_reaper_mod : ptl_spec.

Lemma ptl_kept_timeout_start r now r0 b s :
  ptl_is r0 b s ->
  wp (ssh_rtl_timeout_start r now) (fun _ => ptl_is r0 b) s.
Proof. intros Hb. unfold ssh_rtl_timeout_start. wp_run_ptl; ptl_same. Qed.
#[local] Hint Resolve ptl_kept_timeout_start : ptl_spec.

Lemma ptl_kept_packet_callback r status now r0 b s :
  ptl_is r0 b s ->
  wp (ssh_rtl_packet_callback r status now) (fun _ => ptl_is r0 b) s.
Proof.
  intros Hb. unfold ssh_rtl_packet_callback. wp_run_ptl; ptl_same.
Qed.
#[local] Hint Resolve ptl_kept_packet_callback : ptl_spec.

Lemma ptl_kept_ptl_cancel r c r0 b s :
  ptl_is r0 b s -> wp (ssh_ptl_cancel r c) (fun _ => ptl_is r0 b) s.
Proof. intros Hb. unfold ssh_ptl_cancel. wp_run_ptl; ptl_same. Qed.
#[local] Hint Resolve ptl_kept_ptl_cancel : ptl_spec.

Lemma ptl_after_queue_remove r s r0 :
  packet_ptl (mem (after (ssh_rtl_queue_remove r) s) r0)
  = packet_ptl (mem s r0).
Proof.
  apply (after_keeps _ (ptl_is r0 (packet_ptl (mem s r0))));
    [apply ptl_kept_queue_remove|]; reflexivity.
Qed.

Lemma ptl_after_pending_remove r s r0 :
  packet_ptl (mem (after (ssh_rtl_pending_remove r) s) r0)
  = packet_ptl (mem s r0).
Proof.
  apply (after_keeps _ (ptl_is r0 (packet_ptl (mem s r0))));
    [apply ptl_kept_pending_remove|]; reflexivity.
Qed.

Lemma ptl_after_packet_callback r status now s r0 :
  packet_ptl (mem (after (ssh_rtl_packet_callback r status now) s) r0)
  = packet_ptl (mem s r0).
Proof.
  apply (after_keeps _ (ptl_is r0 (packet_ptl (mem s r0))));
    [apply ptl_kept_packet_callback|]; reflexivity.
Qed.

Lemma ptl_after_ptl_cancel r c s r0 :
  packet_ptl (mem (after (ssh_ptl_cancel r c) s) r0) = packet_ptl (mem s r0).
Proof.
  apply (after_keeps _ (ptl_is r0 (packet_ptl (mem s r0))));
    [apply ptl_kept_ptl_cancel|]; reflexivity.
Qed.

Ltac afters2 :=
  repeat first
    [ rewrite ptl_after_queue_remove
    | rewrite ptl_after_pending_remove
    | rewrite ptl_after_packet_callback
    | rewrite ptl_after_ptl_cancel
    | progress afters ].

#[local] Hint Extern 1 (packet_ptl _ = true) =>
  solve [afters2; first [assumption | apply negb_false_iff; assumption]]
  : rtl_total.

(** A branch in which a bound packet was found unbound. *)
Ltac ptl_absurd :=
  exfalso;
  match goal with
  | H : packet_ptl _ = false |- _ =>
      revert H; afters2; intros H; congruence
  end.

(** *** Cancellation *)

Lemma packet_callback_failure_returns r status now s :
  status <> 0 ->
  packet_ptl (mem s r) = true ->
  returns (ssh_rtl_packet_callback r status now) s.
Proof.
  intros Hs Hb. apply (wpt_returns_intro _ (fun _ _ => True)).
  unfold ssh_rtl_packet_callback. apply Z.eqb_neq in Hs. rewrite Hs.
  cbn [negb]. wpt_run; try exact I; ptl_absurd.
Qed.

Lemma ptl_cancel_returns r c s :
  packet_ptl (mem s r) = true -> returns (ssh_ptl_cancel r c) s.
Proof.
  intros Hb. unfold ssh_ptl_cancel. destruct c.
  - apply packet_callback_failure_returns; [discriminate|assumption].
  - now exists tt, s.
Qed.
#[local] Hint Resolve ptl_cancel_returns : rtl_total.

Lemma cancel_pending_returns_true r c s :
  wpt (ssh_rtl_cancel_pending r c) (fun b _ => b = true) s.
Proof.
  unfold ssh_rtl_cancel_pending. wpt_run; try reflexivity; ptl_absurd.
Qed.

(** C10.  With the pending hint set, [ssh_rtl_cancel] returns, and returns
    true, for every request in every state (never submitted, queued,
    transmitting, pending, locked or completed) and whatever the packet layer
    does inside [ssh_ptl_cancel]. *)
Theorem ssh_rtl_cancel_pending_hint_true (rqst : rqst_id)
  (ptl_completes : bool) (s : sys) :
  exists s', ssh_rtl_cancel rqst true ptl_completes s = Some (true, s').
Proof.
  cut (wpt (ssh_rtl_cancel rqst true ptl_completes) (fun b _ => b = true) s).
  { intros H. apply wpt_returns in H. destruct H as (b & s' & E & ->).
    now exists s'. }
  unfold ssh_rtl_cancel. wpt_lin.
  destruct (Z.testbit (state (mem s rqst)) SSH_REQUEST_SF_CANCELED_BIT);
    [now apply wpt_ret|].
  apply wpt_bind. eapply wpt_mono; [|apply cancel_pending_returns_true].
  intros b s' ->. wpt_run; reflexivity.
Qed.

(** *** Flags that stay set *)

Lemma testbit_setbit_keeps w nr nr' :
  0 <= nr -> Z.testbit w nr' = true -> Z.testbit (Z.setbit w nr) nr' = true.
Proof.
  intros H0 Hw. destruct (Z.eq_dec nr nr') as [->|Hne].
  - now apply Z.setbit_eq.
  - now rewrite Z.setbit_neq.
Qed.

Lemma flag_not_fixed w nr :
  Z.testbit SSH_REQUEST_FLAGS_TY_MASK nr = false ->
  Z.testbit w nr = true ->
  (w =? Z.land w SSH_REQUEST_FLAGS_TY_MASK) = false.
Proof.
  intros Hm Hw. apply Z.eqb_neq. intros E.
  assert (Hb : Z.testbit (Z.land w SSH_REQUEST_FLAGS_TY_MASK) nr = true)
    by now rewrite <- E.
  rewrite Z.land_spec, Hm, andb_false_r in Hb. discriminate.
Qed.

Create HintDb flag_spec.

Ltac flag_init :=
  decls;
  let H0 := fresh "Hnr" in
  let H1 := fresh "Hnr" in
  let H2 := fresh "Hnr" in
  let H3 := fresh "Hnr" in
  let H4 := fresh "Hnr" in
  match goal with
  | Hst : sticky_flag _ |- _ => pose proof Hst as (H0 & H1 & H2 & H3 & H4)
  end.

Ltac flag_call :=
  match goal with
  | H : flag_set ?r ?n _ |- wp _ ?Q _ =>
      match type of Q with
      | ?A -> _ => unify Q (fun _ : A => flag_set r n)
      end;
      solve [eauto with flag_spec]
  end.

Ltac wp_run_flag := repeat wp_step_with ltac:(idtac; flag_call).

Ltac flag_same :=
  solve
    [ match goal with
      | H : flag_set ?r ?n _ |- flag_set ?r' ?n' _ =>
          unify r r'; unify n n';
          unfold flag_set in *; ssimp;
          repeat match goal with
                 | |- context [Nat.eqb ?x ?y] =>
                     let E := fresh "E" in
                     destruct (Nat.eqb x y) eqn:E;
                     [apply Nat.eqb_eq in E; subst|]
                 end;
          ssimp;
          repeat first
            [ apply testbit_setbit_keeps; [bit_side|]
            | rewrite testbit_clearbit_other by bit_side ];
          first
            [ assumption
            | exfalso;
              match goal with
              | Hf : (?w =? Z.land ?w _) = true |- _ =>
                  rewrite (flag_not_fixed w n) in Hf by assumption;
                  discriminate
              end ]
      end ].

#[local] Hint Extern 1 (flag_set _ _ _) => flag_same : flag_spec.

Lemma flag_kept_put r0 nr (Hst : sticky_flag nr) r s :
  flag_set r0 nr s -> wp (ssh_request_put r) (fun _ => flag_set r0 nr) s.
Proof. intros Hb. flag_init. unfold ssh_request_put. wp_run_flag; flag_same. Qed.
#[local] Hint Resolve flag_kept_put : flag_spec.

Lemma flag_kept_tx_schedule r0 nr (Hst : sticky_flag nr) s :
  flag_set r0 nr s -> wp ssh_rtl_tx_schedule (fun _ => flag_set r0 nr) s.
Proof.
  intros Hb. flag_init. unfold ssh_rtl_tx_schedule. wp_run_flag; flag_same.
Qed.
#[local] Hint Resolve flag_kept_tx_schedule : flag_spec.

Lemma flag_kept_queue_remove r0 nr (Hst : sticky_flag nr) r s :
  flag_set r0 nr s -> wp (ssh_rtl_queue_remove r) (fun _ => flag_set r0 nr) s.
Proof.
  intros Hb. flag_init. unfold ssh_rtl_queue_remove. wp_run_flag; flag_same.
Qed.
#[local] Hint Resolve flag_kept_queue_remove : flag_spec.

Lemma flag_kept_pending_remove r0 nr (Hst : sticky_flag nr) r s :
  flag_set r0 nr s -> wp (ssh_rtl_pending_remove r) (fun _ => flag_set r0 nr) s.
Proof.
  intros Hb. flag_init. unfold ssh_rtl_pending_remove. wp_run_flag; flag_same.
Qed.
#[local] Hint Resolve flag_kept_pending_remove : flag_spec.

Lemma flag_kept_tx_pending_push r0 nr (Hst : sticky_flag nr) r s :
  flag_set r0 nr s ->
  wp (ssh_rtl_tx_pending_push r) (fun _ => flag_set r0 nr) s.
Proof.
  intros Hb. flag_init. unfold ssh_rtl_tx_pending_push. wp_run_flag; flag_same.
Qed.
#[local] Hint Resolve flag_kept_tx_pending_push : flag_spec.

Lemma flag_kept_tx_can_process r0 nr (Hst : sticky_flag nr) r s :
  flag_set r0 nr s ->
  wp (ssh_rtl_tx_can_process r) (fun _ => flag_set r0 nr) s.
Proof.
  intros Hb. flag_init. unfold ssh_rtl_tx_can_process. wp_run_flag; flag_same.
Qed.
#[local] Hint Resolve flag_kept_tx_can_process : flag_spec.

Lemma flag_kept_tx_next_scan r0 nr (Hst : sticky_flag nr) l : forall s,
  flag_set r0 nr s -> wp (tx_next_scan l) (fun _ => flag_set r0 nr) s.
Proof.
  induction l as [|p n IH]; intros s Hb; flag_init; cbn [tx_next_scan];
    wp_run_flag; flag_same.
Qed.
#[local] Hint Resolve flag_kept_tx_next_scan : flag_spec.

Lemma flag_kept_tx_next r0 nr (Hst : sticky_flag nr) s :
  flag_set r0 nr s -> wp ssh_rtl_tx_next (fun _ => flag_set r0 nr) s.
Proof. intros Hb. flag_init. unfold ssh_rtl_tx_next. wp_run_flag; flag_same. Qed.
#[local] Hint Resolve flag_kept_tx_next : flag_spec.

Lemma flag_kept_tx_begin r0 nr (Hst : sticky_flag nr) s :
  flag_set r0 nr s -> wp tx_try_process_one_begin (fun _ => flag_set r0 nr) s.
Proof.
  intros Hb. flag_init. unfold tx_try_process_one_begin.
  wp_run_flag; flag_same.
Qed.
#[local] Hint Resolve flag_kept_tx_begin : flag_spec.

Lemma flag_kept_tx_end r0 nr (Hst : sticky_flag nr) r status s :
  flag_set r0 nr s ->
  wp (tx_try_process_one_end r status) (fun _ => flag_set r0 nr) s.
Proof.
  intros Hb. flag_init. unfold tx_try_process_one_end. wp_run_flag; flag_same.
Qed.
#[local] Hint Resolve flag_kept_tx_end : flag_spec.

Lemma flag_kept_submit r0 nr (Hst : sticky_flag nr) r s :
  flag_set r0 nr s -> wp (ssh_rtl_submit r) (fun _ => flag_set r0 nr) s.
Proof. intros Hb. flag_init. unfold ssh_rtl_submit. wp_run_flag; flag_same. Qed.
#[local] Hint Resolve flag_kept_submit : flag_spec.

Lemma flag_kept_reaper_mod_loop r0 nr (Hst : sticky_flag nr)
  fuel aexp expires : forall old s,
  flag_set r0 nr s ->
  wp (reaper_mod_loop fuel aexp expires old) (fun _ => flag_set r0 nr) s.
Proof.
  induction fuel as [|fuel IH]; intros old s Hb; cbn [reaper_mod_loop];
    wp_run_flag; flag_same.
Qed.
#[local] Hint Resolve flag_kept_reaper_mod_loop : flag_spec.

Lemma flag_kept_reaper_mod r0 nr (Hst : sticky_flag nr) now expires s :
  flag_set r0 nr s ->
  wp (ssh_rtl_timeout_reaper_mod now expires) (fun _ => flag_set r0 nr) s.
Proof.
  intros Hb. unfold ssh_rtl_timeout_reaper_mod. wp_run_flag; flag_same.
Qed.
#[local] Hint Resolve flag_kept_reaper_mod : flag_spec.

Lemma flag_kept_timeout_start r0 nr (Hst : sticky_flag nr) r now s :
  flag_set r0 nr s ->
  wp (ssh_rtl_timeout_start r now) (fun _ => flag_set r0 nr) s.
Proof.
  intros Hb. flag_init. unfold ssh_rtl_timeout_start. wp_run_flag; flag_same.
Qed.
#[local] Hint Resolve flag_kept_timeout_start : flag_spec.

Lemma flag_kept_complete_scan r0 nr (Hst : sticky_flag nr) id l : forall s,
  flag_set r0 nr s -> wp (complete_scan id l) (fun _ => flag_set r0 nr) s.
Proof.
  induction l as [|p n IH]; intros s Hb; flag_init; cbn [complete_scan];
    wp_run_flag; flag_same.
Qed.
#[local] Hint Resolve flag_kept_complete_scan : flag_spec.

Lemma flag_kept_complete r0 nr (Hst : sticky_flag nr) command command_data s :
  flag_set r0 nr s ->
  wp (ssh_rtl_complete command command_data) (fun _ => flag_set r0 nr) s.
Proof.
  intros Hb. flag_init. unfold ssh_rtl_complete. wp_run_flag; flag_same.
Qed.
#[local] Hint Resolve flag_kept_complete : flag_spec.

Lemma flag_kept_packet_callback r0 nr (Hst : sticky_flag nr) r status now s :
  flag_set r0 nr s ->
  wp (ssh_rtl_packet_callback r status now) (fun _ => flag_set r0 nr) s.
Proof.
  intros Hb. flag_init. unfold ssh_rtl_packet_callback. wp_run_flag; flag_same.
Qed.
#[local] Hint Resolve flag_kept_packet_callback : flag_spec.

Lemma flag_kept_ptl_cancel r0 nr (Hst : sticky_flag nr) r c s :
  flag_set r0 nr s -> wp (ssh_ptl_cancel r c) (fun _ => flag_set r0 nr) s.
Proof. intros Hb. unfold ssh_ptl_cancel. wp_run_flag; flag_same. Qed.
#[local] Hint Resolve flag_kept_ptl_cancel : flag_spec.

Lemma flag_kept_cancel_pending r0 nr (Hst : sticky_flag nr) r c s :
  flag_set r0 nr s ->
  wp (ssh_rtl_cancel_pending r c) (fun _ => flag_set r0 nr) s.
Proof.
  intros Hb. flag_init. unfold ssh_rtl_cancel_pending. wp_run_flag; flag_same.
Qed.
#[local] Hint Resolve flag_kept_cancel_pending : flag_spec.

(** The exchange of [ssh_rtl_cancel_nonpending] overwrites the whole word,
    but only a word in which no such flag is set. *)
Lemma flag_kept_cancel_nonpending r0 nr (Hst : sticky_flag nr) r s :
  flag_set r0 nr s ->
  wp (ssh_rtl_cancel_nonpending r) (fun _ => flag_set r0 nr) s.
Proof.
  intros Hb. flag_init. unfold ssh_rtl_cancel_nonpending.
  wp_run_flag; flag_same.
Qed.
#[local] Hint Resolve flag_kept_cancel_nonpending : flag_spec.

Lemma flag_kept_cancel r0 nr (Hst : sticky_flag nr) r pending c s :
  flag_set r0 nr s ->
  wp (ssh_rtl_cancel r pending c) (fun _ => flag_set r0 nr) s.
Proof.
  intros Hb. flag_init. unfold ssh_rtl_cancel. wp_run_flag; flag_same.
Qed.
#[local] Hint Resolve flag_kept_cancel : flag_spec.

Lemma flag_kept_reap_scan r0 nr (Hst : sticky_flag nr) now timeout l : forall next s,
  flag_set r0 nr s ->
  wp (reap_scan now timeout l next) (fun _ => flag_set r0 nr) s.
Proof.
  induction l as [|r n IH]; intros next s Hb; flag_init; cbn [reap_scan];
    wp_run_flag; flag_same.
Qed.
#[local] Hint Resolve flag_kept_reap_scan : flag_spec.

Lemma flag_kept_reap_claimed r0 nr (Hst : sticky_flag nr) l : forall s,
  flag_set r0 nr s -> wp (reap_claimed l) (fun _ => flag_set r0 nr) s.
Proof.
  induction l as [|r n IH]; intros s Hb; flag_init; cbn [reap_claimed];
    wp_run_flag; flag_same.
Qed.
#[local] Hint Resolve flag_kept_reap_claimed : flag_spec.

Lemma flag_kept_reap r0 nr (Hst : sticky_flag nr) now s :
  flag_set r0 nr s -> wp (ssh_rtl_timeout_reap now) (fun _ => flag_set r0 nr) s.
Proof.
  intros Hb. flag_init. unfold ssh_rtl_timeout_reap. wp_run_flag; flag_same.
Qed.
#[local] Hint Resolve flag_kept_reap : flag_spec.

Lemma flag_kept_shutdown_claim_queue r0 nr (Hst : sticky_flag nr) l : forall s,
  flag_set r0 nr s -> wp (shutdown_claim_queue l) (fun _ => flag_set r0 nr) s.
Proof.
  induction l as [|r n IH]; intros s Hb; flag_init;
    cbn [shutdown_claim_queue]; wp_run_flag; flag_same.
Qed.
#[local] Hint Resolve flag_kept_shutdown_claim_queue : flag_spec.

Lemma flag_kept_shutdown_claim_pending r0 nr (Hst : sticky_flag nr) l : forall s,
  flag_set r0 nr s -> wp (shutdown_claim_pending l) (fun _ => flag_set r0 nr) s.
Proof.
  induction l as [|r n IH]; intros s Hb; flag_init;
    cbn [shutdown_claim_pending]; wp_run_flag; flag_same.
Qed.
#[local] Hint Resolve flag_kept_shutdown_claim_pending : flag_spec.

Lemma flag_kept_shutdown_complete r0 nr (Hst : sticky_flag nr) l : forall s,
  flag_set r0 nr s -> wp (shutdown_complete l) (fun _ => flag_set r0 nr) s.
Proof.
  induction l as [|r n IH]; intros s Hb; flag_init;
    cbn [shutdown_complete]; wp_run_flag; flag_same.
Qed.
#[local] Hint Resolve flag_kept_shutdown_complete : flag_spec.

Lemma flag_kept_cancel_tx_work_sync r0 nr (Hst : sticky_flag nr) tx_status s :
  flag_set r0 nr s ->
  wp (cancel_tx_work_sync tx_status) (fun _ => flag_set r0 nr) s.
Proof.
  intros Hb. flag_init. unfold cancel_tx_work_sync. wp_run_flag; flag_same.
Qed.
#[local] Hint Resolve flag_kept_cancel_tx_work_sync : flag_spec.

Lemma flag_kept_ptl_shutdown r0 nr (Hst : sticky_flag nr) l : forall s,
  flag_set r0 nr s -> wp (ssh_ptl_shutdown l) (fun _ => flag_set r0 nr) s.
Proof.
  induction l as [|r n IH]; intros s Hb; cbn [ssh_ptl_shutdown];
    wp_run_flag; flag_same.
Qed.
#[local] Hint Resolve flag_kept_ptl_shutdown : flag_spec.

Lemma flag_kept_shutdown r0 nr (Hst : sticky_flag nr) tx_status ptl_failed s :
  flag_set r0 nr s ->
  wp (ssh_rtl_shutdown tx_status ptl_failed) (fun _ => flag_set r0 nr) s.
Proof.
  intros Hb. flag_init. unfold ssh_rtl_shutdown. wp_run_flag; flag_same.
Qed.
#[local] Hint Resolve flag_kept_shutdown : flag_spec.

Lemma flag_kept_step r0 nr (Hst : sticky_flag nr) o s :
  flag_set r0 nr s -> wp (step o) (fun _ => flag_set r0 nr) s.
Proof.
  intros Hb. flag_init. destruct o; cbn [step]; wp_run_flag; flag_same.
Qed.
#[local] Hint Resolve flag_kept_step : flag_spec.

Lemma flag_kept_run r0 nr (Hst : sticky_flag nr) ops : forall s,
  flag_set r0 nr s -> wp (run ops) (fun _ => flag_set r0 nr) s.
Proof.
  induction ops as [|o ops IH]; intros s Hb; cbn [run];
    wp_run_flag; flag_same.
Qed.


Lemma sticky_canceled : sticky_flag SSH_REQUEST_SF_CANCELED_BIT.
Proof. decls. unfold sticky_flag. repeat split; bit_side. Qed.

(** The first thing [ssh_rtl_cancel] does is to set CANCELED. *)
Lemma flag_set_by_cancel r pending c s :
  wp (ssh_rtl_cancel r pending c)
     (fun _ => flag_set r SSH_REQUEST_SF_CANCELED_BIT) s.
Proof.
  pose proof sticky_canceled as Hst. flag_init.
  unfold ssh_rtl_cancel. wp_lin.
  match goal with
  | |- wp _ _ ?S =>
      assert (Hset : flag_set r SSH_REQUEST_SF_CANCELED_BIT S)
  end.
  { unfold flag_set. ssimp. apply testbit_setbit_same. assumption. }
  wp_run_flag; flag_same.
Qed.

Lemma sticky_completed : sticky_flag SSH_REQUEST_SF_COMPLETED_BIT.
Proof. decls. unfold sticky_flag. repeat split; bit_side. Qed.

Lemma sticky_locked : sticky_flag SSH_REQUEST_SF_LOCKED_BIT.
Proof. decls. unfold sticky_flag. repeat split; bit_side. Qed.

(** A cancel call on a request whose CANCELED bit is set returns true and
    changes nothing. *)
Lemma ssh_rtl_cancel_again rqst pending ptl_completes s :
  flag_set rqst SSH_REQUEST_SF_CANCELED_BIT s ->
  exists s', ssh_rtl_cancel rqst pending ptl_completes s = Some (true, s')
             /\ same_sys s s'.
Proof.
  decls. unfold flag_set. intros Hc. unfold ssh_rtl_cancel. mred. ssimp.
  rewrite Hc.
  eexists. split; [reflexivity|].
  repeat split; ssimp; try reflexivity.
  intros r. cbn [mem on_rqst]. destruct (Nat.eqb r rqst) eqn:E; [|reflexivity].
  apply Nat.eqb_eq in E. subst r.
  rewrite setbit_already by assumption. now rewrite with_state_same.
Qed.

(** C9.  Once a call of [ssh_rtl_cancel] on a request has returned, then
    whatever the layer does next, every further call of [ssh_rtl_cancel] on
    that request, with either hint, returns true and leaves the system as it
    found it: in particular it makes no call to [ops->complete]. *)
Theorem ssh_rtl_cancel_idempotent rqst pending ptl_completes s b s1 ops s2 :
  ssh_rtl_cancel rqst pending ptl_completes s = Some (b, s1) ->
  run ops s1 = Some (tt, s2) ->
  forall pending' ptl_completes',
  exists s3,
    ssh_rtl_cancel rqst pending' ptl_completes' s2 = Some (true, s3)
    /\ same_sys s2 s3.
Proof.
  intros Hc Hrun pending' ptl_completes'.
  apply ssh_rtl_cancel_again.
  pose proof sticky_canceled as Hst.
  apply (wp_returned (run ops)
           (fun _ => flag_set rqst SSH_REQUEST_SF_CANCELED_BIT) s1 tt);
    [|exact Hrun].
  apply (flag_kept_run rqst _ Hst).
  eapply (wp_returned _ (fun _ => flag_set rqst SSH_REQUEST_SF_CANCELED_BIT));
    [|exact Hc].
  apply flag_set_by_cancel.
Qed.

(** *** Transmitter *)

(** Locked requests at the front of the queue are passed over. *)
Lemma tx_next_scan_skip_locked pre l s :
  (forall q, In q pre ->
     Z.testbit (state (mem s q)) SSH_REQUEST_SF_LOCKED_BIT = true) ->
  tx_next_scan (pre ++ l) s = tx_next_scan l s.
Proof.
  induction pre as [|q pre IH]; intros Hpre; [reflexivity|].
  cbn [app tx_next_scan]. mred. rewrite (Hpre q (or_introl eq_refl)).
  apply IH. intros q' Hin. apply Hpre. now right.
Qed.

(** C7, amended.  A flush request is eligible exactly when the pending
    count is zero, any other request exactly when it is below
    SSH_RTL_MAX_PENDING.  The first request of the queue that is not locked
    decides the dequeue: if it is eligible it is the one dequeued (marked
    TRANSMITTING, QUEUED cleared, unlinked); if it is not, nothing is
    dequeued, whatever waits behind it, [ssh_rtl_tx_next] answers -EBUSY and
    the transmitter work stops without a change.  So a flush request waiting
    at the head of the queue while the pending count is not zero holds back
    every later request. *)
Theorem ssh_rtl_tx_next_head pre p post s :
  queue_head (rtl s) = pre ++ p :: post ->
  (forall q, In q pre ->
     Z.testbit (state (mem s q)) SSH_REQUEST_SF_LOCKED_BIT = true) ->
  Z.testbit (state (mem s p)) SSH_REQUEST_SF_LOCKED_BIT = false ->
  packet_ptl (mem s p) = true ->
  let eligible :=
    if Z.testbit (state (mem s p)) SSH_REQUEST_TY_FLUSH_BIT
    then pending_count (rtl s) =? 0
    else pending_count (rtl s) <? SSH_RTL_MAX_PENDING in
  ssh_rtl_tx_can_process p s = Some (eligible, s)
  /\ if eligible
     then exists s',
            ssh_rtl_tx_next s = Some (inr p, s')
            /\ queue_head (rtl s') = pre ++ post
            /\ pending_head (rtl s') = pending_head (rtl s)
            /\ state (mem s' p) =
                 Z.clearbit (Z.setbit (state (mem s p))
                               SSH_REQUEST_SF_TRANSMITTING_BIT)
                            SSH_REQUEST_SF_QUEUED_BIT
     else ssh_rtl_tx_next s = Some (inl (- EBUSY), s)
          /\ (forall ptl_submit,
                ssh_rtl_tx_try_process_one ptl_submit s = Some (- EBUSY, s))
          /\ (forall ptl_submit,
                ssh_rtl_tx_work_fn ptl_submit s =
                  Some (tt, on_rtl (with_tx_work false) s)).
Proof.
  intros Hq Hpre Hp Hptl eligible.
  assert (Hnin : ~ In p pre).
  { intros Hin. rewrite (Hpre p Hin) in Hp. discriminate. }
  assert (Hcan : forall s0, mem s0 = mem s ->
            pending_count (rtl s0) = pending_count (rtl s) ->
            ssh_rtl_tx_can_process p s0 = Some (eligible, s0)).
  { intros s0 Hm Hc. unfold ssh_rtl_tx_can_process, eligible. mred.
    rewrite Hm, Hptl. cbv beta iota. rewrite Hc, Hm.
    now destruct (Z.testbit (state (mem s p)) SSH_REQUEST_TY_FLUSH_BIT). }
  split; [now apply Hcan|].
  assert (Hnext : forall s0, mem s0 = mem s ->
            queue_head (rtl s0) = queue_head (rtl s) ->
            ssh_rtl_tx_next s0 =
              bind (ssh_rtl_tx_can_process p)
                   (fun ok =>
                      if negb ok then ret (inl (- EBUSY)) else
                      bind (set_bit SSH_REQUEST_SF_TRANSMITTING_BIT p)
                        (fun _ => bind (clear_bit SSH_REQUEST_SF_QUEUED_BIT p)
                           (fun _ => bind
                              (modify (on_rtl (fun l =>
                                 with_queue_head
                                   (list_del p (queue_head l)) l)))
                              (fun _ => ret (inr p))))) s0).
  { intros s0 Hm Hr. unfold ssh_rtl_tx_next. unfold bind at 1, gets at 1.
    rewrite Hr, Hq, tx_next_scan_skip_locked
      by (intros; rewrite Hm; now apply Hpre).
    cbn [tx_next_scan]. unfold bind at 1, test_bit at 1, gets at 1.
    rewrite Hm, Hp. reflexivity. }
  destruct eligible eqn:He.
  - rewrite (Hnext s eq_refl eq_refl). unfold bind at 1.
    rewrite (Hcan s eq_refl eq_refl). mred. ssimp.
    eexists. split; [reflexivity|]. ssimp.
    rewrite Hq, (list_del_app_first _ _ _ Hnin). auto.
  - assert (Hbusy : forall s0, mem s0 = mem s ->
              queue_head (rtl s0) = queue_head (rtl s) ->
              pending_count (rtl s0) = pending_count (rtl s) ->
              ssh_rtl_tx_next s0 = Some (inl (- EBUSY), s0)).
    { intros s0 Hm Hr Hc. rewrite (Hnext s0 Hm Hr). unfold bind at 1.
      now rewrite (Hcan s0 Hm Hc). }
    split; [now apply Hbusy|].
    assert (Hone : forall ptl_submit s0, mem s0 = mem s ->
              queue_head (rtl s0) = queue_head (rtl s) ->
              pending_count (rtl s0) = pending_count (rtl s) ->
              ssh_rtl_tx_try_process_one ptl_submit s0 = Some (- EBUSY, s0)).
    { intros ptl_submit s0 Hm Hr Hc.
      unfold ssh_rtl_tx_try_process_one, tx_try_process_one_begin.
      unfold bind at 1. unfold bind at 1. now rewrite (Hbusy s0 Hm Hr Hc). }
    split; [intros; now apply Hone|].
    intros ptl_submit. unfold ssh_rtl_tx_work_fn. unfold bind at 1.
    cbn [modify tx_work_loop]. unfold bind at 1.
    rewrite (Hone (ptl_submit 0%nat) (on_rtl (with_tx_work false) s))
      by reflexivity.
    reflexivity.
Qed.

(** *** Arming the timeout reaper *)

Lemma wrap64_small x : - 2 ^ 63 <= x < 2 ^ 63 -> wrap64 x = x.
Proof.
  intros H. unfold wrap64. rewrite Z.mod_small; lia.
Qed.

Lemma resolution_ms_bounds : 50 <= resolution_ms <= 2000.
Proof.
  unfold resolution_ms.
  assert (Z.quot 2000 HZ <= 2000).
  { destruct (Z.lt_trichotomy HZ 0) as [Hn|[->|Hp]].
    - replace HZ with (- - HZ) by lia.
      rewrite Z.quot_opp_r by lia.
      pose proof (Z.quot_pos 2000 (- HZ)). lia.
    - vm_compute. discriminate.
    - apply Z.quot_le_upper_bound; lia. }
  lia.
Qed.

Lemma resolution_value :
  SSH_RTL_REQUEST_TIMEOUT_RESOLUTION = resolution_ms * NSEC_PER_MSEC.
Proof.
  pose proof resolution_ms_bounds as H.
  unfold SSH_RTL_REQUEST_TIMEOUT_RESOLUTION, ms_to_ktime.
  fold resolution_ms. apply wrap64_small. unfold NSEC_PER_MSEC. lia.
Qed.

Lemma resolution_pos : 0 < SSH_RTL_REQUEST_TIMEOUT_RESOLUTION.
Proof.
  rewrite resolution_value. pose proof resolution_ms_bounds.
  unfold NSEC_PER_MSEC. lia.
Qed.

(** Once [old], the stored value and [expires] coincide while the test of
    the loop holds, the loop exchanges a value for itself for ever. *)
Lemma reaper_mod_loop_spins fuel aexp expires s :
  rtx_timeout_expires (rtl s) = expires ->
  ktime_before aexp expires = true ->
  reaper_mod_loop fuel aexp expires expires s = None.
Proof.
  revert s. induction fuel as [|fuel IH]; intros s Hs Ht; cbn [reaper_mod_loop];
    rewrite Ht; [reflexivity|].
  unfold cmpxchg64_expires. mred. rewrite Hs, Z.eqb_refl.
  apply IH; [reflexivity|assumption].
Qed.

(** Called with the stored value, the loop needs at most two exchanges:
    more fuel than that changes nothing. *)
Lemma reaper_mod_loop_fuel fuel aexp expires s :
  (reaper_mod_fuel <= fuel)%nat ->
  reaper_mod_loop fuel aexp expires (rtx_timeout_expires (rtl s)) s =
  reaper_mod_loop reaper_mod_fuel aexp expires (rtx_timeout_expires (rtl s)) s.
Proof.
  unfold reaper_mod_fuel. intros Hf.
  destruct fuel as [|[|fuel]]; try lia.
  cbn [reaper_mod_loop].
  destruct (ktime_before aexp (rtx_timeout_expires (rtl s))) eqn:T1;
    [|reflexivity].
  unfold cmpxchg64_expires at 1 3. mred. rewrite Z.eqb_refl. rewrite T1.
  unfold cmpxchg64_expires at 1 2. mred. ssimp.
  destruct (expires =? rtx_timeout_expires (rtl s)) eqn:E.
  - apply Z.eqb_eq in E. rewrite <- E in T1. cbv beta iota.
    rewrite T1. rewrite reaper_mod_loop_spins; auto.
  - cbv beta iota. destruct (ktime_before aexp expires) eqn:T2.
    + rewrite reaper_mod_loop_spins; auto.
    + destruct fuel; cbn [reaper_mod_loop]; now rewrite T2.
Qed.

(** What a call of [ssh_rtl_timeout_reaper_mod] comes to when the resolution
    can be added to [expires] without overflow. *)
Lemma reaper_mod_returns now expires s :
  0 <= expires ->
  expires + SSH_RTL_REQUEST_TIMEOUT_RESOLUTION <= KTIME_MAX ->
  let stored := rtx_timeout_expires (rtl s) in
  let delta := msecs_to_jiffies (ktime_ms_delta expires now) in
  ssh_rtl_timeout_reaper_mod now expires s =
    Some (tt,
          if expires + SSH_RTL_REQUEST_TIMEOUT_RESOLUTION <? stored
          then on_rtl (with_reaper (Some delta))
                 (on_rtl (with_expires expires) s)
          else if stored =? expires
          then on_rtl (with_reaper (Some delta)) s
          else s).
Proof.
  intros H0 Hmax stored delta.
  pose proof resolution_pos as Hres.
  assert (Ha : ktime_add expires SSH_RTL_REQUEST_TIMEOUT_RESOLUTION
               = expires + SSH_RTL_REQUEST_TIMEOUT_RESOLUTION).
  { apply wrap64_small. unfold KTIME_MAX in Hmax. lia. }
  unfold ssh_rtl_timeout_reaper_mod, reaper_mod_fuel. rewrite Ha.
  unfold bind at 1, gets at 1. fold stored. unfold bind at 1.
  cbn [reaper_mod_loop]. unfold ktime_before.
  destruct (expires + SSH_RTL_REQUEST_TIMEOUT_RESOLUTION <? stored) eqn:T1.
  - unfold cmpxchg64_expires. mred. fold stored. rewrite Z.eqb_refl.
    rewrite T1. ssimp.
    apply Z.ltb_lt in T1.
    assert (E : (expires =? stored) = false) by (apply Z.eqb_neq; lia).
    rewrite E.
    assert (T2 : (expires + SSH_RTL_REQUEST_TIMEOUT_RESOLUTION <? expires)
                 = false) by (apply Z.ltb_ge; lia).
    rewrite T2. rewrite Z.eqb_refl. reflexivity.
  - mred. now destruct (stored =? expires).
Qed.

(** C8, amended.  With an expiration [expires] that the resolution can be
    added to without overflow, [ssh_rtl_timeout_reaper_mod] returns and
    - lowers the stored expiration to [expires] exactly when [expires] plus
      the resolution [ms_to_ktime (max (2000 / HZ) 50)] is earlier than the
      stored one, and then reschedules the reaper;
    - leaves the stored expiration alone otherwise, and reschedules the
      reaper only if the stored expiration equals [expires];
    - reschedules with the delay [msecs_to_jiffies] of the milliseconds
      from [now] to [expires]: the resolution enters the comparison, not the
      delay. *)
Theorem ssh_rtl_timeout_reaper_mod_result now expires s :
  0 <= expires ->
  expires + SSH_RTL_REQUEST_TIMEOUT_RESOLUTION <= KTIME_MAX ->
  let stored := rtx_timeout_expires (rtl s) in
  let delta := msecs_to_jiffies (ktime_ms_delta expires now) in
  SSH_RTL_REQUEST_TIMEOUT_RESOLUTION = Z.max (Z.quot 2000 HZ) 50 * NSEC_PER_MSEC
  /\ ssh_rtl_timeout_reaper_mod now expires s =
       Some (tt,
             if expires + SSH_RTL_REQUEST_TIMEOUT_RESOLUTION <? stored
             then on_rtl (with_reaper (Some delta))
                    (on_rtl (with_expires expires) s)
             else if stored =? expires
             then on_rtl (with_reaper (Some delta)) s
             else s).
Proof.
  intros H0 Hmax stored delta. split; [apply resolution_value|].
  now apply reaper_mod_returns.
Qed.

(** *** Timeout reaper *)

Lemma inb_In r l : inb r l = true <-> In r l.
Proof.
  unfold inb. rewrite existsb_exists. split.
  - intros (x & Hx & E). apply Nat.eqb_eq in E. now subst.
  - intros H. exists r. split; [assumption|apply Nat.eqb_refl].
Qed.

Lemma inb_not_In r l : ~ In r l -> inb r l = false.
Proof.
  intros H. destruct (inb r l) eqn:E; [|reflexivity].
  apply inb_In in E. contradiction.
Qed.

Lemma inb_cons_other r x l : r <> x -> inb r (x :: l) = inb r l.
Proof.
  intros H. unfold inb. cbn. apply Nat.eqb_neq in H. now rewrite H.
Qed.

Lemma inb_cons_same r l : inb r (r :: l) = true.
Proof. unfold inb. cbn. now rewrite Nat.eqb_refl. Qed.

Lemma reap_claims_ext now timeout s s' r :
  timestamp (mem s' r) = timestamp (mem s r) ->
  Z.testbit (state (mem s' r)) SSH_REQUEST_SF_LOCKED_BIT
  = Z.testbit (state (mem s r)) SSH_REQUEST_SF_LOCKED_BIT ->
  reap_claims now timeout s' r = reap_claims now timeout s r.
Proof.
  intros Ht Hl. unfold reap_claims, ssh_request_get_expiration.
  now rewrite Ht, Hl.
Qed.

(** The scan claims exactly the requests that pass [reap_claims], unlinks
    them, and leaves the other requests as they are. *)
Lemma reap_scan_props now timeout l : forall pre next s,
  pending_head (rtl s) = pre ++ l ->
  NoDup (pre ++ l) ->
  exists next' s',
    reap_scan now timeout l next s
    = Some ((next', filter (reap_claims now timeout s) l), s')
    /\ pending_head (rtl s')
       = pre ++ filter (fun r => negb (reap_claims now timeout s r)) l
    /\ pending_count (rtl s')
       = pending_count (rtl s)
         - Z.of_nat (length (filter (reap_claims now timeout s) l))
    /\ calls s' = calls s
    /\ (forall r, state (mem s' r) =
          if reap_claims now timeout s r && inb r l
          then Z.clearbit (Z.setbit (state (mem s r))
                             SSH_REQUEST_SF_LOCKED_BIT)
                          SSH_REQUEST_SF_PENDING_BIT
          else state (mem s r))
    /\ (forall r, packet_ptl (mem s' r) = packet_ptl (mem s r))
    /\ (next' = next
        \/ exists r, In r l
             /\ next' = ssh_request_get_expiration (mem s r) timeout
             /\ ktime_after next' now = true).
Proof.
  decls.
  induction l as [|r tl IH]; intros pre next s Hp Hnd.
  - exists next, s. cbn [reap_scan filter length]. rewrite Hp.
    repeat split; try reflexivity; try zlia; auto.
    intros r. now rewrite andb_false_r.
  - assert (Hr_pre : ~ In r pre).
    { apply NoDup_remove_2 in Hnd. intros Hin. apply Hnd.
      apply in_or_app. now left. }
    assert (Hr_tl : ~ In r tl).
    { apply NoDup_remove_2 in Hnd. intros Hin. apply Hnd.
      apply in_or_app. now right. }
    assert (Hp' : pending_head (rtl s) = (pre ++ [r]) ++ tl)
      by now rewrite <- app_assoc.
    assert (Hnd' : NoDup ((pre ++ [r]) ++ tl)) by now rewrite <- app_assoc.
    cbn [reap_scan]. unfold bind at 1, gets at 1.
    cbn [filter].
    destruct (ktime_after (ssh_request_get_expiration (mem s r) timeout) now)
      eqn:Ha; cbn [negb andb].
    + (* not yet expired *)
      assert (Hrc : reap_claims now timeout s r = false)
        by (unfold reap_claims; now rewrite Ha).
      rewrite Hrc. cbn [negb].
      destruct (IH (pre ++ [r])
                  (if ktime_before
                        (ssh_request_get_expiration (mem s r) timeout) next
                   then ssh_request_get_expiration (mem s r) timeout
                   else next) s Hp' Hnd')
        as (next' & s' & E & Hh & Hc & Hcalls & Hst & Hptl & Hnext).
      exists next', s'. rewrite E, Hh, Hc, <- app_assoc.
      repeat split; auto.
      * intros r0. rewrite Hst.
        destruct (Nat.eq_dec r0 r) as [->|Hne].
        -- rewrite (inb_not_In _ _ Hr_tl), andb_false_r.
           unfold reap_claims. rewrite Ha. reflexivity.
        -- now rewrite (inb_cons_other _ _ _ Hne).
      * destruct Hnext as [->|(r0 & Hin & E0 & Ha0)].
        -- destruct (ktime_before _ next); [right|now left].
           exists r. split; [now left|]. split; [reflexivity|assumption].
        -- right. exists r0. split; [now right|]. now split.
    + (* expired *)
      unfold bind at 1. unfold test_and_set_bit at 1. mred.
      destruct (Z.testbit (state (mem s r)) SSH_REQUEST_SF_LOCKED_BIT) eqn:Hl;
        cbn [negb].
      * (* already locked *)
        assert (Hrc : reap_claims now timeout s r = false)
          by (unfold reap_claims; now rewrite Hl, andb_false_r).
        rewrite Hrc. cbn [negb].
        set (s1 := on_rqst r (fun q => with_state
                     (Z.setbit (state q) SSH_REQUEST_SF_LOCKED_BIT) q) s).
        assert (Hs1 : forall r0, state (mem s1 r0) = state (mem s r0)).
        { intros r0. unfold s1. destruct (Nat.eq_dec r0 r) as [->|Hne].
          - rewrite mem_on_rqst_same. cbn [state with_state].
            now apply setbit_already.
          - now rewrite mem_on_rqst_other. }
        assert (Hts1 : forall r0, timestamp (mem s1 r0) = timestamp (mem s r0)).
        { intros r0. unfold s1. destruct (Nat.eq_dec r0 r) as [->|Hne].
          - now rewrite mem_on_rqst_same.
          - now rewrite mem_on_rqst_other. }
        assert (Hptl1 : forall r0,
                  packet_ptl (mem s1 r0) = packet_ptl (mem s r0)).
        { intros r0. unfold s1. destruct (Nat.eq_dec r0 r) as [->|Hne].
          - now rewrite mem_on_rqst_same.
          - now rewrite mem_on_rqst_other. }
        assert (Hcl : forall r0, reap_claims now timeout s1 r0
                                 = reap_claims now timeout s r0).
        { intros r0. apply reap_claims_ext; [apply Hts1|now rewrite Hs1]. }
        destruct (IH (pre ++ [r]) next s1 Hp' Hnd')
          as (next' & s' & E & Hh & Hc & Hcalls & Hst & Hptl & Hnext).
        exists next', s'. rewrite E.
        rewrite (filter_ext _ _ Hcl).
        rewrite Hh, Hc, <- app_assoc.
        rewrite (filter_ext _ _ Hcl).
        rewrite (filter_ext (fun r0 => negb (reap_claims now timeout s1 r0))
                   (fun r0 => negb (reap_claims now timeout s r0)))
          by (intros; now rewrite Hcl).
        repeat split; auto.
        -- intros r0. rewrite Hst, Hcl, Hs1.
           destruct (Nat.eq_dec r0 r) as [->|Hne].
           ++ unfold reap_claims. rewrite Hl, andb_false_r. reflexivity.
           ++ now rewrite (inb_cons_other _ _ _ Hne).
        -- intros r0. now rewrite Hptl.
        -- destruct Hnext as [->|(r0 & Hin & E0 & Ha0)]; [now left|].
           right. exists r0. split; [now right|].
           unfold ssh_request_get_expiration in *.
           rewrite Hts1 in E0. now split.
      * (* claimed *)
        assert (Hrc : reap_claims now timeout s r = true)
          by (unfold reap_claims; now rewrite Ha, Hl).
        rewrite Hrc. cbn [negb].
        ssimp.
        set (s2 := on_rtl _ _).
        assert (Hm2 : forall r0, r0 <> r -> mem s2 r0 = mem s r0).
        { intros r0 Hne. unfold s2. cbn [mem on_rtl].
          now rewrite !mem_on_rqst_other. }
        assert (Hp2 : pending_head (rtl s2) = pre ++ tl).
        { unfold s2. ssimp. rewrite Hp. now apply list_del_app_first. }
        assert (Hnd2 : NoDup (pre ++ tl)) by now apply NoDup_remove_1 in Hnd.
        assert (Hcl : forall r0, In r0 tl ->
                  reap_claims now timeout s2 r0 = reap_claims now timeout s r0).
        { intros r0 Hin. assert (r0 <> r) by (intros ->; contradiction).
          unfold reap_claims, ssh_request_get_expiration.
          now rewrite Hm2. }
        destruct (IH pre next s2 Hp2 Hnd2)
          as (next' & s' & E & Hh & Hc & Hcalls & Hst & Hptl & Hnext).
        exists next', s'. rewrite E. cbn [fst snd].
        rewrite (filter_ext_in _ _ _ Hcl).
        rewrite Hh, Hc.
        rewrite (filter_ext_in _ _ _ Hcl).
        rewrite (filter_ext_in
                   (fun r0 => negb (reap_claims now timeout s2 r0))
                   (fun r0 => negb (reap_claims now timeout s r0)))
          by (intros; now rewrite Hcl).
        repeat split; auto.
        -- unfold s2. ssimp. cbn [length]. zlia.
        -- intros r0. rewrite Hst.
           destruct (Nat.eq_dec r0 r) as [->|Hne].
           ++ rewrite (inb_not_In _ _ Hr_tl), andb_false_r, inb_cons_same.
              unfold reap_claims at 1. rewrite Ha, Hl. cbn [negb andb].
              unfold s2. now ssimp.
           ++ rewrite (inb_cons_other _ _ _ Hne), (Hm2 _ Hne).
              destruct (inb r0 tl) eqn:Hi.
              ** apply inb_In in Hi. now rewrite (Hcl _ Hi).
              ** now rewrite !andb_false_r.
        -- intros r0. rewrite Hptl. unfold s2. cbn [mem on_rtl].
           destruct (Nat.eq_dec r0 r) as [->|Hne].
           ++ now rewrite !mem_on_rqst_same.
           ++ now rewrite !mem_on_rqst_other.
        -- destruct Hnext as [->|(r0 & Hin & E0 & Ha0)]; [now left|].
           right. exists r0. split; [now right|].
           assert (Hne0 : r0 <> r) by (intros ->; contradiction).
           rewrite (Hm2 _ Hne0) in E0. now split.
Qed.

Lemma completions_release r r' : completions r' [Release r] = [].
Proof. reflexivity. Qed.

(** [ssh_request_put] returns; it touches the reference count and may call
    [ops->release], nothing else. *)
Lemma ssh_request_put_props r s :
  exists s',
    ssh_request_put r s = Some (tt, s')
    /\ rtl s' = rtl s /\ tx_rqst s' = tx_rqst s
    /\ (forall r0, state (mem s' r0) = state (mem s r0))
    /\ (forall r0, packet_ptl (mem s' r0) = packet_ptl (mem s r0))
    /\ (forall r0, timestamp (mem s' r0) = timestamp (mem s r0))
    /\ (forall r0, packet_data (mem s' r0) = packet_data (mem s r0))
    /\ (forall r0, completions r0 (calls s') = completions r0 (calls s)).
Proof.
  unfold ssh_request_put. mred. ssimp.
  destruct (packet_refcnt (mem s r) - 1 =? 0);
    (eexists; split; [reflexivity|]); ssimp;
    repeat split; try reflexivity;
    try (intros r0; now destruct (Nat.eqb r0 r)).
  intros r0. rewrite completions_app. apply app_nil_r.
Qed.

(** The second loop of the reaper completes each claimed request that is
    not COMPLETED yet, once, with -ETIMEDOUT, and marks it COMPLETED. *)
Lemma reap_claimed_props cl : forall s,
  NoDup cl ->
  exists s',
    reap_claimed cl s = Some (tt, s')
    /\ rtl s' = rtl s
    /\ (forall r, state (mem s' r) =
          if inb r cl
          then Z.setbit (state (mem s r)) SSH_REQUEST_SF_COMPLETED_BIT
          else state (mem s r))
    /\ (forall r, packet_ptl (mem s' r) = packet_ptl (mem s r))
    /\ (forall r, completions r (calls s') =
          completions r (calls s)
          ++ if inb r cl
                && negb (Z.testbit (state (mem s r))
                           SSH_REQUEST_SF_COMPLETED_BIT)
             then [Complete r None (- ETIMEDOUT)] else []).
Proof.
  decls.
  induction cl as [|r tl IH]; intros s Hnd.
  - exists s. cbn [reap_claimed]. repeat split; auto.
    intros r. cbn. now rewrite app_nil_r.
  - inversion Hnd as [|? ? Hr_tl Hnd_tl]; subst.
    cbn [reap_claimed]. unfold test_and_set_bit, ssh_rtl_complete_with_status.
    unfold bind at 1. unfold bind at 1. unfold test_bit at 1, gets at 1.
    unfold bind at 1. unfold set_bit at 1, modify at 1. cbn [ret].
    unfold bind at 1.
    set (s1 := on_rqst r _ s).
    set (s2 := if Z.testbit (state (mem s r)) SSH_REQUEST_SF_COMPLETED_BIT
               then s1
               else record_call (Complete r None (- ETIMEDOUT)) s1).
    assert (E2 : (if negb (Z.testbit (state (mem s r))
                             SSH_REQUEST_SF_COMPLETED_BIT)
                  then modify (record_call (Complete r None (- ETIMEDOUT)))
                  else ret tt) s1 = Some (tt, s2)).
    { unfold s2.
      now destruct (Z.testbit (state (mem s r)) SSH_REQUEST_SF_COMPLETED_BIT). }
    rewrite E2. unfold bind at 1.
    destruct (ssh_request_put_props r s2)
      as (s3 & E3 & Hrtl3 & _ & Hst3 & Hptl3 & _ & _ & Hc3).
    rewrite E3.
    destruct (IH s3 Hnd_tl) as (s' & E & Hrtl & Hst & Hptl & Hc).
    exists s'. split; [assumption|].
    assert (Hm2 : forall r0, mem s2 r0 = mem s1 r0)
      by (intros; unfold s2;
          now destruct (Z.testbit (state (mem s r))
                          SSH_REQUEST_SF_COMPLETED_BIT)).
    assert (Hrtl2 : rtl s2 = rtl s)
      by (unfold s2;
          now destruct (Z.testbit (state (mem s r))
                          SSH_REQUEST_SF_COMPLETED_BIT)).
    repeat split.
    + now rewrite Hrtl, Hrtl3.
    + intros r0. rewrite Hst, Hst3, Hm2. unfold s1.
      destruct (Nat.eq_dec r0 r) as [->|Hne].
      * rewrite (inb_not_In _ _ Hr_tl), inb_cons_same.
        now rewrite mem_on_rqst_same.
      * rewrite (inb_cons_other _ _ _ Hne). now rewrite mem_on_rqst_other.
    + intros r0. rewrite Hptl, Hptl3, Hm2. unfold s1.
      destruct (Nat.eq_dec r0 r) as [->|Hne].
      * now rewrite mem_on_rqst_same.
      * now rewrite mem_on_rqst_other.
    + intros r0. rewrite Hc, Hc3, Hst3, Hm2. unfold s1, s2.
      destruct (Nat.eq_dec r0 r) as [->|Hne].
      * rewrite (inb_not_In _ _ Hr_tl), inb_cons_same. cbn [andb].
        rewrite app_nil_r.
        destruct (Z.testbit (state (mem s r)) SSH_REQUEST_SF_COMPLETED_BIT);
          cbn [negb]; ssimp.
        -- now rewrite app_nil_r.
        -- now rewrite completions_app, completions_same.
      * rewrite (inb_cons_other _ _ _ Hne), mem_on_rqst_other by assumption.
        f_equal.
        destruct (Z.testbit (state (mem s r)) SSH_REQUEST_SF_COMPLETED_BIT);
          ssimp; [reflexivity|].
        now rewrite completions_app, completions_other, app_nil_r.
Qed.

Lemma inb_filter (f : rqst_id -> bool) l r :
  inb r (filter f l) = f r && inb r l.
Proof.
  unfold inb. induction l as [|x l IH]; cbn [filter existsb];
    [now rewrite andb_false_r|].
  destruct (Nat.eqb r x) eqn:E.
  - apply Nat.eqb_eq in E. subst x. destruct (f r) eqn:F; cbn [existsb orb].
    + now rewrite Nat.eqb_refl.
    + now rewrite IH, ?F.
  - destruct (f x); cbn [existsb orb]; rewrite ?E; cbn [orb]; now rewrite IH.
Qed.

Lemma timeout_value : SSH_RTL_REQUEST_TIMEOUT = 3000000000.
Proof. reflexivity. Qed.

Lemma reap_claims_frame now timeout s s' :
  mem s' = mem s ->
  forall r, reap_claims now timeout s' r = reap_claims now timeout s r.
Proof. intros Hm r. unfold reap_claims. now rewrite Hm. Qed.

Lemma ktime_min e next :
  (if ktime_before e next then e else next) = Z.min next e.
Proof. unfold ktime_before. destruct (Z.ltb_spec e next); lia. Qed.

(** The scan returns, as next expiration, the earliest of [next] and the
    deadlines that have not elapsed; it leaves the reaper alone. *)
Lemma reap_scan_next now timeout l : forall next s0 s,
  (forall r, timestamp (mem s r) = timestamp (mem s0 r)) ->
  rtx_timeout_expires (rtl s) = rtx_timeout_expires (rtl s0) ->
  rtx_timeout_reaper (rtl s) = rtx_timeout_reaper (rtl s0) ->
  wp (reap_scan now timeout l next)
     (fun res s' =>
        fst res
        = fold_left Z.min
            (filter (fun e => ktime_after e now)
               (map (fun r => ssh_request_get_expiration (mem s0 r) timeout)
                  l))
            next
        /\ rtx_timeout_expires (rtl s') = rtx_timeout_expires (rtl s0)
        /\ rtx_timeout_reaper (rtl s') = rtx_timeout_reaper (rtl s0))
     s.
Proof.
  induction l as [|r l IH]; intros next s0 s Hts He Hr;
    cbn [reap_scan map filter].
  - apply wp_ret. cbn [fst fold_left]. auto.
  - assert (Hx : ssh_request_get_expiration (mem s r) timeout
                 = ssh_request_get_expiration (mem s0 r) timeout)
      by (unfold ssh_request_get_expiration; now rewrite Hts).
    apply wp_bind, wp_gets. cbv beta. rewrite Hx.
    destruct (ktime_after (ssh_request_get_expiration (mem s0 r) timeout) now)
      eqn:Ha.
    + cbn [fold_left]. rewrite ktime_min. now apply IH.
    + unfold test_and_set_bit, clear_bit.
      apply wp_bind, wp_bind, wp_gets. cbv beta.
      apply wp_bind, wp_modify. cbv beta. apply wp_ret.
      assert (Hts1 : forall f r0,
                timestamp (mem (on_rqst r (fun q => with_state (f q) q) s) r0)
                = timestamp (mem s0 r0)).
      { intros f r0. rewrite <- Hts. destruct (Nat.eq_dec r0 r) as [->|Hne].
        - now rewrite mem_on_rqst_same.
        - now rewrite mem_on_rqst_other. }
      match goal with
      | |- wp (if ?b then _ else _) _ _ => destruct b
      end.
      * apply IH; [apply Hts1|assumption|assumption].
      * apply wp_bind, wp_modify. cbv beta.
        apply wp_bind, wp_modify. cbv beta. apply wp_bind.
        eapply wp_mono; [|apply (IH next s0)].
        -- cbv beta. intros res s' H. apply wp_ret. exact H.
        -- intros r0. cbn [mem on_rtl]. rewrite <- Hts.
           destruct (Nat.eq_dec r0 r) as [->|Hne].
           ++ now rewrite !mem_on_rqst_same.
           ++ now rewrite !mem_on_rqst_other.
        -- ssimp. assumption.
        -- ssimp. assumption.
Qed.

Lemma timeout_after_tx_schedule s :
  rtx_timeout_expires (rtl (after ssh_rtl_tx_schedule s))
  = rtx_timeout_expires (rtl s)
  /\ rtx_timeout_reaper (rtl (after ssh_rtl_tx_schedule s))
     = rtx_timeout_reaper (rtl s).
Proof. now destruct (after_tx_schedule s) as [-> | ->]. Qed.

(** C6.  With the pending requests stamped in the past (or not stamped yet),
    a run of the reaper returns and, for every pending request whose
    timestamp plus the timeout is not after [now] and whose LOCKED bit it is
    the one to set: sets LOCKED, clears PENDING, unlinks the request and
    decrements the counter, then sets COMPLETED and, unless COMPLETED was
    set already, completes the request with -ETIMEDOUT, once.  Every other
    request keeps its state and its place in the pending list, and is not
    completed.  The requests whose deadline has not elapsed decide the next
    wake time: it is the earliest of their deadlines, but no sooner than
    one resolution after [now]; it is stored as the expiration of the
    reaper, and unless it is KTIME_MAX (no request has a deadline to wait
    for) the reaper work is scheduled to run after the milliseconds from
    [now] to it. *)
Theorem ssh_rtl_timeout_reap_result now s :
  NoDup (pending_head (rtl s)) ->
  rtx_timeout_timeout (rtl s) = SSH_RTL_REQUEST_TIMEOUT ->
  0 <= now ->
  now + SSH_RTL_REQUEST_TIMEOUT + 2 * SSH_RTL_REQUEST_TIMEOUT_RESOLUTION
    <= KTIME_MAX ->
  (forall r, In r (pending_head (rtl s)) ->
     timestamp (mem s r) = KTIME_MAX \/ 0 <= timestamp (mem s r) <= now) ->
  let claims := reap_claims now SSH_RTL_REQUEST_TIMEOUT s in
  let deadline r :=
    ssh_request_get_expiration (mem s r) SSH_RTL_REQUEST_TIMEOUT in
  let wake :=
    Z.max (fold_left Z.min
             (filter (fun e => ktime_after e now)
                (map deadline (pending_head (rtl s))))
             KTIME_MAX)
          (now + SSH_RTL_REQUEST_TIMEOUT_RESOLUTION) in
  exists s',
    ssh_rtl_timeout_reap now s = Some (tt, s')
    /\ pending_head (rtl s')
       = filter (fun r => negb (claims r)) (pending_head (rtl s))
    /\ pending_count (rtl s')
       = pending_count (rtl s)
         - Z.of_nat (length (filter claims (pending_head (rtl s))))
    /\ (forall r, state (mem s' r) =
          if claims r && inb r (pending_head (rtl s))
          then Z.setbit
                 (Z.clearbit (Z.setbit (state (mem s r))
                                SSH_REQUEST_SF_LOCKED_BIT)
                             SSH_REQUEST_SF_PENDING_BIT)
                 SSH_REQUEST_SF_COMPLETED_BIT
          else state (mem s r))
    /\ (forall r, completions r (calls s') =
          completions r (calls s)
          ++ if claims r && inb r (pending_head (rtl s))
                && negb (Z.testbit (state (mem s r))
                           SSH_REQUEST_SF_COMPLETED_BIT)
             then [Complete r None (- ETIMEDOUT)] else [])
    /\ rtx_timeout_expires (rtl s') = wake
    /\ rtx_timeout_reaper (rtl s')
       = (if wake =? KTIME_MAX then None
          else Some (msecs_to_jiffies (ktime_ms_delta wake now))).
Proof.
  intros Hnd Hto Hnow Hmax Hts claims deadline wake.
  pose proof resolution_pos as Hres.
  set (s0 := on_rtl (with_expires KTIME_MAX) (on_rtl (with_reaper None) s)).
  assert (Hcl0 : forall r, reap_claims now SSH_RTL_REQUEST_TIMEOUT s0 r
                           = claims r)
    by (apply reap_claims_frame; reflexivity).
  destruct (reap_scan_props now SSH_RTL_REQUEST_TIMEOUT
              (pending_head (rtl s)) [] KTIME_MAX s0 eq_refl Hnd)
    as (next' & s1 & E1 & Hh1 & Hc1 & Hcalls1 & Hst1 & Hptl1 & Hnext).
  pose proof (wp_returned _ _ _ _ _
                (reap_scan_next now SSH_RTL_REQUEST_TIMEOUT
                   (pending_head (rtl s)) KTIME_MAX s0 s0
                   (fun _ => eq_refl) eq_refl eq_refl) E1)
    as (Hnx & Hex1 & Hre1).
  cbn [fst] in Hnx. change (mem s0) with (mem s) in Hnx. fold deadline in Hnx.
  change (rtx_timeout_expires (rtl s0)) with KTIME_MAX in Hex1.
  change (rtx_timeout_reaper (rtl s0)) with (@None Z) in Hre1.
  rewrite (filter_ext _ _ Hcl0) in E1, Hc1.
  rewrite (filter_ext (fun r => negb (reap_claims now _ s0 r))
             (fun r => negb (claims r))) in Hh1
    by (intros; now rewrite Hcl0).
  destruct (reap_claimed_props (filter claims (pending_head (rtl s))) s1
              (NoDup_filter _ Hnd))
    as (s2 & E2 & Hrtl2 & Hst2 & Hptl2 & Hcalls2).
  assert (Hadd : ktime_add now SSH_RTL_REQUEST_TIMEOUT_RESOLUTION
                 = now + SSH_RTL_REQUEST_TIMEOUT_RESOLUTION).
  { apply wrap64_small. rewrite timeout_value in Hmax.
    unfold KTIME_MAX in Hmax. lia. }
  set (next := Z.max next' (ktime_add now SSH_RTL_REQUEST_TIMEOUT_RESOLUTION)).
  assert (Hwake : next = wake).
  { unfold next, wake. now rewrite Hadd, Hnx. }
  assert (Hmod : exists s3,
            (if negb (next =? KTIME_MAX)
             then ssh_rtl_timeout_reaper_mod now next
             else ret tt) s2 = Some (tt, s3)
            /\ mem s3 = mem s2 /\ calls s3 = calls s2
            /\ pending_head (rtl s3) = pending_head (rtl s2)
            /\ pending_count (rtl s3) = pending_count (rtl s2)
            /\ rtx_timeout_expires (rtl s3) = next
            /\ rtx_timeout_reaper (rtl s3)
               = (if next =? KTIME_MAX then None
                  else Some (msecs_to_jiffies (ktime_ms_delta next now)))).
  { assert (Hex2 : rtx_timeout_expires (rtl s2) = KTIME_MAX)
      by (rewrite Hrtl2; exact Hex1).
    assert (Hre2 : rtx_timeout_reaper (rtl s2) = None)
      by (rewrite Hrtl2; exact Hre1).
    destruct (next =? KTIME_MAX) eqn:En; cbn [negb].
    - exists s2. apply Z.eqb_eq in En. rewrite Hex2, Hre2, En.
      repeat split; reflexivity.
    - apply Z.eqb_neq in En.
      assert (Hb : 0 <= next
                   /\ next + SSH_RTL_REQUEST_TIMEOUT_RESOLUTION < KTIME_MAX).
      { unfold next in *. rewrite Hadd in *. rewrite timeout_value in Hmax.
        destruct Hnext as [->|(r & Hin & -> & _)]; [lia|].
        unfold ssh_request_get_expiration in *. cbn [mem s0 on_rtl] in *.
        destruct (Hts r Hin) as [Ht|Ht].
        - rewrite Ht, Z.eqb_refl in *. cbn [negb] in *. lia.
        - assert (Hk : (timestamp (mem s r) =? KTIME_MAX) = false)
            by (apply Z.eqb_neq; unfold KTIME_MAX in *; lia).
          rewrite Hk in *. cbn [negb] in *.
          unfold ktime_add in *. rewrite timeout_value in *.
          rewrite wrap64_small in * by (unfold KTIME_MAX in *; lia).
          lia. }
      destruct Hb as [Hb0 Hb1].
      rewrite (reaper_mod_returns now next s2 Hb0 (Z.lt_le_incl _ _ Hb1)).
      cbv zeta. rewrite Hex2.
      apply Z.ltb_lt in Hb1. rewrite Hb1.
      eexists. split; [reflexivity|]. repeat split; reflexivity. }
  destruct Hmod as (s3 & E3 & Hm3 & Hcalls3 & Hh3 & Hc3 & Hex3 & Hre3).
  match goal with
  | |- exists s', _ = Some (tt, s') /\ @?Q s' =>
      cut (wpt (ssh_rtl_timeout_reap now) (fun _ => Q) s)
  end.
  { intros H. apply wpt_returns in H. destruct H as ([] & s' & E & H).
    exists s'. auto. }
  unfold ssh_rtl_timeout_reap. wpt_lin.
  unfold wpt at 1. rewrite Hto. fold s0. rewrite E1. cbn [fst snd].
  apply wpt_bind. unfold wpt at 1. rewrite E2.
  apply wpt_bind. unfold wpt at 1. fold next. rewrite E3.
  wpt_run. afters.
  destruct (timeout_after_tx_schedule s3) as [Hex4 Hre4].
  rewrite Hex4, Hre4. decls.
  repeat split.
  - now rewrite Hh3, Hrtl2, Hh1.
  - now rewrite Hc3, Hrtl2, Hc1.
  - intros r. rewrite Hm3, Hst2, Hst1, Hcl0, inb_filter.
    change (mem s0 r) with (mem s r).
    now destruct (claims r && inb r (pending_head (rtl s))).
  - intros r. rewrite Hcalls3, Hcalls2, Hcalls1, Hst1, Hcl0, inb_filter.
    change (calls s0) with (calls s). change (mem s0 r) with (mem s r).
    destruct (claims r && inb r (pending_head (rtl s))); cbn [andb];
      [now bits|reflexivity].
  - now rewrite Hex3.
  - now rewrite Hre3, Hwake.
Qed.

(** *** Flush *)

Lemma wp_any {A} (m : M A) (Q : A -> sys -> Prop) s :
  (forall a s', Q a s') -> wp m Q s.
Proof. intros H. unfold wp. destruct (m s) as [[a s']|]; auto. Qed.

(** The request [ssh_rtl_flush] prepares carries the flush type flag and
    nothing else. *)
Lemma flush_request_init_state :
  state flush_request_init = BIT SSH_REQUEST_TY_FLUSH_BIT.
Proof.
  decls. unfold flush_request_init, ssh_request_init.
  cbn [state with_state with_packet_state].
  match goal with
  | H : Z.land _ _ = 0 |- _ => rewrite H
  end.
  reflexivity.
Qed.

Lemma flush_request_init_ptl : packet_ptl flush_request_init = false.
Proof. reflexivity. Qed.

Lemma flush_request_init_refcnt : packet_refcnt flush_request_init = 1.
Proof. reflexivity. Qed.

(** Submission of the prepared flush request is refused only by a layer
    that has been shut down. *)
Lemma submit_flush_request rqst s :
  mem s rqst = flush_request_init ->
  wpt (ssh_rtl_submit rqst)
      (fun v s' =>
         calls s' = calls s
         /\ rtl_state (rtl s') = rtl_state (rtl s)
         /\ if Z.testbit (rtl_state (rtl s)) SSH_RTL_SF_SHUTDOWN_BIT
            then v = - ESHUTDOWN /\ queue_head (rtl s') = queue_head (rtl s)
            else v = 0
                 /\ queue_head (rtl s') = queue_head (rtl s) ++ [rqst]
                 /\ packet_ptl (mem s' rqst) = true
                 /\ packet_refcnt (mem s' rqst) = 2
                 /\ state (mem s' rqst)
                    = Z.setbit (BIT SSH_REQUEST_TY_FLUSH_BIT)
                               SSH_REQUEST_SF_QUEUED_BIT) s.
Proof.
  intros Hm. decls. unfold ssh_rtl_submit. wpt_run; afters.
  all: rewrite ?Hm, ?flush_request_init_state in *.
  all: rewrite ?testbit_BIT_other in * by bit_side.
  all: try discriminate.
  all: repeat match goal with
              | H : Z.testbit _ _ = _ |- _ => rewrite H
              end.
  all: repeat split; reflexivity.
Qed.

(** What [ssh_rtl_flush] can return.  If the layer has been shut down
    before the call, the submission is refused and the call returns
    -ESHUTDOWN at once, with nothing queued and no callback made.  Otherwise
    it returns only once the flush request has been released, and then with
    0 or with -ETIMEDOUT, the latter only if the request has been completed
    with -ECANCELED: the status the request was completed with is not
    returned. *)
Lemma ssh_rtl_flush_result rqst stack others1 ptl_completes others2 s :
  let since := length (calls s) in
  if Z.testbit (rtl_state (rtl s)) SSH_RTL_SF_SHUTDOWN_BIT
  then exists s',
         ssh_rtl_flush rqst stack others1 ptl_completes others2 s
         = Some (- ESHUTDOWN, s')
         /\ queue_head (rtl s') = queue_head (rtl s)
         /\ calls s' = calls s
  else forall v s',
         ssh_rtl_flush rqst stack others1 ptl_completes others2 s
         = Some (v, s') ->
         flush_released rqst since s' = Some (true, s')
         /\ (v = 0
             \/ v = - ETIMEDOUT
                /\ flush_request_status rqst since stack s'
                   = Some (- ECANCELED, s')).
Proof.
  intros since.
  assert (Hm : mem (on_rqst rqst (fun _ => flush_request_init) s) rqst
               = flush_request_init) by apply mem_on_rqst_same.
  pose proof (submit_flush_request rqst _ Hm) as Hsub.
  cbn [rtl calls on_rqst] in Hsub.
  destruct (Z.testbit (rtl_state (rtl s)) SSH_RTL_SF_SHUTDOWN_BIT) eqn:Hsd.
  - match goal with
    | |- exists s', _ = Some (?v, s') /\ @?Q s' =>
        cut (wpt (ssh_rtl_flush rqst stack others1 ptl_completes others2)
                 (fun v' s' => v' = v /\ Q s') s)
    end.
    { intros H. apply wpt_returns in H.
      destruct H as (v & s' & E & -> & H). exists s'. auto. }
    unfold ssh_rtl_flush. wpt_lin.
    eapply wpt_mono; [|exact Hsub].
    cbv beta. intros v s2 (Hc & Hr & -> & Hq).
    change (negb (- ESHUTDOWN =? 0)) with true. cbv iota.
    apply wpt_ret. auto.
  - intros v s' E.
    match goal with
    | |- ?Q =>
        cut (wp (ssh_rtl_flush rqst stack others1 ptl_completes others2)
                (fun v s' =>
                   flush_released rqst since s' = Some (true, s')
                   /\ (v = 0
                       \/ v = - ETIMEDOUT
                          /\ flush_request_status rqst since stack s'
                             = Some (- ECANCELED, s'))) s)
    end.
    { intros H. exact (wp_returned _ _ _ _ _ H E). }
    clear E. unfold ssh_rtl_flush. wp_lin.
    eapply wp_mono; [|apply wpt_wp; exact Hsub].
    cbv beta. intros v0 s2 (Hc & Hr & -> & _).
    change (negb (0 =? 0)) with false. cbv iota.
    apply wp_bind, wp_any. intros [] s3.
    apply wp_bind, wp_any. intros [] s4.
    unfold flush_released at 1. wp_lin.
    match goal with
    | |- wp (if ?b then _ else _) _ _ => destruct b eqn:Hdone
    end.
    + apply wp_ret. split; [|now left].
      unfold flush_released, gets, since. now rewrite Hdone.
    + apply wp_bind, wp_any. intros b s5.
      apply wp_bind, wp_any. intros [] s6.
      unfold flush_released at 1. wp_lin.
      match goal with
      | |- wp (if negb ?b then _ else _) _ _ => destruct b eqn:Hdone2
      end; cbn [negb]; [|exact I].
      unfold flush_request_status at 1. wp_lin.
      split.
      * unfold flush_released, gets, since. now rewrite Hdone2.
      * match goal with
        | |- context [if ?c then _ else _] => destruct c eqn:Hst
        end; [right|now left].
        split; [reflexivity|].
        apply Z.eqb_eq in Hst. unfold flush_request_status, gets, since.
        now rewrite Hst.
Qed.

(** *** Results and final states *)

Lemma result_after {A} (m : M A) s a :
  result m s = Some a -> m s = Some (a, after m s).
Proof.
  unfold result, after. destruct (m s) as [[a' s']|]; [|discriminate].
  now intros [= ->].
Qed.

(** *** Further properties of the layer *)

(** X1.  In every state the layer reaches from its initial state, a request
    whose PENDING flag is set is linked in the pending list, and the pending
    counter is at least the length of that list. *)
Theorem pending_flag_means_linked u ops s :
  run ops (boot u) = Some (tt, s) ->
  (forall r, Z.testbit (state (mem s r)) SSH_REQUEST_SF_PENDING_BIT = true ->
             In r (pending_head (rtl s)))
  /\ Z.of_nat (length (pending_head (rtl s))) <= pending_count (rtl s).
Proof.
  intros Hrun.
  pose proof (window_run ops (boot u) (pending_window_boot u)) as H.
  apply (wp_returned _ _ _ _ _ H) in Hrun.
  destruct Hrun as (Hin & Hlen & _). auto.
Qed.

(** X2.  No function of the layer clears LOCKED, TRANSMITTED, RSPRCVD,
    CANCELED or COMPLETED: whatever the threads of the layer do, such a flag
    of a request stays set once it is. *)
Theorem state_flags_stay_set r nr ops s s' :
  In nr [SSH_REQUEST_SF_LOCKED_BIT; SSH_REQUEST_SF_TRANSMITTED_BIT;
         SSH_REQUEST_SF_RSPRCVD_BIT; SSH_REQUEST_SF_CANCELED_BIT;
         SSH_REQUEST_SF_COMPLETED_BIT] ->
  Z.testbit (state (mem s r)) nr = true ->
  run ops s = Some (tt, s') ->
  Z.testbit (state (mem s' r)) nr = true.
Proof.
  intros Hin Hset Hrun.
  assert (Hst : sticky_flag nr).
  { decls. unfold sticky_flag.
    cbn [In] in Hin.
    destruct Hin as [<-|[<-|[<-|[<-|[<-|[]]]]]]; repeat split; bit_side. }
  apply (wp_returned (run ops) (fun _ => flag_set r nr) s tt);
    [|exact Hrun].
  now apply flag_kept_run.
Qed.

(** X3.  Started with the stored expiration, the loop of
    [ssh_rtl_timeout_reaper_mod] makes at most two exchanges or never ends:
    unrolling it further than twice changes neither its result nor the state
    it leaves. *)
Theorem reaper_mod_exchanges_twice fuel aexp expires s :
  (2 <= fuel)%nat ->
  reaper_mod_loop fuel aexp expires (rtx_timeout_expires (rtl s)) s =
  reaper_mod_loop 2 aexp expires (rtx_timeout_expires (rtl s)) s.
Proof. intros Hf. now apply reaper_mod_loop_fuel. Qed.

(** X4.  If adding the resolution to [expires] wraps around, so that the
    sum is before [expires] and before the stored expiration, the loop of
    [ssh_rtl_timeout_reaper_mod] does not end, however far it is
    unrolled. *)
Theorem reaper_mod_loop_never_ends fuel aexp expires s :
  ktime_before aexp (rtx_timeout_expires (rtl s)) = true ->
  ktime_before aexp expires = true ->
  reaper_mod_loop fuel aexp expires (rtx_timeout_expires (rtl s)) s = None.
Proof.
  intros T1 T2. destruct fuel as [|fuel]; cbn [reaper_mod_loop]; rewrite T1;
    [reflexivity|].
  unfold cmpxchg64_expires at 1. mred. rewrite Z.eqb_refl. cbv beta iota.
  destruct fuel as [|fuel]; cbn [reaper_mod_loop]; rewrite T1;
    [reflexivity|].
  unfold cmpxchg64_expires at 1. mred. ssimp.
  destruct (expires =? rtx_timeout_expires (rtl s)); cbv beta iota;
    apply reaper_mod_loop_spins; auto.
Qed.

(** X5.  The first call of [ssh_rtl_cancel] without the pending hint on a
    request that has never been submitted does not return: CANCELED, just
    set, makes the exchange of [ssh_rtl_cancel_nonpending] fail, and the
    function goes on to take the queue lock through the layer pointer of the
    request, which is NULL. *)
Theorem ssh_rtl_cancel_unsubmitted_nonpending r c s :
  packet_ptl (mem s r) = false ->
  Z.testbit (state (mem s r)) SSH_REQUEST_SF_CANCELED_BIT = false ->
  ssh_rtl_cancel r false c s = None.
Proof.
  intros Hptl Hc. decls.
  assert (Hset : Z.testbit (Z.setbit (state (mem s r))
                              SSH_REQUEST_SF_CANCELED_BIT)
                   SSH_REQUEST_SF_CANCELED_BIT = true)
    by now apply testbit_setbit_same.
  unfold ssh_rtl_cancel, ssh_rtl_cancel_nonpending. mred. ssimp.
  rewrite Hc. cbv beta iota. ssimp.
  rewrite (canceled_not_fixed _ Hset). cbv beta iota. ssimp.
  rewrite (testbit_nonzero _ _ Hset). cbn [andb]. cbv beta iota.
  ssimp. rewrite Hptl. reflexivity.
Qed.

(** X6.  A call of [ssh_rtl_cancel] without the pending hint that comes too
    late, for a submitted request that is no longer queued, returns false,
    completes nothing and leaves the queue and the pending set alone.  But it
    has set CANCELED: every later call of [ssh_rtl_cancel] on the request,
    also one with the pending hint, returns true at once and does nothing,
    so that the request stays where it is. *)
Theorem ssh_rtl_cancel_nonpending_too_late r c s :
  packet_ptl (mem s r) = true ->
  Z.testbit (state (mem s r)) SSH_REQUEST_SF_CANCELED_BIT = false ->
  Z.testbit (state (mem s r)) SSH_REQUEST_SF_QUEUED_BIT = false ->
  exists s1,
    ssh_rtl_cancel r false c s = Some (false, s1)
    /\ rtl s1 = rtl s /\ calls s1 = calls s
    /\ (forall r', r' <> r -> mem s1 r' = mem s r')
    /\ forall pending' c',
       exists s2, ssh_rtl_cancel r pending' c' s1 = Some (true, s2)
                  /\ same_sys s1 s2.
Proof.
  intros Hptl Hc Hq. decls.
  assert (Hset : Z.testbit (Z.setbit (state (mem s r))
                              SSH_REQUEST_SF_CANCELED_BIT)
                   SSH_REQUEST_SF_CANCELED_BIT = true)
    by now apply testbit_setbit_same.
  eexists. split.
  { unfold ssh_rtl_cancel, ssh_rtl_cancel_nonpending. mred. ssimp.
    rewrite Hc. cbv beta iota. ssimp.
    rewrite (canceled_not_fixed _ Hset). cbv beta iota. ssimp.
    rewrite (testbit_nonzero _ _ Hset). cbn [andb]. cbv beta iota.
    ssimp. rewrite Hptl. cbv beta iota. ssimp. bits. rewrite Hq.
    cbn [negb]. cbv beta iota. ssimp. reflexivity. }
  split; [reflexivity|]. split; [reflexivity|]. split.
  { intros r' Hne. now rewrite !mem_on_rqst_other. }
  intros pending' c'. apply ssh_rtl_cancel_again.
  unfold flag_set. ssimp. now bits.
Qed.

(** X7.  A call of [ssh_rtl_cancel] without the pending hint on a request
    that waits in the queue returns true: the request is unlinked from the
    queue, QUEUED is cleared, CANCELED, LOCKED and COMPLETED are set, the
    reference of the queue is dropped, and the request is completed with
    -ECANCELED, once, unless it was COMPLETED already.  The pending set and
    the completions of other requests are as before. *)
Theorem ssh_rtl_cancel_queued r c s :
  packet_ptl (mem s r) = true ->
  Z.testbit (state (mem s r)) SSH_REQUEST_SF_CANCELED_BIT = false ->
  Z.testbit (state (mem s r)) SSH_REQUEST_SF_QUEUED_BIT = true ->
  exists s',
    ssh_rtl_cancel r false c s = Some (true, s')
    /\ queue_head (rtl s') = list_del r (queue_head (rtl s))
    /\ pending_head (rtl s') = pending_head (rtl s)
    /\ pending_count (rtl s') = pending_count (rtl s)
    /\ state (mem s' r)
       = Z.setbit
           (Z.setbit
              (Z.clearbit
                 (Z.setbit (state (mem s r)) SSH_REQUEST_SF_CANCELED_BIT)
                 SSH_REQUEST_SF_QUEUED_BIT)
              SSH_REQUEST_SF_LOCKED_BIT)
           SSH_REQUEST_SF_COMPLETED_BIT
    /\ packet_refcnt (mem s' r) = packet_refcnt (mem s r) - 1
    /\ completions r (calls s')
       = completions r (calls s)
         ++ (if Z.testbit (state (mem s r)) SSH_REQUEST_SF_COMPLETED_BIT
             then [] else [Complete r None (- ECANCELED)])
    /\ forall r', r' <> r ->
         completions r' (calls s') = completions r' (calls s).
Proof.
  intros Hptl Hc Hq. decls.
  assert (Hset : Z.testbit (Z.setbit (state (mem s r))
                              SSH_REQUEST_SF_CANCELED_BIT)
                   SSH_REQUEST_SF_CANCELED_BIT = true)
    by now apply testbit_setbit_same.
  match goal with
  | |- exists s', _ = Some (?v, s') /\ @?Q s' =>
      cut (wpt (ssh_rtl_cancel r false c) (fun v' s' => v' = v /\ Q s') s)
  end.
  { intros H. apply wpt_returns in H.
    destruct H as (v & s' & E & -> & H). exists s'. auto. }
  unfold ssh_rtl_cancel. wpt_lin. rewrite Hc. cbv iota.
  unfold ssh_rtl_cancel_nonpending. wpt_lin.
  rewrite (canceled_not_fixed _ Hset). wpt_lin.
  rewrite (testbit_nonzero _ _ Hset). cbn [andb]. wpt_lin.
  rewrite Hptl. wpt_lin. bits. rewrite Hq. cbn [negb]. wpt_lin.
  afters. bits.
  destruct (Z.testbit (state (mem s r)) SSH_REQUEST_SF_COMPLETED_BIT);
    wpt_lin; afters; rewrite Hptl; cbn [andb]; wpt_lin; afters;
    rewrite ?mem_after_put; ssimp; rewrite ?completions_same;
    (repeat split; auto using app_nil_r);
    intros r' Hne; afters; rewrite ?completions_other by auto;
    now rewrite ?app_nil_r.
Qed.

(** X8.  When [ssh_ptl_submit] refuses the packet with -ESHUTDOWN, the
    transmitter sets LOCKED, takes the request out of the pending set and
    completes it with -ESHUTDOWN without looking at COMPLETED, which it
    leaves as it found it: a request that has been completed in the
    meantime is completed again. *)
Theorem tx_shutdown_completes_unguarded r s :
  packet_ptl (mem s r) = true ->
  exists s',
    tx_try_process_one_end r (- ESHUTDOWN) s = Some (- ESHUTDOWN, s')
    /\ completions r (calls s')
       = completions r (calls s) ++ [Complete r None (- ESHUTDOWN)]
    /\ Z.testbit (state (mem s' r)) SSH_REQUEST_SF_COMPLETED_BIT
       = Z.testbit (state (mem s r)) SSH_REQUEST_SF_COMPLETED_BIT
    /\ Z.testbit (state (mem s' r)) SSH_REQUEST_SF_LOCKED_BIT = true
    /\ Z.testbit (state (mem s' r)) SSH_REQUEST_SF_PENDING_BIT = false.
Proof.
  intros Hptl. decls.
  match goal with
  | |- exists s', _ = Some (?v, s') /\ @?Q s' =>
      cut (wpt (tx_try_process_one_end r (- ESHUTDOWN))
               (fun v' s' => v' = v /\ Q s') s)
  end.
  { intros H. apply wpt_returns in H.
    destruct H as (v & s' & E & -> & H). exists s'. auto. }
  unfold tx_try_process_one_end. rewrite Z.eqb_refl. wpt_lin. afters.
  rewrite after_pending_remove by (ssimp; assumption). ssimp. bits.
  rewrite completions_same.
  destruct (Z.testbit (state (mem s r)) SSH_REQUEST_SF_PENDING_BIT);
    afters; bits; repeat split; reflexivity.
Qed.

(** X9.  The acknowledgement of the packet of a request that expects no
    response completes the request: TRANSMITTED is set and TRANSMITTING
    cleared, the request is locked, leaves the pending set and is completed
    with status 0, once. *)
Theorem packet_callback_success_no_response r now s :
  packet_ptl (mem s r) = true ->
  Z.testbit (state (mem s r)) SSH_REQUEST_TY_HAS_RESPONSE_BIT = false ->
  Z.testbit (state (mem s r)) SSH_REQUEST_SF_COMPLETED_BIT = false ->
  exists s',
    ssh_rtl_packet_callback r 0 now s = Some (tt, s')
    /\ completions r (calls s') = completions r (calls s) ++ [Complete r None 0]
    /\ (forall r', r' <> r ->
          completions r' (calls s') = completions r' (calls s))
    /\ Z.testbit (state (mem s' r)) SSH_REQUEST_SF_TRANSMITTED_BIT = true
    /\ Z.testbit (state (mem s' r)) SSH_REQUEST_SF_TRANSMITTING_BIT = false
    /\ Z.testbit (state (mem s' r)) SSH_REQUEST_SF_LOCKED_BIT = true
    /\ Z.testbit (state (mem s' r)) SSH_REQUEST_SF_COMPLETED_BIT = true
    /\ Z.testbit (state (mem s' r)) SSH_REQUEST_SF_PENDING_BIT = false
    /\ queue_head (rtl s') = queue_head (rtl s)
    /\ if Z.testbit (state (mem s r)) SSH_REQUEST_SF_PENDING_BIT
       then pending_head (rtl s') = list_del r (pending_head (rtl s))
            /\ pending_count (rtl s') = pending_count (rtl s) - 1
       else pending_head (rtl s') = pending_head (rtl s)
            /\ pending_count (rtl s') = pending_count (rtl s).
Proof.
  intros Hptl Hrsp Hcompl. decls.
  match goal with
  | |- exists s', _ = Some (tt, s') /\ @?Q s' =>
      cut (wpt (ssh_rtl_packet_callback r 0 now) (fun _ => Q) s)
  end.
  { intros H. apply wpt_returns in H. destruct H as ([] & s' & E & H).
    exists s'. auto. }
  unfold ssh_rtl_packet_callback. rewrite Z.eqb_refl. cbn [negb].
  wpt_lin. bits. rewrite Hrsp. wpt_lin. bits. rewrite Hcompl. wpt_lin.
  match goal with
  | H : ssh_rtl_pending_remove _ _ = _ |- _ => clear H
  end.
  rewrite after_pending_remove by (ssimp; assumption). ssimp. bits.
  destruct (Z.testbit (state (mem s r)) SSH_REQUEST_SF_PENDING_BIT);
    afters; rewrite Hptl; wpt_lin; afters; bits;
    rewrite completions_same;
    (repeat split; auto);
    intros r' Hne; afters; rewrite ?completions_other by auto;
    now rewrite ?app_nil_r.
Qed.

(** X10.  The acknowledgement of the packet of a request that expects a
    response completes nothing: TRANSMITTED is set and TRANSMITTING cleared,
    the request is stamped with the current time, and queue and pending set
    stay as they are.  The reaper is set for the deadline of the request,
    that is [now] plus the timeout: if the deadline plus the resolution is
    before the stored expiration, the deadline is stored and the reaper work
    is rescheduled to run after the milliseconds from [now] to the deadline;
    otherwise the stored expiration is kept, and the work is left as it is
    unless the stored expiration is the deadline itself, in which case it is
    rescheduled all the same.  Either way the stored expiration is
    afterwards no later than the deadline plus the resolution. *)
Theorem packet_callback_success_starts_timeout r now s :
  packet_ptl (mem s r) = true ->
  Z.testbit (state (mem s r)) SSH_REQUEST_TY_HAS_RESPONSE_BIT = true ->
  Z.testbit (state (mem s r)) SSH_REQUEST_SF_LOCKED_BIT = false ->
  0 <= now -> 0 <= rtx_timeout_timeout (rtl s) ->
  now + rtx_timeout_timeout (rtl s) + SSH_RTL_REQUEST_TIMEOUT_RESOLUTION
    <= KTIME_MAX ->
  let deadline := now + rtx_timeout_timeout (rtl s) in
  let stored := rtx_timeout_expires (rtl s) in
  let delta := msecs_to_jiffies (ktime_ms_delta deadline now) in
  exists s',
    ssh_rtl_packet_callback r 0 now s = Some (tt, s')
    /\ calls s' = calls s
    /\ timestamp (mem s' r) = now
    /\ state (mem s' r)
       = Z.clearbit (Z.setbit (state (mem s r)) SSH_REQUEST_SF_TRANSMITTED_BIT)
                    SSH_REQUEST_SF_TRANSMITTING_BIT
    /\ queue_head (rtl s') = queue_head (rtl s)
    /\ pending_head (rtl s') = pending_head (rtl s)
    /\ pending_count (rtl s') = pending_count (rtl s)
    /\ rtx_timeout_expires (rtl s')
       = (if deadline + SSH_RTL_REQUEST_TIMEOUT_RESOLUTION <? stored
          then deadline else stored)
    /\ rtx_timeout_reaper (rtl s')
       = (if (deadline + SSH_RTL_REQUEST_TIMEOUT_RESOLUTION <? stored)
             || (stored =? deadline)
          then Some delta else rtx_timeout_reaper (rtl s))
    /\ rtx_timeout_expires (rtl s')
       <= deadline + SSH_RTL_REQUEST_TIMEOUT_RESOLUTION.
Proof.
  intros Hptl Hrsp Hl Hnow Hto Hmax deadline stored delta.
  pose proof resolution_pos as Hres.
  assert (Hw : wrap64 (now + rtx_timeout_timeout (rtl s)) = deadline).
  { apply wrap64_small. unfold KTIME_MAX in Hmax. lia. }
  decls.
  match goal with
  | |- exists s', _ = Some (tt, s') /\ @?Q s' =>
      cut (wpt (ssh_rtl_packet_callback r 0 now) (fun _ => Q) s)
  end.
  { intros H. apply wpt_returns in H. destruct H as ([] & s' & E & H).
    exists s'. auto. }
  unfold ssh_rtl_packet_callback. rewrite Z.eqb_refl. cbn [negb].
  wpt_lin. bits. rewrite Hrsp. cbv iota.
  unfold ssh_rtl_timeout_start. wpt_lin. rewrite Hptl. wpt_lin. bits.
  rewrite Hl. wpt_lin. rewrite Hw.
  unfold wpt. rewrite reaper_mod_returns by (ssimp; unfold deadline; zlia).
  ssimp. fold stored. fold delta.
  destruct (_ <? _) eqn:T; [|destruct (_ =? _) eqn:T'];
    cbn [orb]; ssimp;
    repeat split; try reflexivity;
    first [apply Z.ltb_lt in T | apply Z.ltb_ge in T];
    try apply Z.eqb_eq in T'; unfold deadline, stored in *; zlia.
Qed.

(** X11.  A packet that fails with [status] completes its request with that
    status, once: the request is locked, taken out of the queue and out of
    the pending set wherever it is, and marked COMPLETED. *)
Theorem packet_callback_failure_completes r status now s :
  status <> 0 ->
  packet_ptl (mem s r) = true ->
  Z.testbit (state (mem s r)) SSH_REQUEST_SF_COMPLETED_BIT = false ->
  exists s',
    ssh_rtl_packet_callback r status now s = Some (tt, s')
    /\ completions r (calls s')
       = completions r (calls s) ++ [Complete r None status]
    /\ (forall r', r' <> r ->
          completions r' (calls s') = completions r' (calls s))
    /\ Z.testbit (state (mem s' r)) SSH_REQUEST_SF_LOCKED_BIT = true
    /\ Z.testbit (state (mem s' r)) SSH_REQUEST_SF_COMPLETED_BIT = true
    /\ Z.testbit (state (mem s' r)) SSH_REQUEST_SF_QUEUED_BIT = false
    /\ Z.testbit (state (mem s' r)) SSH_REQUEST_SF_PENDING_BIT = false
    /\ queue_head (rtl s')
       = (if Z.testbit (state (mem s r)) SSH_REQUEST_SF_QUEUED_BIT
          then list_del r (queue_head (rtl s)) else queue_head (rtl s))
    /\ pending_head (rtl s')
       = (if Z.testbit (state (mem s r)) SSH_REQUEST_SF_PENDING_BIT
          then list_del r (pending_head (rtl s)) else pending_head (rtl s)).
Proof.
  intros Hs Hptl Hcompl. decls. apply Z.eqb_neq in Hs.
  match goal with
  | |- exists s', _ = Some (tt, s') /\ @?Q s' =>
      cut (wpt (ssh_rtl_packet_callback r status now) (fun _ => Q) s)
  end.
  { intros H. apply wpt_returns in H. destruct H as ([] & s' & E & H).
    exists s'. auto. }
  unfold ssh_rtl_packet_callback. rewrite Hs. cbn [negb].
  wpt_lin. bits. rewrite Hcompl. wpt_lin.
  repeat match goal with
         | H : _ = Some _ |- _ => clear H
         end.
  rewrite after_queue_remove by (ssimp; assumption). ssimp. bits.
  destruct (Z.testbit (state (mem s r)) SSH_REQUEST_SF_QUEUED_BIT);
    rewrite after_pending_remove by (afters; assumption); afters; bits;
    (destruct (Z.testbit (state (mem s r)) SSH_REQUEST_SF_PENDING_BIT);
     afters; rewrite Hptl; wpt_lin; afters; bits;
     rewrite completions_same;
     (repeat split; auto);
     intros r' Hne; afters; rewrite ?completions_other by auto;
     now rewrite ?app_nil_r).
Qed.

Lemma complete_scan_unmatched id l s :
  (forall p, In p l -> packet_data (mem s p) <> Some id) ->
  complete_scan id l s
  = if forallb (fun p => has_message (mem s p)) l
    then Some (NoMatch, s) else None.
Proof.
  induction l as [|p l IH]; intros Hl; cbn [complete_scan forallb];
    [reflexivity|].
  pose proof (Hl p (or_introl eq_refl)) as Hp.
  unfold has_message at 1. mred.
  destruct (packet_data (mem s p)) as [id'|] eqn:E; [|reflexivity].
  assert (Hne : (id' =? id) = false)
    by (apply Z.eqb_neq; intros ->; now apply Hp).
  rewrite Hne. cbn [negb andb].
  apply IH. intros p' Hin. apply Hl. now right.
Qed.

(** X12.  A response whose request id is carried by no pending request.
    If every pending request has a message, the response is dropped:
    [ssh_rtl_complete] returns and the system is as before.  If a pending
    request has none (a flush request: its [packet.data.ptr] is NULL), the
    scan reads the request id through that pointer in
    [ssh_request_get_rqid], and [ssh_rtl_complete] does not return. *)
Theorem ssh_rtl_complete_unknown_rqid command command_data s :
  (forall p, In p (pending_head (rtl s)) ->
     packet_data (mem s p) <> Some (rqid command)) ->
  ssh_rtl_complete command command_data s
  = if forallb (fun p => has_message (mem s p)) (pending_head (rtl s))
    then Some (tt, s) else None.
Proof.
  intros Hl. unfold ssh_rtl_complete. unfold bind at 1, gets at 1.
  unfold bind at 1. rewrite (complete_scan_unmatched _ _ _ Hl).
  now destruct (forallb _ _).
Qed.

(** X13.  A response for a pending request that has been completed in the
    meantime (by a cancellation, say) takes the request out of the pending
    set, marks it LOCKED and RSPRCVD and drops the reference of the pending
    set, but makes no call to [ops->complete]. *)
Theorem ssh_rtl_complete_already_completed command command_data r pre post s :
  pending_head (rtl s) = pre ++ r :: post ->
  (forall p, In p pre ->
     exists id', packet_data (mem s p) = Some id' /\ id' <> rqid command) ->
  packet_data (mem s r) = Some (rqid command) ->
  Z.testbit (state (mem s r)) SSH_REQUEST_SF_COMPLETED_BIT = true ->
  exists s',
    ssh_rtl_complete command command_data s = Some (tt, s')
    /\ pending_head (rtl s') = pre ++ post
    /\ pending_count (rtl s') = pending_count (rtl s) - 1
    /\ queue_head (rtl s') = queue_head (rtl s)
    /\ state (mem s' r)
       = Z.clearbit
           (Z.setbit (Z.setbit (state (mem s r)) SSH_REQUEST_SF_LOCKED_BIT)
                     SSH_REQUEST_SF_RSPRCVD_BIT)
           SSH_REQUEST_SF_PENDING_BIT
    /\ packet_refcnt (mem s' r) = packet_refcnt (mem s r) - 1
    /\ forall r', completions r' (calls s') = completions r' (calls s).
Proof.
  intros Hpend Hpre Hr Hcompl.
  assert (Hnin : ~ In r pre).
  { intros Hin. destruct (Hpre r Hin) as (id' & E & Hne). congruence. }
  decls.
  match goal with
  | |- exists s', _ = Some (tt, s') /\ @?Q s' =>
      cut (wpt (ssh_rtl_complete command command_data) (fun _ => Q) s)
  end.
  { intros H. apply wpt_returns in H. destruct H as ([] & s' & E & H).
    exists s'. auto. }
  unfold ssh_rtl_complete. wpt_step. wpt_step. apply wpt_bind.
  unfold wpt at 1. rewrite Hpend.
  rewrite (complete_scan_first_match _ _ _ _ _ Hpre Hr). cbv beta iota.
  wpt_lin. bits. rewrite Hcompl. cbv iota. wpt_lin. afters.
  rewrite Hpend, (list_del_app_first _ _ _ Hnin).
  rewrite mem_after_put. ssimp.
  assert (Hsame : Z.setbit
            (Z.clearbit
               (Z.setbit (Z.setbit (state (mem s r)) SSH_REQUEST_SF_LOCKED_BIT)
                         SSH_REQUEST_SF_RSPRCVD_BIT)
               SSH_REQUEST_SF_PENDING_BIT)
            SSH_REQUEST_SF_COMPLETED_BIT
          = Z.clearbit
              (Z.setbit (Z.setbit (state (mem s r)) SSH_REQUEST_SF_LOCKED_BIT)
                        SSH_REQUEST_SF_RSPRCVD_BIT)
              SSH_REQUEST_SF_PENDING_BIT).
  { apply setbit_already; [bit_side|]. now bits. }
  rewrite Hsame. repeat split; auto.
  intros r'. now afters.
Qed.

(** *** A request is completed at most once *)

(** Bring what is known about completions and COMPLETED flags in later
    states back to the earliest state. *)
Ltac frame_back :=
  unfold same_completion in *;
  repeat match goal with
         | Hf : (forall r, completions r _ = _) /\ _ |- _ =>
             let Hc := fresh "Hfc" in
             let Hb := fresh "Hfb" in
             destruct Hf as [Hc Hb]
         end;
  repeat first
    [ progress ssimp
    | rewrite completions_app
    | match goal with
      | Hc : forall r, completions r (calls ?s2) = _
        |- context [completions _ (calls ?s2)] => rewrite Hc
      | Hb : forall r, Z.testbit (state (mem ?s2 r)) _ = _
        |- context [Z.testbit (state (mem ?s2 _)) _] => rewrite Hb
      end ].

Ltac eqb_cases :=
  repeat first
    [ rewrite Nat.eqb_refl
    | match goal with
      | E : ?x <> ?y |- context [Nat.eqb ?x ?y] =>
          rewrite (proj2 (Nat.eqb_neq x y) E)
      | E : ?x <> ?y |- context [Nat.eqb ?y ?x] =>
          rewrite (proj2 (Nat.eqb_neq y x) (not_eq_sym E))
      | |- context [Nat.eqb ?x ?y] =>
          let E := fresh "E" in
          destruct (Nat.eq_dec x y) as [E|E];
          [ subst
          | rewrite ?(proj2 (Nat.eqb_neq x y) E),
                    ?(proj2 (Nat.eqb_neq y x) (not_eq_sym E)) ]
      end ].

Ltac frame_same :=
  solve
    [ frame_back; split; intros;
      frame_back; cbn [completions filter]; eqb_cases;
      frame_back; eqb_cases; bits; rewrite ?app_nil_r; reflexivity ].

Lemma frame_put r s :
  wp (ssh_request_put r) (fun _ => same_completion s) s.
Proof. decls. unfold ssh_request_put. wp_run; frame_same. Qed.

Lemma frame_tx_schedule s :
  wp ssh_rtl_tx_schedule (fun _ => same_completion s) s.
Proof. decls. unfold ssh_rtl_tx_schedule. wp_run; frame_same. Qed.

Ltac frame_call :=
  lazymatch goal with
  | |- wp (ssh_request_put _) _ _ => apply frame_put
  | |- wp ssh_rtl_tx_schedule _ _ => apply frame_tx_schedule
  end.

Lemma frame_queue_remove r s :
  wp (ssh_rtl_queue_remove r) (fun _ => same_completion s) s.
Proof.
  decls. unfold ssh_rtl_queue_remove.
  repeat wp_step_with ltac:(idtac; frame_call); frame_same.
Qed.

Lemma frame_pending_remove r s :
  wp (ssh_rtl_pending_remove r) (fun _ => same_completion s) s.
Proof.
  decls. unfold ssh_rtl_pending_remove.
  repeat wp_step_with ltac:(idtac; frame_call); frame_same.
Qed.

Create HintDb once_spec.

Ltac once_call :=
  first
    [ lazymatch goal with
      | |- wp (ssh_request_put _) _ _ => apply frame_put
      | |- wp ssh_rtl_tx_schedule _ _ => apply frame_tx_schedule
      | |- wp (ssh_rtl_queue_remove _) _ _ => apply frame_queue_remove
      | |- wp (ssh_rtl_pending_remove _) _ _ => apply frame_pending_remove
      end
    | match goal with
      | H : completed_once ?r _ |- wp _ ?Q _ =>
          match type of Q with
          | ?A -> _ => unify Q (fun _ : A => completed_once r)
          end;
          solve [eauto with once_spec]
      end ].

Ltac wp_run_once := repeat wp_step_with ltac:(idtac; once_call).

Ltac once_same :=
  solve
    [ match goal with
      | H : completed_once ?r _ |- completed_once ?r' _ =>
          unify r r';
          unfold completed_once in *;
          repeat match goal with
                 | Hn : negb _ = true |- _ => apply negb_true_iff in Hn
                 | Hn : negb _ = false |- _ => apply negb_false_iff in Hn
                 end;
          repeat match goal with
                 | Hb : Z.testbit _ SSH_REQUEST_SF_COMPLETED_BIT = _ |- _ =>
                     revert Hb
                 end;
          revert H;
          frame_back; cbn [completions filter]; eqb_cases;
          frame_back; eqb_cases; bits; rewrite ?app_nil_r;
          let H1 := fresh "H" in
          let H2 := fresh "H" in
          intros [H1 H2]; intros;
          try rewrite H1 by assumption;
          cbn [app length];
          (split; [intros; first [discriminate | auto] | auto with arith])
      end ].

#[local] Hint Extern 1 (completed_once _ _) => once_same : once_spec.
#[local] Hint Extern 1 (Z.testbit _ _ = true) =>
  solve [ssimp; bits; reflexivity] : once_spec.

Lemma once_kept_tx_pending_push r0 r s :
  completed_once r0 s ->
  wp (ssh_rtl_tx_pending_push r) (fun _ => completed_once r0) s.
Proof.
  intros Hb. decls. unfold ssh_rtl_tx_pending_push.
  wp_run_once; once_same.
Qed.
#[local] Hint Resolve once_kept_tx_pending_push : once_spec.

Lemma once_kept_tx_can_process r0 r s :
  completed_once r0 s ->
  wp (ssh_rtl_tx_can_process r) (fun _ => completed_once r0) s.
Proof.
  intros Hb. decls. unfold ssh_rtl_tx_can_process.
  wp_run_once; once_same.
Qed.
#[local] Hint Resolve once_kept_tx_can_process : once_spec.

Lemma once_kept_tx_next_scan r0 l : forall s,
  completed_once r0 s ->
  wp (tx_next_scan l) (fun _ => completed_once r0) s.
Proof.
  induction l as [|x l IH]; intros s Hb; decls;
    cbn [tx_next_scan]; wp_run_once; once_same.
Qed.
#[local] Hint Resolve once_kept_tx_next_scan : once_spec.

Lemma once_kept_tx_next r0 s :
  completed_once r0 s ->
  wp ssh_rtl_tx_next (fun _ => completed_once r0) s.
Proof.
  intros Hb. decls. unfold ssh_rtl_tx_next.
  wp_run_once; once_same.
Qed.
#[local] Hint Resolve once_kept_tx_next : once_spec.

Lemma once_kept_tx_begin r0 s :
  completed_once r0 s ->
  wp tx_try_process_one_begin (fun _ => completed_once r0) s.
Proof.
  intros Hb. decls. unfold tx_try_process_one_begin.
  wp_run_once; once_same.
Qed.
#[local] Hint Resolve once_kept_tx_begin : once_spec.

Lemma once_kept_tx_end r0 r status s :
  (status =? - ESHUTDOWN) = false ->
  completed_once r0 s ->
  wp (tx_try_process_one_end r status) (fun _ => completed_once r0) s.
Proof.
  intros Hs Hb. decls. unfold tx_try_process_one_end. rewrite Hs.
  wp_run_once; once_same.
Qed.
#[local] Hint Resolve once_kept_tx_end : once_spec.

Lemma once_kept_submit r0 r s :
  completed_once r0 s ->
  wp (ssh_rtl_submit r) (fun _ => completed_once r0) s.
Proof.
  intros Hb. decls. unfold ssh_rtl_submit.
  wp_run_once; once_same.
Qed.
#[local] Hint Resolve once_kept_submit : once_spec.

Lemma once_kept_reaper_mod_loop r0 fuel aexp expires : forall old s,
  completed_once r0 s ->
  wp (reaper_mod_loop fuel aexp expires old) (fun _ => completed_once r0) s.
Proof.
  induction fuel as [|fuel IH]; intros old s Hb; decls;
    cbn [reaper_mod_loop]; wp_run_once; once_same.
Qed.
#[local] Hint Resolve once_kept_reaper_mod_loop : once_spec.

Lemma once_kept_reaper_mod r0 now expires s :
  completed_once r0 s ->
  wp (ssh_rtl_timeout_reaper_mod now expires) (fun _ => completed_once r0) s.
Proof.
  intros Hb. decls. unfold ssh_rtl_timeout_reaper_mod.
  wp_run_once; once_same.
Qed.
#[local] Hint Resolve once_kept_reaper_mod : once_spec.

Lemma once_kept_timeout_start r0 r now s :
  completed_once r0 s ->
  wp (ssh_rtl_timeout_start r now) (fun _ => completed_once r0) s.
Proof.
  intros Hb. decls. unfold ssh_rtl_timeout_start.
  wp_run_once; once_same.
Qed.
#[local] Hint Resolve once_kept_timeout_start : once_spec.

Lemma once_kept_complete_scan r0 id l : forall s,
  completed_once r0 s ->
  wp (complete_scan id l) (fun _ => completed_once r0) s.
Proof.
  induction l as [|x l IH]; intros s Hb; decls;
    cbn [complete_scan]; wp_run_once; once_same.
Qed.
#[local] Hint Resolve once_kept_complete_scan : once_spec.

Lemma once_kept_complete r0 command command_data s :
  completed_once r0 s ->
  wp (ssh_rtl_complete command command_data) (fun _ => completed_once r0) s.
Proof.
  intros Hb. decls. unfold ssh_rtl_complete.
  wp_run_once; once_same.
Qed.
#[local] Hint Resolve once_kept_complete : once_spec.

Lemma once_kept_packet_callback r0 r status now s :
  completed_once r0 s ->
  wp (ssh_rtl_packet_callback r status now) (fun _ => completed_once r0) s.
Proof.
  intros Hb. decls. unfold ssh_rtl_packet_callback.
  wp_run_once; once_same.
Qed.
#[local] Hint Resolve once_kept_packet_callback : once_spec.

Lemma once_kept_ptl_cancel r0 r c s :
  completed_once r0 s ->
  wp (ssh_ptl_cancel r c) (fun _ => completed_once r0) s.
Proof.
  intros Hb. decls. unfold ssh_ptl_cancel.
  wp_run_once; once_same.
Qed.
#[local] Hint Resolve once_kept_ptl_cancel : once_spec.

Lemma once_kept_cancel_pending r0 r c s :
  completed_once r0 s ->
  wp (ssh_rtl_cancel_pending r c) (fun _ => completed_once r0) s.
Proof.
  intros Hb. decls. unfold ssh_rtl_cancel_pending.
  wp_run_once; once_same.
Qed.
#[local] Hint Resolve once_kept_cancel_pending : once_spec.

Lemma once_kept_cancel_nonpending r0 r s :
  Z.testbit (state (mem s r)) SSH_REQUEST_SF_CANCELED_BIT = true ->
  completed_once r0 s ->
  wp (ssh_rtl_cancel_nonpending r) (fun _ => completed_once r0) s.
Proof.
  intros Hc Hb. pose proof (canceled_not_fixed _ Hc) as Hne. decls.
  unfold ssh_rtl_cancel_nonpending. wp_run_once; try once_same; discriminate.
Qed.
#[local] Hint Resolve once_kept_cancel_nonpending : once_spec.

Lemma once_kept_cancel r0 r pending c s :
  completed_once r0 s ->
  wp (ssh_rtl_cancel r pending c) (fun _ => completed_once r0) s.
Proof.
  intros Hb. decls. unfold ssh_rtl_cancel.
  wp_run_once; once_same.
Qed.
#[local] Hint Resolve once_kept_cancel : once_spec.

Lemma once_kept_reap_scan r0 now timeout l : forall next s,
  completed_once r0 s ->
  wp (reap_scan now timeout l next) (fun _ => completed_once r0) s.
Proof.
  induction l as [|x l IH]; intros next s Hb; decls;
    cbn [reap_scan]; wp_run_once; once_same.
Qed.
#[local] Hint Resolve once_kept_reap_scan : once_spec.

Lemma once_kept_reap_claimed r0 l : forall s,
  completed_once r0 s ->
  wp (reap_claimed l) (fun _ => completed_once r0) s.
Proof.
  induction l as [|x l IH]; intros s Hb; decls;
    cbn [reap_claimed]; wp_run_once; once_same.
Qed.
#[local] Hint Resolve once_kept_reap_claimed : once_spec.

Lemma once_kept_reap r0 now s :
  completed_once r0 s ->
  wp (ssh_rtl_timeout_reap now) (fun _ => completed_once r0) s.
Proof.
  intros Hb. decls. unfold ssh_rtl_timeout_reap.
  wp_run_once; once_same.
Qed.
#[local] Hint Resolve once_kept_reap : once_spec.

Lemma once_kept_shutdown_claim_queue r0 l : forall s,
  completed_once r0 s ->
  wp (shutdown_claim_queue l) (fun _ => completed_once r0) s.
Proof.
  induction l as [|x l IH]; intros s Hb; decls;
    cbn [shutdown_claim_queue]; wp_run_once; once_same.
Qed.
#[local] Hint Resolve once_kept_shutdown_claim_queue : once_spec.

Lemma once_kept_shutdown_claim_pending r0 l : forall s,
  completed_once r0 s ->
  wp (shutdown_claim_pending l) (fun _ => completed_once r0) s.
Proof.
  induction l as [|x l IH]; intros s Hb; decls;
    cbn [shutdown_claim_pending]; wp_run_once; once_same.
Qed.
#[local] Hint Resolve once_kept_shutdown_claim_pending : once_spec.

Lemma once_kept_shutdown_complete r0 l : forall s,
  completed_once r0 s ->
  wp (shutdown_complete l) (fun _ => completed_once r0) s.
Proof.
  induction l as [|x l IH]; intros s Hb; decls;
    cbn [shutdown_complete]; wp_run_once; once_same.
Qed.
#[local] Hint Resolve once_kept_shutdown_complete : once_spec.

Lemma once_kept_cancel_tx_work_sync r0 tx_status s :
  (tx_status =? - ESHUTDOWN) = false ->
  completed_once r0 s ->
  wp (cancel_tx_work_sync tx_status) (fun _ => completed_once r0) s.
Proof.
  intros Hs Hb. decls. unfold cancel_tx_work_sync.
  wp_run_once; once_same.
Qed.
#[local] Hint Resolve once_kept_cancel_tx_work_sync : once_spec.

Lemma once_kept_ptl_shutdown r0 l : forall s,
  completed_once r0 s ->
  wp (ssh_ptl_shutdown l) (fun _ => completed_once r0) s.
Proof.
  induction l as [|x l IH]; intros s Hb; decls;
    cbn [ssh_ptl_shutdown]; wp_run_once; once_same.
Qed.
#[local] Hint Resolve once_kept_ptl_shutdown : once_spec.

Lemma once_kept_shutdown r0 tx_status ptl_failed s :
  (tx_status =? - ESHUTDOWN) = false ->
  completed_once r0 s ->
  wp (ssh_rtl_shutdown tx_status ptl_failed) (fun _ => completed_once r0) s.
Proof.
  intros Hs Hb. decls. unfold ssh_rtl_shutdown.
  wp_run_once; once_same.
Qed.
#[local] Hint Resolve once_kept_shutdown : once_spec.

Lemma once_kept_step r0 o s :
  op_no_ptl_shutdown o = true ->
  completed_once r0 s -> wp (step o) (fun _ => completed_once r0) s.
Proof.
  intros Ho Hb. decls.
  destruct o; cbn [step op_no_ptl_shutdown] in *;
    try apply negb_true_iff in Ho; wp_run_once; once_same.
Qed.

Lemma once_kept_run r0 ops : forall s,
  no_ptl_shutdown ops = true ->
  completed_once r0 s -> wp (run ops) (fun _ => completed_once r0) s.
Proof.
  induction ops as [|o ops IH]; intros s Ho Hb; cbn [run];
    [wp_run_once; once_same|].
  cbn [no_ptl_shutdown forallb] in Ho. apply andb_true_iff in Ho.
  destruct Ho as [Ho Hops].
  apply wp_bind. eapply wp_mono; [|apply once_kept_step; eassumption].
  intros [] s1 H1. cbv beta. apply IH; assumption.
Qed.

(** X14. Along a run from boot in which [ssh_ptl_submit] never answers
    -ESHUTDOWN, the completion callback of a request is called at most
    once, and only on a request whose COMPLETED flag is set. *)
Theorem complete_at_most_once u ops s r :
  no_ptl_shutdown ops = true ->
  run ops (boot u) = Some (tt, s) ->
  (length (completions r (calls s)) <= 1)%nat
  /\ (completions r (calls s) <> [] ->
      Z.testbit (state (mem s r)) SSH_REQUEST_SF_COMPLETED_BIT = true).
Proof.
  intros Ho Hrun.
  assert (H0 : completed_once r (boot u)).
  { unfold completed_once. cbn. auto with arith. }
  pose proof (once_kept_run r ops (boot u) Ho H0) as Hw.
  unfold wp in Hw. rewrite Hrun in Hw. destruct Hw as [Hz Hl].
  split; [exact Hl|].
  intros Hne.
  destruct (Z.testbit (state (mem s r)) SSH_REQUEST_SF_COMPLETED_BIT) eqn:E;
    [reflexivity|].
  exfalso. apply Hne. apply Hz. reflexivity.
Qed.

(** *** After the shutdown *)

Create HintDb shut_spec.

Ltac shut_call :=
  match goal with
  | H : shut_down _ |- wp _ ?Q _ =>
      match type of Q with
      | ?A -> _ => unify Q (fun _ : A => shut_down)
      end;
      solve [eauto with shut_spec]
  end.

Ltac wp_run_shut := repeat wp_step_with ltac:(idtac; shut_call).

Ltac shut_same :=
  solve
    [ unfold shut_down in *;
      repeat match goal with
             | H : _ /\ _ |- _ => destruct H
             end;
      repeat match goal with
             | Hb : Z.testbit (rtl_state _) _ = false |- _ => revert Hb
             end;
      ssimp;
      repeat match goal with
             | Hq : queue_head _ = [] |- _ => rewrite Hq
             end;
      cbn [list_del app]; intros;
      first
        [ congruence
        | split;
          [ first [assumption | apply testbit_setbit_keeps; [apply Z.le_refl|assumption]]
          | reflexivity ] ] ].

#[local] Hint Extern 1 (shut_down _) => shut_same : shut_spec.

Lemma shut_kept_put r s :
  shut_down s ->
  wp (ssh_request_put r) (fun _ => shut_down) s.
Proof.
  intros Hb. decls. unfold ssh_request_put.
  wp_run_shut; shut_same.
Qed.
#[local] Hint Resolve shut_kept_put : shut_spec.

Lemma shut_kept_tx_schedule s :
  shut_down s ->
  wp ssh_rtl_tx_schedule (fun _ => shut_down) s.
Proof.
  intros Hb. decls. unfold ssh_rtl_tx_schedule.
  wp_run_shut; shut_same.
Qed.
#[local] Hint Resolve shut_kept_tx_schedule : shut_spec.

Lemma shut_kept_queue_remove r s :
  shut_down s ->
  wp (ssh_rtl_queue_remove r) (fun _ => shut_down) s.
Proof.
  intros Hb. decls. unfold ssh_rtl_queue_remove.
  wp_run_shut; shut_same.
Qed.
#[local] Hint Resolve shut_kept_queue_remove : shut_spec.

Lemma shut_kept_pending_remove r s :
  shut_down s ->
  wp (ssh_rtl_pending_remove r) (fun _ => shut_down) s.
Proof.
  intros Hb. decls. unfold ssh_rtl_pending_remove.
  wp_run_shut; shut_same.
Qed.
#[local] Hint Resolve shut_kept_pending_remove : shut_spec.

Lemma shut_kept_tx_pending_push r s :
  shut_down s ->
  wp (ssh_rtl_tx_pending_push r) (fun _ => shut_down) s.
Proof.
  intros Hb. decls. unfold ssh_rtl_tx_pending_push.
  wp_run_shut; shut_same.
Qed.
#[local] Hint Resolve shut_kept_tx_pending_push : shut_spec.

Lemma shut_kept_tx_can_process r s :
  shut_down s ->
  wp (ssh_rtl_tx_can_process r) (fun _ => shut_down) s.
Proof.
  intros Hb. decls. unfold ssh_rtl_tx_can_process.
  wp_run_shut; shut_same.
Qed.
#[local] Hint Resolve shut_kept_tx_can_process : shut_spec.

Lemma shut_kept_tx_next_scan l : forall s,
  shut_down s ->
  wp (tx_next_scan l) (fun _ => shut_down) s.
Proof.
  induction l as [|x l IH]; intros s Hb; decls;
    cbn [tx_next_scan]; wp_run_shut; shut_same.
Qed.
#[local] Hint Resolve shut_kept_tx_next_scan : shut_spec.

Lemma shut_kept_tx_next s :
  shut_down s ->
  wp ssh_rtl_tx_next (fun _ => shut_down) s.
Proof.
  intros Hb. decls. unfold ssh_rtl_tx_next.
  wp_run_shut; shut_same.
Qed.
#[local] Hint Resolve shut_kept_tx_next : shut_spec.

Lemma shut_kept_tx_begin s :
  shut_down s ->
  wp tx_try_process_one_begin (fun _ => shut_down) s.
Proof.
  intros Hb. decls. unfold tx_try_process_one_begin.
  wp_run_shut; shut_same.
Qed.
#[local] Hint Resolve shut_kept_tx_begin : shut_spec.

Lemma shut_kept_tx_end r status s :
  shut_down s ->
  wp (tx_try_process_one_end r status) (fun _ => shut_down) s.
Proof.
  intros Hb. decls. unfold tx_try_process_one_end.
  wp_run_shut; shut_same.
Qed.
#[local] Hint Resolve shut_kept_tx_end : shut_spec.

Lemma shut_kept_submit r s :
  shut_down s ->
  wp (ssh_rtl_submit r) (fun _ => shut_down) s.
Proof.
  intros Hb. decls. unfold ssh_rtl_submit.
  wp_run_shut; shut_same.
Qed.
#[local] Hint Resolve shut_kept_submit : shut_spec.

Lemma shut_kept_reaper_mod_loop fuel aexp expires : forall old s,
  shut_down s ->
  wp (reaper_mod_loop fuel aexp expires old) (fun _ => shut_down) s.
Proof.
  induction fuel as [|fuel IH]; intros old s Hb; decls;
    cbn [reaper_mod_loop]; wp_run_shut; shut_same.
Qed.
#[local] Hint Resolve shut_kept_reaper_mod_loop : shut_spec.

Lemma shut_kept_reaper_mod now expires s :
  shut_down s ->
  wp (ssh_rtl_timeout_reaper_mod now expires) (fun _ => shut_down) s.
Proof.
  intros Hb. decls. unfold ssh_rtl_timeout_reaper_mod.
  wp_run_shut; shut_same.
Qed.
#[local] Hint Resolve shut_kept_reaper_mod : shut_spec.

Lemma shut_kept_timeout_start r now s :
  shut_down s ->
  wp (ssh_rtl_timeout_start r now) (fun _ => shut_down) s.
Proof.
  intros Hb. decls. unfold ssh_rtl_timeout_start.
  wp_run_shut; shut_same.
Qed.
#[local] Hint Resolve shut_kept_timeout_start : shut_spec.

Lemma shut_kept_complete_scan id l : forall s,
  shut_down s ->
  wp (complete_scan id l) (fun _ => shut_down) s.
Proof.
  induction l as [|x l IH]; intros s Hb; decls;
    cbn [complete_scan]; wp_run_shut; shut_same.
Qed.
#[local] Hint Resolve shut_kept_complete_scan : shut_spec.

Lemma shut_kept_complete command command_data s :
  shut_down s ->
  wp (ssh_rtl_complete command command_data) (fun _ => shut_down) s.
Proof.
  intros Hb. decls. unfold ssh_rtl_complete.
  wp_run_shut; shut_same.
Qed.
#[local] Hint Resolve shut_kept_complete : shut_spec.

Lemma shut_kept_packet_callback r status now s :
  shut_down s ->
  wp (ssh_rtl_packet_callback r status now) (fun _ => shut_down) s.
Proof.
  intros Hb. decls. unfold ssh_rtl_packet_callback.
  wp_run_shut; shut_same.
Qed.
#[local] Hint Resolve shut_kept_packet_callback : shut_spec.

Lemma shut_kept_ptl_cancel r c s :
  shut_down s ->
  wp (ssh_ptl_cancel r c) (fun _ => shut_down) s.
Proof.
  intros Hb. decls. unfold ssh_ptl_cancel.
  wp_run_shut; shut_same.
Qed.
#[local] Hint Resolve shut_kept_ptl_cancel : shut_spec.

Lemma shut_kept_cancel_pending r c s :
  shut_down s ->
  wp (ssh_rtl_cancel_pending r c) (fun _ => shut_down) s.
Proof.
  intros Hb. decls. unfold ssh_rtl_cancel_pending.
  wp_run_shut; shut_same.
Qed.
#[local] Hint Resolve shut_kept_cancel_pending : shut_spec.

Lemma shut_kept_cancel_nonpending r s :
  shut_down s ->
  wp (ssh_rtl_cancel_nonpending r) (fun _ => shut_down) s.
Proof.
  intros Hb. decls. unfold ssh_rtl_cancel_nonpending.
  wp_run_shut; shut_same.
Qed.
#[local] Hint Resolve shut_kept_cancel_nonpending : shut_spec.

Lemma shut_kept_cancel r pending c s :
  shut_down s ->
  wp (ssh_rtl_cancel r pending c) (fun _ => shut_down) s.
Proof.
  intros Hb. decls. unfold ssh_rtl_cancel.
  wp_run_shut; shut_same.
Qed.
#[local] Hint Resolve shut_kept_cancel : shut_spec.

Lemma shut_kept_reap_scan now timeout l : forall next s,
  shut_down s ->
  wp (reap_scan now timeout l next) (fun _ => shut_down) s.
Proof.
  induction l as [|x l IH]; intros next s Hb; decls;
    cbn [reap_scan]; wp_run_shut; shut_same.
Qed.
#[local] Hint Resolve shut_kept_reap_scan : shut_spec.

Lemma shut_kept_reap_claimed l : forall s,
  shut_down s ->
  wp (reap_claimed l) (fun _ => shut_down) s.
Proof.
  induction l as [|x l IH]; intros s Hb; decls;
    cbn [reap_claimed]; wp_run_shut; shut_same.
Qed.
#[local] Hint Resolve shut_kept_reap_claimed : shut_spec.

Lemma shut_kept_reap now s :
  shut_down s ->
  wp (ssh_rtl_timeout_reap now) (fun _ => shut_down) s.
Proof.
  intros Hb. decls. unfold ssh_rtl_timeout_reap.
  wp_run_shut; shut_same.
Qed.
#[local] Hint Resolve shut_kept_reap : shut_spec.

Lemma shut_kept_shutdown_claim_queue l : forall s,
  shut_down s ->
  wp (shutdown_claim_queue l) (fun _ => shut_down) s.
Proof.
  induction l as [|x l IH]; intros s Hb; decls;
    cbn [shutdown_claim_queue]; wp_run_shut; shut_same.
Qed.
#[local] Hint Resolve shut_kept_shutdown_claim_queue : shut_spec.

Lemma shut_kept_shutdown_claim_pending l : forall s,
  shut_down s ->
  wp (shutdown_claim_pending l) (fun _ => shut_down) s.
Proof.
  induction l as [|x l IH]; intros s Hb; decls;
    cbn [shutdown_claim_pending]; wp_run_shut; shut_same.
Qed.
#[local] Hint Resolve shut_kept_shutdown_claim_pending : shut_spec.

Lemma shut_kept_shutdown_complete l : forall s,
  shut_down s ->
  wp (shutdown_complete l) (fun _ => shut_down) s.
Proof.
  induction l as [|x l IH]; intros s Hb; decls;
    cbn [shutdown_complete]; wp_run_shut; shut_same.
Qed.
#[local] Hint Resolve shut_kept_shutdown_complete : shut_spec.

Lemma shut_kept_cancel_tx_work_sync tx_status s :
  shut_down s ->
  wp (cancel_tx_work_sync tx_status) (fun _ => shut_down) s.
Proof.
  intros Hb. decls. unfold cancel_tx_work_sync.
  wp_run_shut; shut_same.
Qed.
#[local] Hint Resolve shut_kept_cancel_tx_work_sync : shut_spec.

Lemma shut_kept_ptl_shutdown l : forall s,
  shut_down s ->
  wp (ssh_ptl_shutdown l) (fun _ => shut_down) s.
Proof.
  induction l as [|x l IH]; intros s Hb; decls;
    cbn [ssh_ptl_shutdown]; wp_run_shut; shut_same.
Qed.
#[local] Hint Resolve shut_kept_ptl_shutdown : shut_spec.

Lemma shut_kept_shutdown tx_status ptl_failed s :
  shut_down s ->
  wp (ssh_rtl_shutdown tx_status ptl_failed) (fun _ => shut_down) s.
Proof.
  intros Hb. decls. unfold ssh_rtl_shutdown.
  wp_run_shut; shut_same.
Qed.
#[local] Hint Resolve shut_kept_shutdown : shut_spec.

Create HintDb drain_spec.

Ltac drain_call :=
  match goal with
  | H : drained _ |- wp _ ?Q _ =>
      match type of Q with
      | ?A -> _ => unify Q (fun _ : A => drained)
      end;
      solve [eauto with drain_spec]
  end.

Ltac wp_run_drain := repeat wp_step_with ltac:(idtac; drain_call).

Ltac drain_same :=
  solve
    [ unfold drained, shut_down in *;
      repeat match goal with
             | H : _ /\ _ |- _ => destruct H
             end;
      repeat match goal with
             | Hb : Z.testbit (rtl_state _) _ = false |- _ => revert Hb
             end;
      ssimp;
      repeat match goal with
             | Hq : queue_head _ = [] |- _ => rewrite Hq
             | Hq : pending_head _ = [] |- _ => rewrite Hq
             end;
      cbn [list_del app]; intros;
      first
        [ congruence
        | split; [split|];
          [ first [assumption | apply testbit_setbit_keeps; [apply Z.le_refl|assumption]]
          | reflexivity
          | reflexivity ] ] ].

#[local] Hint Extern 1 (drained _) => drain_same : drain_spec.

Lemma drain_kept_put r s :
  drained s ->
  wp (ssh_request_put r) (fun _ => drained) s.
Proof.
  intros Hb. decls. unfold ssh_request_put.
  wp_run_drain; drain_same.
Qed.
#[local] Hint Resolve drain_kept_put : drain_spec.

Lemma drain_kept_tx_schedule s :
  drained s ->
  wp ssh_rtl_tx_schedule (fun _ => drained) s.
Proof.
  intros Hb. decls. unfold ssh_rtl_tx_schedule.
  wp_run_drain; drain_same.
Qed.
#[local] Hint Resolve drain_kept_tx_schedule : drain_spec.

Lemma drain_kept_queue_remove r s :
  drained s ->
  wp (ssh_rtl_queue_remove r) (fun _ => drained) s.
Proof.
  intros Hb. decls. unfold ssh_rtl_queue_remove.
  wp_run_drain; drain_same.
Qed.
#[local] Hint Resolve drain_kept_queue_remove : drain_spec.

Lemma drain_kept_pending_remove r s :
  drained s ->
  wp (ssh_rtl_pending_remove r) (fun _ => drained) s.
Proof.
  intros Hb. decls. unfold ssh_rtl_pending_remove.
  wp_run_drain; drain_same.
Qed.
#[local] Hint Resolve drain_kept_pending_remove : drain_spec.

Lemma drain_kept_tx_can_process r s :
  drained s ->
  wp (ssh_rtl_tx_can_process r) (fun _ => drained) s.
Proof.
  intros Hb. decls. unfold ssh_rtl_tx_can_process.
  wp_run_drain; drain_same.
Qed.
#[local] Hint Resolve drain_kept_tx_can_process : drain_spec.

Lemma drain_kept_tx_next_scan l : forall s,
  drained s ->
  wp (tx_next_scan l) (fun _ => drained) s.
Proof.
  induction l as [|x l IH]; intros s Hb; decls;
    cbn [tx_next_scan]; wp_run_drain; drain_same.
Qed.
#[local] Hint Resolve drain_kept_tx_next_scan : drain_spec.

Lemma drain_kept_tx_next s :
  drained s ->
  wp ssh_rtl_tx_next (fun _ => drained) s.
Proof.
  intros Hb. decls. unfold ssh_rtl_tx_next.
  wp_run_drain; drain_same.
Qed.
#[local] Hint Resolve drain_kept_tx_next : drain_spec.

Lemma drain_kept_tx_begin s :
  drained s ->
  wp tx_try_process_one_begin (fun _ => drained) s.
Proof.
  intros Hb. decls. pose proof Hb as [[_ Hq] _].
  unfold tx_try_process_one_begin, ssh_rtl_tx_next.
  wp_step. wp_step. wp_step. rewrite Hq. cbn [tx_next_scan].
  wp_run_drain; drain_same.
Qed.
#[local] Hint Resolve drain_kept_tx_begin : drain_spec.

Lemma drain_kept_tx_end r status s :
  drained s ->
  wp (tx_try_process_one_end r status) (fun _ => drained) s.
Proof.
  intros Hb. decls. unfold tx_try_process_one_end.
  wp_run_drain; drain_same.
Qed.
#[local] Hint Resolve drain_kept_tx_end : drain_spec.

Lemma drain_kept_submit r s :
  drained s ->
  wp (ssh_rtl_submit r) (fun _ => drained) s.
Proof.
  intros Hb. decls. unfold ssh_rtl_submit.
  wp_run_drain; drain_same.
Qed.
#[local] Hint Resolve drain_kept_submit : drain_spec.

Lemma drain_kept_reaper_mod_loop fuel aexp expires : forall old s,
  drained s ->
  wp (reaper_mod_loop fuel aexp expires old) (fun _ => drained) s.
Proof.
  induction fuel as [|fuel IH]; intros old s Hb; decls;
    cbn [reaper_mod_loop]; wp_run_drain; drain_same.
Qed.
#[local] Hint Resolve drain_kept_reaper_mod_loop : drain_spec.

Lemma drain_kept_reaper_mod now expires s :
  drained s ->
  wp (ssh_rtl_timeout_reaper_mod now expires) (fun _ => drained) s.
Proof.
  intros Hb. decls. unfold ssh_rtl_timeout_reaper_mod.
  wp_run_drain; drain_same.
Qed.
#[local] Hint Resolve drain_kept_reaper_mod : drain_spec.

Lemma drain_kept_timeout_start r now s :
  drained s ->
  wp (ssh_rtl_timeout_start r now) (fun _ => drained) s.
Proof.
  intros Hb. decls. unfold ssh_rtl_timeout_start.
  wp_run_drain; drain_same.
Qed.
#[local] Hint Resolve drain_kept_timeout_start : drain_spec.

Lemma drain_kept_complete_scan id l : forall s,
  drained s ->
  wp (complete_scan id l) (fun _ => drained) s.
Proof.
  induction l as [|x l IH]; intros s Hb; decls;
    cbn [complete_scan]; wp_run_drain; drain_same.
Qed.
#[local] Hint Resolve drain_kept_complete_scan : drain_spec.

Lemma drain_kept_complete command command_data s :
  drained s ->
  wp (ssh_rtl_complete command command_data) (fun _ => drained) s.
Proof.
  intros Hb. decls. unfold ssh_rtl_complete.
  wp_run_drain; drain_same.
Qed.
#[local] Hint Resolve drain_kept_complete : drain_spec.

Lemma drain_kept_packet_callback r status now s :
  drained s ->
  wp (ssh_rtl_packet_callback r status now) (fun _ => drained) s.
Proof.
  intros Hb. decls. unfold ssh_rtl_packet_callback.
  wp_run_drain; drain_same.
Qed.
#[local] Hint Resolve drain_kept_packet_callback : drain_spec.

Lemma drain_kept_ptl_cancel r c s :
  drained s ->
  wp (ssh_ptl_cancel r c) (fun _ => drained) s.
Proof.
  intros Hb. decls. unfold ssh_ptl_cancel.
  wp_run_drain; drain_same.
Qed.
#[local] Hint Resolve drain_kept_ptl_cancel : drain_spec.

Lemma drain_kept_cancel_pending r c s :
  drained s ->
  wp (ssh_rtl_cancel_pending r c) (fun _ => drained) s.
Proof.
  intros Hb. decls. unfold ssh_rtl_cancel_pending.
  wp_run_drain; drain_same.
Qed.
#[local] Hint Resolve drain_kept_cancel_pending : drain_spec.

Lemma drain_kept_cancel_nonpending r s :
  drained s ->
  wp (ssh_rtl_cancel_nonpending r) (fun _ => drained) s.
Proof.
  intros Hb. decls. unfold ssh_rtl_cancel_nonpending.
  wp_run_drain; drain_same.
Qed.
#[local] Hint Resolve drain_kept_cancel_nonpending : drain_spec.

Lemma drain_kept_cancel r pending c s :
  drained s ->
  wp (ssh_rtl_cancel r pending c) (fun _ => drained) s.
Proof.
  intros Hb. decls. unfold ssh_rtl_cancel.
  wp_run_drain; drain_same.
Qed.
#[local] Hint Resolve drain_kept_cancel : drain_spec.

Lemma drain_kept_reap_scan now timeout l : forall next s,
  drained s ->
  wp (reap_scan now timeout l next) (fun _ => drained) s.
Proof.
  induction l as [|x l IH]; intros next s Hb; decls;
    cbn [reap_scan]; wp_run_drain; drain_same.
Qed.
#[local] Hint Resolve drain_kept_reap_scan : drain_spec.

Lemma drain_kept_reap_claimed l : forall s,
  drained s ->
  wp (reap_claimed l) (fun _ => drained) s.
Proof.
  induction l as [|x l IH]; intros s Hb; decls;
    cbn [reap_claimed]; wp_run_drain; drain_same.
Qed.
#[local] Hint Resolve drain_kept_reap_claimed : drain_spec.

Lemma drain_kept_reap now s :
  drained s ->
  wp (ssh_rtl_timeout_reap now) (fun _ => drained) s.
Proof.
  intros Hb. decls. unfold ssh_rtl_timeout_reap.
  wp_run_drain; drain_same.
Qed.
#[local] Hint Resolve drain_kept_reap : drain_spec.

Lemma drain_kept_shutdown_claim_queue l : forall s,
  drained s ->
  wp (shutdown_claim_queue l) (fun _ => drained) s.
Proof.
  induction l as [|x l IH]; intros s Hb; decls;
    cbn [shutdown_claim_queue]; wp_run_drain; drain_same.
Qed.
#[local] Hint Resolve drain_kept_shutdown_claim_queue : drain_spec.

Lemma drain_kept_shutdown_claim_pending l : forall s,
  drained s ->
  wp (shutdown_claim_pending l) (fun _ => drained) s.
Proof.
  induction l as [|x l IH]; intros s Hb; decls;
    cbn [shutdown_claim_pending]; wp_run_drain; drain_same.
Qed.
#[local] Hint Resolve drain_kept_shutdown_claim_pending : drain_spec.

Lemma drain_kept_shutdown_complete l : forall s,
  drained s ->
  wp (shutdown_complete l) (fun _ => drained) s.
Proof.
  induction l as [|x l IH]; intros s Hb; decls;
    cbn [shutdown_complete]; wp_run_drain; drain_same.
Qed.
#[local] Hint Resolve drain_kept_shutdown_complete : drain_spec.

Lemma drain_kept_cancel_tx_work_sync tx_status s :
  drained s ->
  wp (cancel_tx_work_sync tx_status) (fun _ => drained) s.
Proof.
  intros Hb. decls. unfold cancel_tx_work_sync.
  wp_run_drain; drain_same.
Qed.
#[local] Hint Resolve drain_kept_cancel_tx_work_sync : drain_spec.

Lemma drain_kept_ptl_shutdown l : forall s,
  drained s ->
  wp (ssh_ptl_shutdown l) (fun _ => drained) s.
Proof.
  induction l as [|x l IH]; intros s Hb; decls;
    cbn [ssh_ptl_shutdown]; wp_run_drain; drain_same.
Qed.
#[local] Hint Resolve drain_kept_ptl_shutdown : drain_spec.

Lemma drain_kept_shutdown tx_status ptl_failed s :
  drained s ->
  wp (ssh_rtl_shutdown tx_status ptl_failed) (fun _ => drained) s.
Proof.
  intros Hb. decls. unfold ssh_rtl_shutdown.
  wp_run_drain; drain_same.
Qed.
#[local] Hint Resolve drain_kept_shutdown : drain_spec.



Lemma wp_conj {A} (m : M A) (Q1 Q2 : A -> sys -> Prop) s :
  wp m Q1 s -> wp m Q2 s -> wp m (fun a s' => Q1 a s' /\ Q2 a s') s.
Proof. unfold wp. destruct (m s) as [[a s']|]; auto. Qed.

Lemma shutdown_claim_queue_shuts l : forall s,
  Z.testbit (rtl_state (rtl s)) SSH_RTL_SF_SHUTDOWN_BIT = true ->
  queue_head (rtl s) = l ->
  wp (shutdown_claim_queue l) (fun _ => shut_down) s.
Proof.
  induction l as [|x l IH]; intros s Hs Hq; cbn [shutdown_claim_queue].
  - apply wp_ret. split; assumption.
  - unfold set_bit, clear_bit. apply wp_bind, wp_modify. cbv beta.
    apply wp_bind, wp_modify. cbv beta. apply wp_bind, wp_modify. cbv beta.
    apply IH; ssimp; [assumption|].
    rewrite Hq. cbn [list_del]. now rewrite Nat.eqb_refl.
Qed.

Lemma shutdown_claim_pending_drains l : forall s,
  shut_down s ->
  pending_head (rtl s) = l ->
  wp (shutdown_claim_pending l)
     (fun _ s' => drained s'
                  /\ rtx_timeout_reaper (rtl s') = rtx_timeout_reaper (rtl s))
     s.
Proof.
  induction l as [|x l IH]; intros s Hs Hq; cbn [shutdown_claim_pending].
  - apply wp_ret. repeat split; solve [assumption | apply Hs].
  - unfold set_bit, clear_bit. apply wp_bind, wp_modify. cbv beta.
    apply wp_bind, wp_modify. cbv beta. apply wp_bind, wp_modify. cbv beta.
    eapply wp_mono; [|apply IH].
    + cbv beta. intros _ s' [Hd Hr]. split; [exact Hd|].
      rewrite Hr. reflexivity.
    + destruct Hs as [Hs1 Hs2]. split; ssimp; assumption.
    + ssimp. rewrite Hq. cbn [list_del]. now rewrite Nat.eqb_refl.
Qed.

Lemma shutdown_complete_rtl l : forall s0 s,
  rtl s = rtl s0 ->
  wp (shutdown_complete l) (fun _ s' => rtl s' = rtl s0) s.
Proof.
  induction l as [|x l IH]; intros s0 s Hr; cbn [shutdown_complete];
    unfold ssh_request_put; wp_run; try assumption; apply IH; ssimp;
    assumption.
Qed.

(** X15.  What [ssh_rtl_shutdown] leaves behind.  Called in any state the
    layer reaches from its initial state, it returns with the SHUTDOWN flag
    set, the queue empty, the pending set empty and no reaper scheduled,
    whatever the transmitter and the packet layer answer meanwhile. *)
Theorem ssh_rtl_shutdown_drains u ops tx_status ptl_failed s s' :
  run ops (boot u) = Some (tt, s) ->
  ssh_rtl_shutdown tx_status ptl_failed s = Some (tt, s') ->
  Z.testbit (rtl_state (rtl s')) SSH_RTL_SF_SHUTDOWN_BIT = true
  /\ queue_head (rtl s') = []
  /\ pending_head (rtl s') = []
  /\ rtx_timeout_reaper (rtl s') = None.
Proof.
  intros Hrun Hsd.
  pose proof (wp_returned _ _ _ _ _
                (window_run ops (boot u) (pending_window_boot u)) Hrun) as Hw.
  cbv beta in Hw.
  cut (wp (ssh_rtl_shutdown tx_status ptl_failed)
          (fun _ s' => drained s' /\ rtx_timeout_reaper (rtl s') = None) s).
  { intros H. apply (wp_returned _ _ _ _ _ H) in Hsd.
    destruct Hsd as [[[H1 H2] H3] H4]. auto. }
  decls. unfold ssh_rtl_shutdown.
  apply wp_bind, wp_modify. cbv beta. apply wp_bind, wp_gets. cbv beta.
  ssimp. apply wp_bind.
  eapply wp_mono;
    [|apply wp_conj;
      [apply shutdown_claim_queue_shuts;
       [ssimp; apply testbit_setbit_same, Z.le_refl|reflexivity]
      |apply window_shutdown_claim_queue; window]].
  cbv beta. intros _ s1 [Hs1 Hw1]. apply wp_bind.
  eapply wp_mono;
    [|apply wp_conj;
      [apply shut_kept_cancel_tx_work_sync, Hs1
      |apply window_cancel_tx_work_sync, Hw1]].
  cbv beta. intros _ s2 [Hs2 Hw2]. apply wp_bind.
  eapply wp_mono;
    [|apply wp_conj;
      [apply shut_kept_ptl_shutdown, Hs2
      |apply window_ptl_shutdown, Hw2]].
  cbv beta. intros _ s3 [Hs3 Hw3].
  apply wp_bind, wp_modify. cbv beta. unfold pending_count_read.
  apply wp_bind, wp_gets. cbv beta. ssimp. apply wp_bind.
  destruct (negb (pending_count (rtl s3) =? 0)) eqn:E.
  - apply wp_bind, wp_gets. cbv beta. ssimp. apply wp_bind.
    eapply wp_mono;
      [|apply shutdown_claim_pending_drains;
        [destruct Hs3; split; ssimp; assumption|reflexivity]].
    cbv beta. intros _ s4 [Hdr Hr]. apply wp_ret.
    eapply wp_mono; [|apply (shutdown_complete_rtl _ s4); reflexivity].
    cbv beta. intros _ s5 E5. unfold drained, shut_down in *.
    rewrite E5. ssimp. split; [exact Hdr|]. rewrite Hr. reflexivity.
  - apply wp_ret.
    eapply wp_mono;
      [|apply (shutdown_complete_rtl _ (on_rtl (with_reaper None) s3));
        reflexivity].
    cbv beta. intros _ s5 E5. unfold drained, shut_down in *.
    rewrite E5. ssimp. destruct Hs3 as [Hs31 Hs32].
    destruct Hw3 as (_ & Hlen & _).
    apply negb_false_iff, Z.eqb_eq in E. rewrite E in Hlen.
    destruct (pending_head (rtl s3)) as [|p t];
      [repeat split; assumption|].
    cbn [length] in Hlen. rewrite Nat2Z.inj_succ in Hlen. zlia.
Qed.


End Properties.

(** * Concrete runs *)

Lemma sample_decls_ok : @decls_ok sample_decls = true.
Proof. reflexivity. Qed.

(** C1 fails in the code.  Request 0 is submitted (with result 0) and
    dequeued; while the transmitter is inside [ssh_ptl_submit] the request is
    cancelled, which completes it with -ECANCELED; the packet layer, shut
    down in the meantime, refuses the packet with -ESHUTDOWN, and the
    transmitter completes the request a second time: that path does not
    test COMPLETED. *)
Theorem complete_called_twice :
  result (@ssh_rtl_submit sample_decls 0%nat) sample_boot = Some 0
  /\ result (@run sample_decls sample_twice_ops) sample_boot = Some tt
  /\ completions 0%nat (calls (sample_run sample_twice_ops sample_boot))
     = [Complete 0%nat None (- ECANCELED); Complete 0%nat None (- ESHUTDOWN)].
Proof. repeat split; vm_compute; reflexivity. Qed.

(** C2 on a run in which four requests compete for the three places. *)
Lemma pending_never_exceeds_max_witness :
  @decls_ok sample_decls = true
  /\ @run sample_decls sample_busy_ops (@boot sample_decls sample_setup)
     = Some (tt, sample_run sample_busy_ops sample_boot)
  /\ pending_count (rtl (sample_run sample_busy_ops sample_boot)) <= 3
  /\ (length (pending_head (rtl (sample_run sample_busy_ops sample_boot)))
      <= 3)%nat.
Proof.
  assert (R : result (@run sample_decls sample_busy_ops) sample_boot = Some tt)
    by (vm_compute; reflexivity).
  pose proof (result_after (@run sample_decls sample_busy_ops) sample_boot
                tt R) as E.
  split; [reflexivity|]. split; [exact E|].
  exact (@pending_never_exceeds_max sample_decls eq_refl sample_setup
           sample_busy_ops (sample_run sample_busy_ops sample_boot) E).
Defined.

(** C3 on the first submission of request 0. *)
Lemma ssh_rtl_submit_result_witness :
  @decls_ok sample_decls = true
  /\ exists v s',
       @ssh_rtl_submit sample_decls 0%nat sample_boot = Some (v, s')
       /\ v = 0 /\ queue_head (rtl s') = [0%nat].
Proof.
  split; [reflexivity|].
  destruct (@ssh_rtl_submit_result sample_decls eq_refl 0%nat sample_boot)
    as (v & s' & E & H).
  exists v, s'. split; [exact E|].
  vm_compute in H. destruct H as (Hv & _ & _ & Hq). split; assumption.
Defined.

(** A flush during which nothing else happens: the wait times out, the
    cancellation completes the flush request with -ECANCELED, and the call
    returns -ETIMEDOUT. *)
Lemma ssh_rtl_flush_result_witness :
  @decls_ok sample_decls = true
  /\ sample_flush sample_boot
     = Some (- ETIMEDOUT, after sample_flush sample_boot)
  /\ flush_released 5%nat 0 (after sample_flush sample_boot)
     = Some (true, after sample_flush sample_boot)
  /\ (- ETIMEDOUT = 0
      \/ - ETIMEDOUT = - ETIMEDOUT
         /\ flush_request_status 5%nat 0 0 (after sample_flush sample_boot)
            = Some (- ECANCELED, after sample_flush sample_boot)).
Proof.
  assert (R : result sample_flush sample_boot = Some (- ETIMEDOUT))
    by (vm_compute; reflexivity).
  pose proof (result_after sample_flush sample_boot (- ETIMEDOUT) R) as E.
  split; [reflexivity|]. split; [exact E|].
  pose proof (@ssh_rtl_flush_result sample_decls eq_refl 5%nat 0 (ret tt)
                false (ret tt) sample_boot) as H.
  assert (Hsd : Z.testbit (rtl_state (rtl sample_boot))
                  SSH_RTL_SF_SHUTDOWN_BIT = false) by reflexivity.
  cbv zeta in H. rewrite Hsd in H.
  change (length (calls sample_boot)) with 0%nat in H.
  exact (H (- ETIMEDOUT) _ E).
Defined.

(** C4 fails in the code.  [ssh_rtl_flush] returns 0 although the flush
    request has been completed with an error:
    - the layer is shut down while the flush waits; the shutdown completes
      the queued flush request with -ESHUTDOWN and releases it, and the
      first wait ends in time;
    - the packet layer fails the packet of the flush request with -ESHUTDOWN
      while the transmitter still holds its reference; the first wait times
      out, the cancellation finds the request locked, the layer is shut
      down, and the request is released during the second wait;
    - the same with a packet interrupted (-EINTR), the transmitter returning
      during the second wait.
    In the last two the result is the [status] of the last line of the
    function, which is what [ssh_rtl_submit] returned, 0, and not
    [rqst.status]. *)
Theorem flush_returns_zero_after_shutdown :
  result sample_flush_shutdown sample_boot = Some 0
  /\ calls (after sample_flush_shutdown sample_boot)
     = [Complete 5%nat None (- ESHUTDOWN); Release 5%nat]
  /\ Z.testbit (rtl_state (rtl (after sample_flush_shutdown sample_boot)))
       SSH_RTL_SF_SHUTDOWN_BIT = true
  /\ result sample_flush_late_shutdown sample_boot = Some 0
  /\ calls (after sample_flush_late_shutdown sample_boot)
     = [Complete 5%nat None (- ESHUTDOWN); Release 5%nat]
  /\ Z.testbit
       (rtl_state (rtl (after sample_flush_late_shutdown sample_boot)))
       SSH_RTL_SF_SHUTDOWN_BIT = true
  /\ result sample_flush_interrupted sample_boot = Some 0
  /\ calls (after sample_flush_interrupted sample_boot)
     = [Complete 5%nat None (- EINTR); Release 5%nat].
Proof. repeat split; vm_compute; reflexivity. Qed.

(** Hence [ssh_rtl_flush] does not report every shutdown that precedes the
    completion of the flush request. *)
Lemma flush_hides_shutdown : ~ @flush_reports_shutdown sample_decls.
Proof.
  intros H.
  assert (R : result sample_flush_shutdown sample_boot = Some 0)
    by (vm_compute; reflexivity).
  pose proof (result_after sample_flush_shutdown sample_boot 0 R) as E.
  specialize (H 5%nat 0 (@ssh_rtl_shutdown sample_decls 0 []) false (ret tt)
                sample_boot 0 (after sample_flush_shutdown sample_boot) E).
  assert (Hv : 0 = - ESHUTDOWN).
  { apply H; vm_compute; auto. }
  discriminate Hv.
Qed.

(** C5 on a response that overtakes the acknowledgement of the packet. *)
Lemma ssh_rtl_complete_matched_witness :
  pending_head (rtl sample_pending) = [] ++ 0%nat :: []
  /\ packet_data (mem sample_pending 0%nat) = Some 0
  /\ packet_ptl (mem sample_pending 0%nat) = true
  /\ Z.testbit (state (mem sample_pending 0%nat))
       (@SSH_REQUEST_SF_COMPLETED_BIT sample_decls) = false
  /\ exists s',
       @ssh_rtl_complete sample_decls {| rqid := 0 |} [] sample_pending
       = Some (tt, s')
       /\ completions 0%nat (calls s') = [Complete 0%nat None (- EREMOTEIO)].
Proof.
  assert (H1 : pending_head (rtl sample_pending) = [] ++ 0%nat :: [])
    by (vm_compute; reflexivity).
  assert (H2 : packet_data (mem sample_pending 0%nat) = Some 0)
    by (vm_compute; reflexivity).
  assert (H3 : packet_ptl (mem sample_pending 0%nat) = true)
    by (vm_compute; reflexivity).
  assert (H4 : Z.testbit (state (mem sample_pending 0%nat))
                 (@SSH_REQUEST_SF_COMPLETED_BIT sample_decls) = false)
    by (vm_compute; reflexivity).
  repeat (split; [assumption|]).
  destruct (@ssh_rtl_complete_matched sample_decls eq_refl {| rqid := 0 |} []
              0%nat [] [] sample_pending H1
              (fun p (F : In p []) => match F with end) H2 H3 H4)
    as (s' & E & _ & _ & _ & _ & _ & Hc).
  exists s'. split; [exact E|].
  assert (Ht : Z.testbit (state (mem sample_pending 0%nat))
                 (@SSH_REQUEST_SF_TRANSMITTED_BIT sample_decls) = false)
    by (vm_compute; reflexivity).
  rewrite Ht in Hc. destruct Hc as [Hc _]. rewrite Hc.
  vm_compute. reflexivity.
Defined.

(** C6 on two pending requests, acknowledged at time 1000 and two seconds
    later, at time 3500000000: the first has timed out and is completed with
    -ETIMEDOUT; the second stays, and the reaper is set for its deadline,
    1500 ms ahead. *)
Lemma ssh_rtl_timeout_reap_result_witness :
  NoDup (pending_head (rtl sample_waiting_two))
  /\ rtx_timeout_timeout (rtl sample_waiting_two) = SSH_RTL_REQUEST_TIMEOUT
  /\ 0 <= 3500000000
  /\ 3500000000 + SSH_RTL_REQUEST_TIMEOUT
     + 2 * @SSH_RTL_REQUEST_TIMEOUT_RESOLUTION sample_decls <= KTIME_MAX
  /\ (forall r, In r (pending_head (rtl sample_waiting_two)) ->
        timestamp (mem sample_waiting_two r) = KTIME_MAX
        \/ 0 <= timestamp (mem sample_waiting_two r) <= 3500000000)
  /\ exists s',
       @ssh_rtl_timeout_reap sample_decls 3500000000 sample_waiting_two
       = Some (tt, s')
       /\ pending_head (rtl s') = [2%nat]
       /\ completions 0%nat (calls s') = [Complete 0%nat None (- ETIMEDOUT)]
       /\ completions 2%nat (calls s') = []
       /\ rtx_timeout_expires (rtl s') = 5000000000
       /\ rtx_timeout_reaper (rtl s') = Some 1500.
Proof.
  assert (Hp : pending_head (rtl sample_waiting_two) = [0%nat; 2%nat])
    by (vm_compute; reflexivity).
  assert (H1 : NoDup (pending_head (rtl sample_waiting_two))).
  { rewrite Hp. repeat constructor; cbn [In]; intuition discriminate. }
  assert (H2 : rtx_timeout_timeout (rtl sample_waiting_two)
               = SSH_RTL_REQUEST_TIMEOUT) by (vm_compute; reflexivity).
  assert (H3 : 0 <= 3500000000) by lia.
  assert (H4 : 3500000000 + SSH_RTL_REQUEST_TIMEOUT
               + 2 * @SSH_RTL_REQUEST_TIMEOUT_RESOLUTION sample_decls
               <= KTIME_MAX) by (vm_compute; discriminate).
  assert (H5 : forall r, In r (pending_head (rtl sample_waiting_two)) ->
                 timestamp (mem sample_waiting_two r) = KTIME_MAX
                 \/ 0 <= timestamp (mem sample_waiting_two r) <= 3500000000).
  { intros r Hin. rewrite Hp in Hin. destruct Hin as [<-|[<-|[]]];
      right; vm_compute; split; discriminate. }
  split; [exact H1|]. split; [exact H2|]. split; [exact H3|].
  split; [exact H4|]. split; [exact H5|].
  destruct (@ssh_rtl_timeout_reap_result sample_decls eq_refl 3500000000
              sample_waiting_two H1 H2 H3 H4 H5)
    as (s' & E & Hh & _ & _ & Hc & Hex & Hre).
  exists s'. split; [exact E|]. split; [|split; [|split; [|split]]].
  - rewrite Hh, Hp. vm_compute. reflexivity.
  - rewrite Hc, Hp. vm_compute. reflexivity.
  - rewrite Hc, Hp. vm_compute. reflexivity.
  - rewrite Hex, Hp. vm_compute. reflexivity.
  - rewrite Hre, Hp. vm_compute. reflexivity.
Defined.

(** C7 on a queue headed by a flush request while request 0 is pending:
    nothing is dequeued, and request 2 behind the flush request waits. *)
Lemma ssh_rtl_tx_next_head_witness :
  queue_head (rtl sample_flush_queued) = [] ++ 1%nat :: [2%nat]
  /\ Z.testbit (state (mem sample_flush_queued 1%nat))
       (@SSH_REQUEST_SF_LOCKED_BIT sample_decls) = false
  /\ packet_ptl (mem sample_flush_queued 1%nat) = true
  /\ @ssh_rtl_tx_next sample_decls sample_flush_queued
     = Some (inl (- EBUSY), sample_flush_queued).
Proof.
  assert (H1 : queue_head (rtl sample_flush_queued) = [] ++ 1%nat :: [2%nat])
    by (vm_compute; reflexivity).
  assert (H3 : Z.testbit (state (mem sample_flush_queued 1%nat))
                 (@SSH_REQUEST_SF_LOCKED_BIT sample_decls) = false)
    by (vm_compute; reflexivity).
  assert (H4 : packet_ptl (mem sample_flush_queued 1%nat) = true)
    by (vm_compute; reflexivity).
  repeat (split; [assumption|]).
  pose proof (@ssh_rtl_tx_next_head sample_decls [] 1%nat [2%nat]
                sample_flush_queued H1
                (fun q (F : In q []) => match F with end) H3 H4) as H.
  cbv zeta in H.
  assert (Hf : Z.testbit (state (mem sample_flush_queued 1%nat))
                 (@SSH_REQUEST_TY_FLUSH_BIT sample_decls) = true)
    by (vm_compute; reflexivity).
  assert (Hc : (pending_count (rtl sample_flush_queued) =? 0) = false)
    by (vm_compute; reflexivity).
  rewrite Hf, Hc in H. destruct H as [_ [H _]]. exact H.
Defined.

(** C7 as worded fails: with the flush request 1 in the pending set, request
    0 is dequeued all the same. *)
Lemma pending_flush_does_not_block :
  ~ @pending_flush_blocks_dequeues sample_decls.
Proof.
  intros H.
  assert (R : result (@run sample_decls sample_flush_pending_ops) sample_boot
              = Some tt) by (vm_compute; reflexivity).
  pose proof (result_after _ _ _ R) as E.
  assert (R' : result (@ssh_rtl_tx_next sample_decls)
                 (after (@run sample_decls sample_flush_pending_ops)
                    sample_boot) = Some (inr 0%nat))
    by (vm_compute; reflexivity).
  pose proof (result_after _ _ _ R') as E'.
  assert (Hin : In 1%nat
                  (pending_head
                     (rtl (after (@run sample_decls sample_flush_pending_ops)
                             sample_boot)))) by (vm_compute; auto).
  assert (Hf : Z.testbit
                 (state (mem (after (@run sample_decls
                                       sample_flush_pending_ops)
                                sample_boot) 1%nat))
                 (@SSH_REQUEST_TY_FLUSH_BIT sample_decls) = true)
    by (vm_compute; reflexivity).
  destruct (H sample_setup sample_flush_pending_ops _ 1%nat E Hin Hf _ _ E')
    as [e He].
  discriminate He.
Qed.

(** C8 on a reaper that is not armed: the stored expiration is set and the
    work is scheduled in 3000 jiffies. *)
Lemma ssh_rtl_timeout_reaper_mod_result_witness :
  0 <= 3000000000
  /\ 3000000000 + @SSH_RTL_REQUEST_TIMEOUT_RESOLUTION sample_decls
     <= KTIME_MAX
  /\ @ssh_rtl_timeout_reaper_mod sample_decls 0 3000000000 sample_boot
     = Some (tt, on_rtl (with_reaper (Some 3000))
                   (on_rtl (with_expires 3000000000) sample_boot)).
Proof.
  assert (H1 : 0 <= 3000000000) by lia.
  assert (H2 : 3000000000 + @SSH_RTL_REQUEST_TIMEOUT_RESOLUTION sample_decls
               <= KTIME_MAX) by (vm_compute; discriminate).
  repeat (split; [assumption|]).
  exact (proj2 (@ssh_rtl_timeout_reaper_mod_result sample_decls 0 3000000000
                  sample_boot H1 H2)).
Defined.

(** C8 as worded fails on both counts.  An expiration of 80 ms does not
    lower a stored one of 100 ms: they are less than the resolution apart.
    And an expiration 3000 ms away is scheduled in 3000 jiffies of a
    millisecond, not in 3050. *)
Lemma reaper_mod_not_as_worded :
  ~ @reaper_mod_lowers_when_earlier sample_decls
  /\ ~ @reaper_mod_adds_floor_to_delta sample_decls.
Proof.
  split; intros H.
  - assert (R : result (@ssh_rtl_timeout_reaper_mod sample_decls 0 80000000)
                  sample_armed = Some tt) by (vm_compute; reflexivity).
    pose proof (result_after _ _ _ R) as E.
    specialize (H 0 80000000 sample_armed
                  (after (@ssh_rtl_timeout_reaper_mod sample_decls 0 80000000)
                     sample_armed)).
    assert (Hv : rtx_timeout_expires
                   (rtl (after (@ssh_rtl_timeout_reaper_mod sample_decls 0
                                  80000000) sample_armed)) = 80000000).
    { apply H; [lia|vm_compute; discriminate|vm_compute; reflexivity|exact E]. }
    vm_compute in Hv. discriminate Hv.
  - assert (R : result (@ssh_rtl_timeout_reaper_mod sample_decls 0 3000000000)
                  sample_boot = Some tt) by (vm_compute; reflexivity).
    pose proof (result_after _ _ _ R) as E.
    specialize (H 0 3000000000 sample_boot
                  (after (@ssh_rtl_timeout_reaper_mod sample_decls 0
                            3000000000) sample_boot)).
    assert (Hv : rtx_timeout_reaper
                   (rtl (after (@ssh_rtl_timeout_reaper_mod sample_decls 0
                                  3000000000) sample_boot))
                 = Some (@msecs_to_jiffies sample_decls
                           (ktime_ms_delta 3000000000 0
                            + @resolution_ms sample_decls))).
    { apply H; [lia|vm_compute; discriminate|exact E
               |vm_compute; reflexivity|vm_compute; discriminate]. }
    vm_compute in Hv. discriminate Hv.
Qed.

(** C9 on a request cancelled while pending, with a run of the reaper
    before it is cancelled again. *)
Lemma ssh_rtl_cancel_idempotent_witness :
  @ssh_rtl_cancel sample_decls 0%nat true false sample_pending
  = Some (true, sample_cancelled)
  /\ @run sample_decls [OpTimeoutReap 5] sample_cancelled
     = Some (tt, sample_reaped)
  /\ exists s3,
       @ssh_rtl_cancel sample_decls 0%nat false false sample_reaped
       = Some (true, s3)
       /\ same_sys sample_reaped s3.
Proof.
  assert (R1 : result (@ssh_rtl_cancel sample_decls 0%nat true false)
                 sample_pending = Some true) by (vm_compute; reflexivity).
  pose proof (result_after _ _ _ R1 : _ = Some (true, sample_cancelled)) as E1.
  assert (R2 : result (@run sample_decls [OpTimeoutReap 5]) sample_cancelled
               = Some tt) by (vm_compute; reflexivity).
  pose proof (result_after _ _ _ R2 : _ = Some (tt, sample_reaped)) as E2.
  split; [exact E1|]. split; [exact E2|].
  exact (@ssh_rtl_cancel_idempotent sample_decls eq_refl 0%nat true false
           sample_pending true sample_cancelled [OpTimeoutReap 5]
           sample_reaped E1 E2 false false).
Defined.

(** X1 on the run in which four requests compete for the three places. *)
Lemma pending_flag_means_linked_witness :
  @run sample_decls sample_busy_ops (@boot sample_decls sample_setup)
  = Some (tt, sample_busy)
  /\ (forall r,
        Z.testbit (state (mem sample_busy r))
          (@SSH_REQUEST_SF_PENDING_BIT sample_decls) = true ->
        In r (pending_head (rtl sample_busy)))
  /\ Z.of_nat (length (pending_head (rtl sample_busy)))
     <= pending_count (rtl sample_busy).
Proof.
  assert (R : result (@run sample_decls sample_busy_ops) sample_boot = Some tt)
    by (vm_compute; reflexivity).
  pose proof (result_after _ _ _ R : _ = Some (tt, sample_busy)) as E.
  split; [exact E|].
  exact (@pending_flag_means_linked sample_decls eq_refl sample_setup
           sample_busy_ops sample_busy E).
Defined.

(** X2 on the CANCELED flag of request 0 across a run of the reaper. *)
Lemma state_flags_stay_set_witness :
  Z.testbit (state (mem sample_cancelled 0%nat))
    (@SSH_REQUEST_SF_CANCELED_BIT sample_decls) = true
  /\ @run sample_decls [OpTimeoutReap 5] sample_cancelled
     = Some (tt, sample_reaped)
  /\ Z.testbit (state (mem sample_reaped 0%nat))
       (@SSH_REQUEST_SF_CANCELED_BIT sample_decls) = true.
Proof.
  assert (H1 : Z.testbit (state (mem sample_cancelled 0%nat))
                 (@SSH_REQUEST_SF_CANCELED_BIT sample_decls) = true)
    by (vm_compute; reflexivity).
  assert (R2 : result (@run sample_decls [OpTimeoutReap 5]) sample_cancelled
               = Some tt) by (vm_compute; reflexivity).
  pose proof (result_after _ _ _ R2 : _ = Some (tt, sample_reaped)) as E2.
  split; [exact H1|]. split; [exact E2|].
  exact (@state_flags_stay_set sample_decls eq_refl 0%nat
           (@SSH_REQUEST_SF_CANCELED_BIT sample_decls) [OpTimeoutReap 5]
           sample_cancelled sample_reaped
           (or_intror (or_intror (or_intror (or_introl eq_refl))))
           H1 E2).
Defined.

(** X3 on an expiration of 10 ms against a stored one of 100 ms. *)
Lemma reaper_mod_exchanges_twice_witness :
  (2 <= 5)%nat
  /\ reaper_mod_loop 5 60000000 10000000
       (rtx_timeout_expires (rtl sample_armed)) sample_armed
     = reaper_mod_loop 2 60000000 10000000
         (rtx_timeout_expires (rtl sample_armed)) sample_armed.
Proof.
  assert (H : (2 <= 5)%nat) by lia.
  split; [exact H|].
  exact (reaper_mod_exchanges_twice 5 60000000 10000000
           sample_armed H).
Defined.

(** X4 on a sum that has wrapped around to 5. *)
Lemma reaper_mod_loop_never_ends_witness :
  ktime_before 5 (rtx_timeout_expires (rtl sample_armed)) = true
  /\ ktime_before 5 (KTIME_MAX - 10) = true
  /\ reaper_mod_loop 7 5 (KTIME_MAX - 10)
       (rtx_timeout_expires (rtl sample_armed)) sample_armed = None.
Proof.
  assert (H1 : ktime_before 5 (rtx_timeout_expires (rtl sample_armed)) = true)
    by (vm_compute; reflexivity).
  assert (H2 : ktime_before 5 (KTIME_MAX - 10) = true)
    by (vm_compute; reflexivity).
  split; [exact H1|]. split; [exact H2|].
  exact (reaper_mod_loop_never_ends 7 5 (KTIME_MAX - 10)
           sample_armed H1 H2).
Defined.

(** X5 on request 0 before it is submitted. *)
Lemma ssh_rtl_cancel_unsubmitted_nonpending_witness :
  packet_ptl (mem sample_boot 0%nat) = false
  /\ Z.testbit (state (mem sample_boot 0%nat))
       (@SSH_REQUEST_SF_CANCELED_BIT sample_decls) = false
  /\ @ssh_rtl_cancel sample_decls 0%nat false false sample_boot = None.
Proof.
  assert (H1 : packet_ptl (mem sample_boot 0%nat) = false)
    by (vm_compute; reflexivity).
  assert (H2 : Z.testbit (state (mem sample_boot 0%nat))
                 (@SSH_REQUEST_SF_CANCELED_BIT sample_decls) = false)
    by (vm_compute; reflexivity).
  split; [exact H1|]. split; [exact H2|].
  exact (@ssh_rtl_cancel_unsubmitted_nonpending sample_decls eq_refl 0%nat
           false sample_boot H1 H2).
Defined.

(** X6 on request 0 once it is pending. *)
Lemma ssh_rtl_cancel_nonpending_too_late_witness :
  packet_ptl (mem sample_pending 0%nat) = true
  /\ Z.testbit (state (mem sample_pending 0%nat))
       (@SSH_REQUEST_SF_CANCELED_BIT sample_decls) = false
  /\ Z.testbit (state (mem sample_pending 0%nat))
       (@SSH_REQUEST_SF_QUEUED_BIT sample_decls) = false
  /\ exists s1,
       @ssh_rtl_cancel sample_decls 0%nat false false sample_pending
       = Some (false, s1)
       /\ rtl s1 = rtl sample_pending
       /\ exists s2,
            @ssh_rtl_cancel sample_decls 0%nat true false s1
            = Some (true, s2).
Proof.
  assert (H1 : packet_ptl (mem sample_pending 0%nat) = true)
    by (vm_compute; reflexivity).
  assert (H2 : Z.testbit (state (mem sample_pending 0%nat))
                 (@SSH_REQUEST_SF_CANCELED_BIT sample_decls) = false)
    by (vm_compute; reflexivity).
  assert (H3 : Z.testbit (state (mem sample_pending 0%nat))
                 (@SSH_REQUEST_SF_QUEUED_BIT sample_decls) = false)
    by (vm_compute; reflexivity).
  repeat (split; [assumption|]).
  destruct (@ssh_rtl_cancel_nonpending_too_late sample_decls eq_refl 0%nat
              false sample_pending H1 H2 H3)
    as (s1 & E & Hr & _ & _ & Hagain).
  exists s1. split; [exact E|]. split; [exact Hr|].
  destruct (Hagain true false) as (s2 & E2 & _).
  exists s2. exact E2.
Defined.

(** X7 on request 0 while it waits in the queue. *)
Lemma ssh_rtl_cancel_queued_witness :
  packet_ptl (mem sample_queued 0%nat) = true
  /\ Z.testbit (state (mem sample_queued 0%nat))
       (@SSH_REQUEST_SF_CANCELED_BIT sample_decls) = false
  /\ Z.testbit (state (mem sample_queued 0%nat))
       (@SSH_REQUEST_SF_QUEUED_BIT sample_decls) = true
  /\ exists s',
       @ssh_rtl_cancel sample_decls 0%nat false false sample_queued
       = Some (true, s')
       /\ queue_head (rtl s') = []
       /\ completions 0%nat (calls s') = [Complete 0%nat None (- ECANCELED)].
Proof.
  assert (H1 : packet_ptl (mem sample_queued 0%nat) = true)
    by (vm_compute; reflexivity).
  assert (H2 : Z.testbit (state (mem sample_queued 0%nat))
                 (@SSH_REQUEST_SF_CANCELED_BIT sample_decls) = false)
    by (vm_compute; reflexivity).
  assert (H3 : Z.testbit (state (mem sample_queued 0%nat))
                 (@SSH_REQUEST_SF_QUEUED_BIT sample_decls) = true)
    by (vm_compute; reflexivity).
  repeat (split; [assumption|]).
  destruct (@ssh_rtl_cancel_queued sample_decls eq_refl 0%nat false
              sample_queued H1 H2 H3)
    as (s' & E & Hq & _ & _ & _ & _ & Hc & _).
  exists s'. split; [exact E|]. split.
  - rewrite Hq. vm_compute. reflexivity.
  - rewrite Hc. vm_compute. reflexivity.
Defined.

(** X8 on the pending request 0. *)
Lemma tx_shutdown_completes_unguarded_witness :
  packet_ptl (mem sample_pending 0%nat) = true
  /\ exists s',
       @tx_try_process_one_end sample_decls 0%nat (- ESHUTDOWN) sample_pending
       = Some (- ESHUTDOWN, s')
       /\ completions 0%nat (calls s') = [Complete 0%nat None (- ESHUTDOWN)]
       /\ Z.testbit (state (mem s' 0%nat))
            (@SSH_REQUEST_SF_COMPLETED_BIT sample_decls) = false.
Proof.
  assert (H1 : packet_ptl (mem sample_pending 0%nat) = true)
    by (vm_compute; reflexivity).
  split; [exact H1|].
  destruct (@tx_shutdown_completes_unguarded sample_decls eq_refl 0%nat
              sample_pending H1)
    as (s' & E & Hc & Hb & _).
  exists s'. split; [exact E|]. split.
  - rewrite Hc. vm_compute. reflexivity.
  - rewrite Hb. vm_compute. reflexivity.
Defined.

(** X9 on the flush request 1, which expects no response. *)
Lemma packet_callback_success_no_response_witness :
  packet_ptl (mem sample_flush_pending 1%nat) = true
  /\ Z.testbit (state (mem sample_flush_pending 1%nat))
       (@SSH_REQUEST_TY_HAS_RESPONSE_BIT sample_decls) = false
  /\ Z.testbit (state (mem sample_flush_pending 1%nat))
       (@SSH_REQUEST_SF_COMPLETED_BIT sample_decls) = false
  /\ exists s',
       @ssh_rtl_packet_callback sample_decls 1%nat 0 1000 sample_flush_pending
       = Some (tt, s')
       /\ completions 1%nat (calls s') = [Complete 1%nat None 0].
Proof.
  assert (H1 : packet_ptl (mem sample_flush_pending 1%nat) = true)
    by (vm_compute; reflexivity).
  assert (H2 : Z.testbit (state (mem sample_flush_pending 1%nat))
                 (@SSH_REQUEST_TY_HAS_RESPONSE_BIT sample_decls) = false)
    by (vm_compute; reflexivity).
  assert (H3 : Z.testbit (state (mem sample_flush_pending 1%nat))
                 (@SSH_REQUEST_SF_COMPLETED_BIT sample_decls) = false)
    by (vm_compute; reflexivity).
  repeat (split; [assumption|]).
  destruct (@packet_callback_success_no_response sample_decls eq_refl 1%nat
              1000 sample_flush_pending H1 H2 H3)
    as (s' & E & Hc & _).
  exists s'. split; [exact E|].
  rewrite Hc. vm_compute. reflexivity.
Defined.

(** X10 on the pending request 0, acknowledged at time 1000. *)
Lemma packet_callback_success_starts_timeout_witness :
  packet_ptl (mem sample_pending 0%nat) = true
  /\ Z.testbit (state (mem sample_pending 0%nat))
       (@SSH_REQUEST_TY_HAS_RESPONSE_BIT sample_decls) = true
  /\ Z.testbit (state (mem sample_pending 0%nat))
       (@SSH_REQUEST_SF_LOCKED_BIT sample_decls) = false
  /\ 0 <= 1000
  /\ 0 <= rtx_timeout_timeout (rtl sample_pending)
  /\ 1000 + rtx_timeout_timeout (rtl sample_pending)
     + @SSH_RTL_REQUEST_TIMEOUT_RESOLUTION sample_decls <= KTIME_MAX
  /\ exists s',
       @ssh_rtl_packet_callback sample_decls 0%nat 0 1000 sample_pending
       = Some (tt, s')
       /\ calls s' = calls sample_pending
       /\ timestamp (mem s' 0%nat) = 1000
       /\ rtx_timeout_expires (rtl s') = 3000001000
       /\ rtx_timeout_reaper (rtl s') = Some 3000.
Proof.
  assert (H1 : packet_ptl (mem sample_pending 0%nat) = true)
    by (vm_compute; reflexivity).
  assert (H2 : Z.testbit (state (mem sample_pending 0%nat))
                 (@SSH_REQUEST_TY_HAS_RESPONSE_BIT sample_decls) = true)
    by (vm_compute; reflexivity).
  assert (H3 : Z.testbit (state (mem sample_pending 0%nat))
                 (@SSH_REQUEST_SF_LOCKED_BIT sample_decls) = false)
    by (vm_compute; reflexivity).
  assert (H4 : 0 <= 1000) by lia.
  assert (H5 : 0 <= rtx_timeout_timeout (rtl sample_pending))
    by (vm_compute; discriminate).
  assert (H6 : 1000 + rtx_timeout_timeout (rtl sample_pending)
               + @SSH_RTL_REQUEST_TIMEOUT_RESOLUTION sample_decls
               <= KTIME_MAX) by (vm_compute; discriminate).
  repeat (split; [assumption|]).
  destruct (@packet_callback_success_starts_timeout sample_decls eq_refl
              0%nat 1000 sample_pending H1 H2 H3 H4 H5 H6)
    as (s' & E & Hc & Ht & _ & _ & _ & _ & He & Hr & _).
  exists s'. split; [exact E|]. split; [exact Hc|]. split; [exact Ht|].
  split.
  - rewrite He. vm_compute. reflexivity.
  - rewrite Hr. vm_compute. reflexivity.
Defined.

(** X11 on the pending request 0, whose packet fails with -EIO. *)
Lemma packet_callback_failure_completes_witness :
  - 5 <> 0
  /\ packet_ptl (mem sample_pending 0%nat) = true
  /\ Z.testbit (state (mem sample_pending 0%nat))
       (@SSH_REQUEST_SF_COMPLETED_BIT sample_decls) = false
  /\ exists s',
       @ssh_rtl_packet_callback sample_decls 0%nat (- 5) 1000 sample_pending
       = Some (tt, s')
       /\ completions 0%nat (calls s') = [Complete 0%nat None (- 5)].
Proof.
  assert (H0 : - 5 <> 0) by lia.
  assert (H1 : packet_ptl (mem sample_pending 0%nat) = true)
    by (vm_compute; reflexivity).
  assert (H3 : Z.testbit (state (mem sample_pending 0%nat))
                 (@SSH_REQUEST_SF_COMPLETED_BIT sample_decls) = false)
    by (vm_compute; reflexivity).
  repeat (split; [assumption|]).
  destruct (@packet_callback_failure_completes sample_decls eq_refl 0%nat
              (- 5) 1000 sample_pending H0 H1 H3)
    as (s' & E & Hc & _).
  exists s'. split; [exact E|].
  rewrite Hc. vm_compute. reflexivity.
Defined.

(** X12 on a response with request id 7: dropped while only request 0 is
    pending, fatal while the flush request 1 is. *)
Lemma ssh_rtl_complete_unknown_rqid_witness :
  (forall p, In p (pending_head (rtl sample_pending)) ->
     packet_data (mem sample_pending p) <> Some (rqid {| rqid := 7 |}))
  /\ @ssh_rtl_complete sample_decls {| rqid := 7 |} [] sample_pending
     = Some (tt, sample_pending)
  /\ (forall p, In p (pending_head (rtl sample_flush_pending)) ->
        packet_data (mem sample_flush_pending p)
        <> Some (rqid {| rqid := 7 |}))
  /\ @ssh_rtl_complete sample_decls {| rqid := 7 |} [] sample_flush_pending
     = None.
Proof.
  assert (Hp : pending_head (rtl sample_pending) = [0%nat])
    by (vm_compute; reflexivity).
  assert (Hd : packet_data (mem sample_pending 0%nat) = Some 0)
    by (vm_compute; reflexivity).
  assert (H : forall p, In p (pending_head (rtl sample_pending)) ->
                packet_data (mem sample_pending p)
                <> Some (rqid {| rqid := 7 |})).
  { intros p Hin. rewrite Hp in Hin. destruct Hin as [<-|[]].
    rewrite Hd. discriminate. }
  assert (Hp' : pending_head (rtl sample_flush_pending) = [1%nat])
    by (vm_compute; reflexivity).
  assert (Hd' : packet_data (mem sample_flush_pending 1%nat) = None)
    by (vm_compute; reflexivity).
  assert (H' : forall p, In p (pending_head (rtl sample_flush_pending)) ->
                 packet_data (mem sample_flush_pending p)
                 <> Some (rqid {| rqid := 7 |})).
  { intros p Hin. rewrite Hp' in Hin. destruct Hin as [<-|[]].
    rewrite Hd'. discriminate. }
  split; [exact H|]. split.
  - pose proof (@ssh_rtl_complete_unknown_rqid sample_decls {| rqid := 7 |} []
                  sample_pending H) as E.
    rewrite Hp in E. cbn [forallb] in E. unfold has_message in E.
    rewrite Hd in E. exact E.
  - split; [exact H'|].
    pose proof (@ssh_rtl_complete_unknown_rqid sample_decls {| rqid := 7 |} []
                  sample_flush_pending H') as E.
    rewrite Hp' in E. cbn [forallb] in E. unfold has_message in E.
    rewrite Hd' in E. exact E.
Defined.

(** X13 on a response that arrives while a cancellation of the pending
    request 0 is under way. *)
Lemma ssh_rtl_complete_already_completed_witness :
  pending_head (rtl sample_completing) = [] ++ 0%nat :: []
  /\ packet_data (mem sample_completing 0%nat) = Some (rqid {| rqid := 0 |})
  /\ Z.testbit (state (mem sample_completing 0%nat))
       (@SSH_REQUEST_SF_COMPLETED_BIT sample_decls) = true
  /\ exists s',
       @ssh_rtl_complete sample_decls {| rqid := 0 |} [] sample_completing
       = Some (tt, s')
       /\ pending_head (rtl s') = []
       /\ forall r', completions r' (calls s')
                     = completions r' (calls sample_completing).
Proof.
  assert (H1 : pending_head (rtl sample_completing) = [] ++ 0%nat :: [])
    by (vm_compute; reflexivity).
  assert (H2 : packet_data (mem sample_completing 0%nat)
               = Some (rqid {| rqid := 0 |})) by (vm_compute; reflexivity).
  assert (H3 : Z.testbit (state (mem sample_completing 0%nat))
                 (@SSH_REQUEST_SF_COMPLETED_BIT sample_decls) = true)
    by (vm_compute; reflexivity).
  repeat (split; [assumption|]).
  destruct (@ssh_rtl_complete_already_completed sample_decls eq_refl
              {| rqid := 0 |} [] 0%nat [] [] sample_completing H1
              (fun p (F : In p []) => match F with end) H2 H3)
    as (s' & E & Hp & _ & _ & _ & _ & Hc).
  exists s'. split; [exact E|]. split; [exact Hp|exact Hc].
Defined.

(** X14 on a request that is cancelled inside the transmitter and for which
    a response arrives afterwards: one completion. *)
Lemma complete_at_most_once_witness :
  no_ptl_shutdown sample_once_ops = true
  /\ @run sample_decls sample_once_ops (@boot sample_decls sample_setup)
     = Some (tt, sample_run sample_once_ops sample_boot)
  /\ (length (completions 0%nat
                (calls (sample_run sample_once_ops sample_boot))) <= 1)%nat.
Proof.
  assert (H1 : no_ptl_shutdown sample_once_ops = true)
    by (vm_compute; reflexivity).
  assert (R : result (@run sample_decls sample_once_ops) sample_boot = Some tt)
    by (vm_compute; reflexivity).
  pose proof (result_after (@run sample_decls sample_once_ops) sample_boot
                tt R) as E.
  split; [exact H1|]. split; [exact E|].
  exact (proj1 (@complete_at_most_once sample_decls eq_refl sample_setup
                  sample_once_ops (sample_run sample_once_ops sample_boot)
                  0%nat H1 E)).
Defined.

(** X15 on a layer with three pending requests and one queued. *)
Lemma ssh_rtl_shutdown_drains_witness :
  @run sample_decls sample_busy_ops (@boot sample_decls sample_setup)
  = Some (tt, sample_busy)
  /\ @ssh_rtl_shutdown sample_decls 0 [0%nat; 2%nat; 3%nat] sample_busy
     = Some (tt, sample_shut)
  /\ Z.testbit (rtl_state (rtl sample_shut)) SSH_RTL_SF_SHUTDOWN_BIT = true
  /\ queue_head (rtl sample_shut) = []
  /\ pending_head (rtl sample_shut) = []
  /\ rtx_timeout_reaper (rtl sample_shut) = None.
Proof.
  assert (R : result (@run sample_decls sample_busy_ops) sample_boot = Some tt)
    by (vm_compute; reflexivity).
  pose proof (result_after _ _ _ R : _ = Some (tt, sample_busy)) as E.
  assert (R2 : result (@ssh_rtl_shutdown sample_decls 0
                         [0%nat; 2%nat; 3%nat]) sample_busy = Some tt)
    by (vm_compute; reflexivity).
  pose proof (result_after _ _ _ R2 : _ = Some (tt, sample_shut)) as E2.
  split; [exact E|]. split; [exact E2|].
  exact (@ssh_rtl_shutdown_drains sample_decls eq_refl sample_setup
           sample_busy_ops 0 [0%nat; 2%nat; 3%nat] sample_busy sample_shut
           E E2).
Defined.

